(** * mnist-3lnn: the three-layer network of [3lnn.c] over its arena

    The network of [3lnn.c] lives in one allocation: a header ([struct
    Network]) followed by three layers of different node strides, reached by
    byte-pointer arithmetic only.  This development embeds that code as it is
    written:

    - a [double] is an IEEE binary64 number, Rocq's primitive [float];
    - an [int] is an integer of [Z] between [INT_MIN] and [INT_MAX] (32
      bits).  Where [createNetwork] and [getNode] multiply two [int]s or
      store a size computed in [size_t] in an [int], a value outside that
      range has no result ([None]): the product overflows, which C leaves
      undefined, and the conversion is the implementation's choice.  The
      other functions repeat these computations on the same values
      ([createLayer], [createInputLayer]) or add a stored size to a pointer in
      pointer arithmetic;
    - [malloc] returns a block of the size asked for; the embedding says
      nothing of a run in which it returns no memory;
    - a pointer into the arena is the byte offset from [nn->layers]; memory is
      a map from byte offsets to typed cells, a cell sitting at the offset of
      the first byte of the scalar it holds.  Reading a cell that was never
      written, or at the wrong type, has no result ([None]);
    - the library functions [tanh], [exp] and [pow] of [math.h], the constant
      [RAND_MAX] and the values returned by [rand()] are parameters.

    Around the network, [main.c] and [util/mnist-stats.c] are embedded the
    same way: what they write to the terminal is the list of their calls of
    [printf] and of the cursor functions, a text built in a [char] array has
    no result when it does not fit the array, and the constants, the image
    type and the file readers of [util/mnist-utils.h] are parameters.

    The file has the definitions first (the code, then the vocabulary of the
    statements and the networks of the examples), then the lemmas and
    theorems, and last the theorems instantiated at concrete networks. *)

From Stdlib Require Import Ascii String.
From Stdlib Require Import ZArith List Bool Lia Floats.
From Stdlib Require Uint63.
Import ListNotations.

Set Warnings "-inexact-float".
#[local] Open Scope Z_scope.
#[local] Arguments Z.add _ _ : simpl never.
#[local] Arguments Z.sub _ _ : simpl never.
#[local] Arguments Z.mul _ _ : simpl never.

(** ** Option monad *)

Definition obind {A B : Type} (o : option A) (k : A -> option B) : option B :=
  match o with
  | Some a => k a
  | None => None
  end.

Notation "x <- e ;; k" := (obind e (fun x => k))
  (at level 61, e at next level, right associativity).
Notation "' p <- e ;; k" := (obind e (fun x => match x with p => k end))
  (at level 61, p pattern, e at next level, right associativity).

(** ** Typed cells and byte-addressed memory *)

Inductive cell : Type :=
| CUndef
| CInt (z : Z)
| CDbl (d : float).

Definition mem : Type := Z -> cell.

(** What [malloc] returns: nothing readable. *)
Definition malloc : mem := fun _ => CUndef.

Definition load_int (m : mem) (a : Z) : option Z :=
  match m a with
  | CInt z => Some z
  | _ => None
  end.

Definition load_dbl (m : mem) (a : Z) : option float :=
  match m a with
  | CDbl d => Some d
  | _ => None
  end.

Definition store (m : mem) (a : Z) (c : cell) : mem :=
  fun a' => if a' =? a then c else m a'.

(** [memcpy(dst + d, src + s, n)]: the [n] bytes from offset [s] of [src]
    land at offset [d] of [dst]. *)
Definition memcpy (dst : mem) (d : Z) (src : mem) (s : Z) (n : Z) : mem :=
  fun a => if (d <=? a) && (a <? d + n) then src (a - d + s) else dst a.

(** ** Layout of the structs of [3lnn.h]

    [struct Node { double bias; double output; int wcount; double weights[]; }]
    and [struct Layer { int ncount; Node nodes[]; }] with 8-byte doubles
    aligned on 8 bytes and 4-byte ints (the LP64 layout). *)

Definition sizeof_double : Z := 8.
Definition sizeof_Node : Z := 24.
Definition sizeof_Layer : Z := 8.

Definition off_bias : Z := 0.
Definition off_output : Z := 8.
Definition off_wcount : Z := 16.
Definition off_weights : Z := 24.
Definition off_ncount : Z := 0.
Definition off_nodes : Z := 8.

(** ** [int]

    A size or an offset that the code computes into an [int]. *)

Definition INT_MAX : Z := 2147483647.
Definition INT_MIN : Z := - 2147483648.

Definition to_int (z : Z) : option Z :=
  if (INT_MIN <=? z) && (z <=? INT_MAX) then Some z else None.

(** [&n->weights[i]] *)
Definition weight_at (n : Z) (i : Z) : Z := n + off_weights + i * sizeof_double.

Inductive LayerType : Type := INPUT | HIDDEN | OUTPUT.
Inductive ActFctType : Type := SIGMOID | TANH.

Definition LayerType_eqb (a b : LayerType) : bool :=
  match a, b with
  | INPUT, INPUT | HIDDEN, HIDDEN | OUTPUT, OUTPUT => true
  | _, _ => false
  end.

(** [struct Vector { int size; double vals[]; }] *)
Record Vector : Type := mkVector {
  size : Z;
  vals : list float
}.

(** [struct Network]: the header fields by name, and the layer region
    [layers[]] as memory addressed from its first byte. *)
Record Network : Type := mkNetwork {
  inpNodeSize : Z;
  inpLayerSize : Z;
  hidNodeSize : Z;
  hidLayerSize : Z;
  outNodeSize : Z;
  outLayerSize : Z;
  learningRate : float;
  hidLayerActType : ActFctType;
  outLayerActType : ActFctType;
  layers : mem
}.

Definition set_layers (nn : Network) (m : mem) : Network :=
  mkNetwork (inpNodeSize nn) (inpLayerSize nn) (hidNodeSize nn)
            (hidLayerSize nn) (outNodeSize nn) (outLayerSize nn)
            (learningRate nn) (hidLayerActType nn) (outLayerActType nn) m.

(** A write of a double through a pointer into the arena. *)
Definition poke (nn : Network) (a : Z) (d : float) : Network :=
  set_layers nn (store (layers nn) a (CDbl d)).

(** ** Counted loops

    [for (int i = 0; i < n; i++) body], the bound read when the loop is
    entered: no loop body of [3lnn.c] writes the count it runs to. *)

Fixpoint iter_from {St : Type} (body : Z -> St -> option St) (i : Z) (k : nat)
  (s : St) : option St :=
  match k with
  | O => Some s
  | Datatypes.S k' =>
      match body i s with
      | Some s' => iter_from body (i + 1) k' s'
      | None => None
      end
  end.

Definition for_lt {St : Type} (n : Z) (body : Z -> St -> option St) (s : St)
  : option St :=
  iter_from body 0 (Z.to_nat n) s.

(** The same loop around a body that has no failing access. *)

Fixpoint repeat_from {St : Type} (body : Z -> St -> St) (i : Z) (k : nat)
  (s : St) : St :=
  match k with
  | O => s
  | Datatypes.S k' => repeat_from body (i + 1) k' (body i s)
  end.

Definition repeat_lt {St : Type} (n : Z) (body : Z -> St -> St) (s : St) : St :=
  repeat_from body 0 (Z.to_nat n) s.

(** ** Addressing *)

(** [getNode] has the node size in an [int] and multiplies it by the [int]
    index; it compares the index with nothing. *)
Definition getNode (m : mem) (l : Z) (nodeId : Z) : option Z :=
  wc <- load_int m (l + off_nodes + off_wcount) ;;
  nodeSize <- to_int (sizeof_Node + wc * sizeof_double) ;;
  let sbptr := l + off_nodes in
  off <- to_int (nodeId * nodeSize) ;;
  Some (sbptr + off).

Definition getLayer (nn : Network) (ltype : LayerType) : Z :=
  match ltype with
  | INPUT => 0
  | HIDDEN => 0 + inpLayerSize nn
  | OUTPUT => 0 + (inpLayerSize nn + hidLayerSize nn)
  end.

Section Libm.

(** [tanh], [exp] and [pow] of [math.h]. *)
Variable c_tanh : float -> float.
Variable c_exp : float -> float.
Variable c_pow : float -> float -> float.

Definition actFctOf (nn : Network) (ltype : LayerType) : ActFctType :=
  if LayerType_eqb ltype HIDDEN then hidLayerActType nn else outLayerActType nn.

Definition getActFctDerivative (nn : Network) (ltype : LayerType)
  (outVal : float) : float :=
  match actFctOf nn ltype with
  | TANH => (1 - c_pow (c_tanh outVal) 2)%float
  | SIGMOID => (outVal * (1 - outVal))%float
  end.

(** The previous layer and its node stride, as [updateNodeWeights] and
    [calcNodeOutput] choose them. *)
Definition prevLayerOf (nn : Network) (ltype : LayerType) : Z * Z :=
  if LayerType_eqb ltype HIDDEN
  then (getLayer nn INPUT, inpNodeSize nn)
  else (getLayer nn HIDDEN, hidNodeSize nn).

(** ** Delta rule *)

Definition updateNodeWeights (nn : Network) (ltype : LayerType) (id : Z)
  (error : float) : option Network :=
  let updateLayer := getLayer nn ltype in
  updateNode <- getNode (layers nn) updateLayer id ;;
  let '(prevLayer, prevLayerNodeSize) := prevLayerOf nn ltype in
  let sbptr := prevLayer + off_nodes in
  wcount <- load_int (layers nn) (updateNode + off_wcount) ;;
  '(_, nn1) <- for_lt wcount
      (fun i '(sbptr, nn) =>
         let prevLayerNode := sbptr in
         w <- load_dbl (layers nn) (weight_at updateNode i) ;;
         x <- load_dbl (layers nn) (prevLayerNode + off_output) ;;
         Some (sbptr + prevLayerNodeSize,
               poke nn (weight_at updateNode i)
                    (w + learningRate nn * x * error)%float))
      (sbptr, nn) ;;
  b <- load_dbl (layers nn1) (updateNode + off_bias) ;;
  Some (poke nn1 (updateNode + off_bias)
             (b + learningRate nn1 * 1 * error)%float).

(** ** Backward pass *)

(** The error signal of an output node from its (activated) output. *)
Definition outputErrorSignal (nn : Network) (targetClassification o : Z)
  (output : float) : float :=
  let targetOutput := if o =? targetClassification then 1%float else 0%float in
  let errorDelta := (targetOutput - output)%float in
  (errorDelta * getActFctDerivative nn OUTPUT output)%float.

(** The inner loop of [backPropagateHiddenLayer]: the value of
    [outputcellerrorsum] for hidden node [h]. *)
Definition outputcellerrorsum (nn : Network) (targetClassification h : Z)
  : option float :=
  let ol := getLayer nn OUTPUT in
  ncount <- load_int (layers nn) (ol + off_ncount) ;;
  for_lt ncount
    (fun o acc =>
       on <- getNode (layers nn) ol o ;;
       output <- load_dbl (layers nn) (on + off_output) ;;
       let errorSignal := outputErrorSignal nn targetClassification o output in
       w <- load_dbl (layers nn) (weight_at on h) ;;
       Some (acc + errorSignal * w)%float)
    0%float.

Definition backPropagateHiddenLayer (nn : Network) (targetClassification : Z)
  : option Network :=
  let hl := getLayer nn HIDDEN in
  ncount <- load_int (layers nn) (hl + off_ncount) ;;
  for_lt ncount
    (fun h nn =>
       hn <- getNode (layers nn) hl h ;;
       sum <- outputcellerrorsum nn targetClassification h ;;
       output <- load_dbl (layers nn) (hn + off_output) ;;
       let hiddenErrorSignal :=
         (sum * getActFctDerivative nn HIDDEN output)%float in
       updateNodeWeights nn HIDDEN h hiddenErrorSignal)
    nn.

Definition backPropagateOutputLayer (nn : Network) (targetClassification : Z)
  : option Network :=
  let ol := getLayer nn OUTPUT in
  ncount <- load_int (layers nn) (ol + off_ncount) ;;
  for_lt ncount
    (fun o nn =>
       on <- getNode (layers nn) ol o ;;
       output <- load_dbl (layers nn) (on + off_output) ;;
       let errorSignal := outputErrorSignal nn targetClassification o output in
       updateNodeWeights nn OUTPUT o errorSignal)
    nn.

Definition backPropagateNetwork (nn : Network) (targetClassification : Z)
  : option Network :=
  nn1 <- backPropagateOutputLayer nn targetClassification ;;
  backPropagateHiddenLayer nn1 targetClassification.

(** ** Forward pass *)

Definition activation (nn : Network) (ltype : LayerType) (x : float) : float :=
  match actFctOf nn ltype with
  | TANH => c_tanh x
  | SIGMOID => (1 / (1 + c_exp (- x)))%float
  end.

Definition activateNode (nn : Network) (ltype : LayerType) (id : Z)
  : option Network :=
  let l := getLayer nn ltype in
  n <- getNode (layers nn) l id ;;
  output <- load_dbl (layers nn) (n + off_output) ;;
  Some (poke nn (n + off_output) (activation nn ltype output)).

Definition calcNodeOutput (nn : Network) (ltype : LayerType) (id : Z)
  : option Network :=
  let calcLayer := getLayer nn ltype in
  calcNode <- getNode (layers nn) calcLayer id ;;
  let '(prevLayer, prevLayerNodeSize) := prevLayerOf nn ltype in
  let sbptr := prevLayer + off_nodes in
  bias <- load_dbl (layers nn) (calcNode + off_bias) ;;
  let nn0 := poke nn (calcNode + off_output) bias in
  ncount <- load_int (layers nn0) (prevLayer + off_ncount) ;;
  '(_, nn1) <- for_lt ncount
      (fun i '(sbptr, nn) =>
         let prevLayerNode := sbptr in
         acc <- load_dbl (layers nn) (calcNode + off_output) ;;
         x <- load_dbl (layers nn) (prevLayerNode + off_output) ;;
         w <- load_dbl (layers nn) (weight_at calcNode i) ;;
         Some (sbptr + prevLayerNodeSize,
               poke nn (calcNode + off_output) (acc + x * w)%float))
      (sbptr, nn0) ;;
  Some nn1.

Definition calcLayer (nn : Network) (ltype : LayerType) : option Network :=
  let l := getLayer nn ltype in
  ncount <- load_int (layers nn) (l + off_ncount) ;;
  for_lt ncount
    (fun i nn =>
       nn' <- calcNodeOutput nn ltype i ;;
       activateNode nn' ltype i)
    nn.

Definition feedForwardNetwork (nn : Network) : option Network :=
  nn1 <- calcLayer nn HIDDEN ;;
  calcLayer nn1 OUTPUT.

End Libm.

(** [feedInput]: [iln] walks the input nodes by [sizeof(Node)]. *)
Definition feedInput (nn : Network) (v : Vector) : option Network :=
  let il := 0 in
  let iln := il + off_nodes in
  '(_, nn1) <- for_lt (size v)
      (fun i '(iln, nn) =>
         x <- nth_error (vals v) (Z.to_nat i) ;;
         Some (iln + sizeof_Node, poke nn (iln + off_output) x))
      (iln, nn) ;;
  Some nn1.

(** ** Construction *)

Definition createInputLayer (inpCount : Z) : mem :=
  let inpNodeSize := sizeof_Node in
  let il := store malloc off_ncount (CInt inpCount) in
  let iln :=
    store (store (store malloc off_bias (CDbl 0)) off_output (CDbl 0))
          off_wcount (CInt 0) in
  let sbptr := off_nodes in
  snd (repeat_lt inpCount
         (fun i '(sbptr, il) =>
            (sbptr + inpNodeSize, memcpy il sbptr iln 0 inpNodeSize))
         (sbptr, il)).

Definition createLayer (nodeCount weightCount : Z) : mem :=
  let nodeSize := sizeof_Node + weightCount * sizeof_double in
  let l := store malloc off_ncount (CInt nodeCount) in
  let dn :=
    store (store (store malloc off_bias (CDbl 0)) off_output (CDbl 0))
          off_wcount (CInt weightCount) in
  let dn :=
    repeat_lt weightCount (fun o dn => store dn (weight_at 0 o) (CDbl 0)) dn in
  let sbptr := off_nodes in
  repeat_lt nodeCount
    (fun i l => memcpy l (sbptr + i * nodeSize) dn 0 nodeSize) l.

Definition initNetwork (nn : Network) (inpCount hidCount outCount : Z)
  : Network :=
  let il := createInputLayer inpCount in
  let m := memcpy (layers nn) 0 il 0 (inpLayerSize nn) in
  let sbptr := 0 + inpLayerSize nn in
  let hl := createLayer hidCount inpCount in
  let m := memcpy m sbptr hl 0 (hidLayerSize nn) in
  let sbptr := sbptr + hidLayerSize nn in
  let ol := createLayer outCount hidCount in
  let m := memcpy m sbptr ol 0 (outLayerSize nn) in
  set_layers nn m.

Definition setNetworkDefaults (nn : Network) : Network :=
  let lr := 0.004%float in
  let lr := 0.2%float in
  mkNetwork (inpNodeSize nn) (inpLayerSize nn) (hidNodeSize nn)
            (hidLayerSize nn) (outNodeSize nn) (outLayerSize nn)
            lr SIGMOID SIGMOID (layers nn).

(** [(double) z] for an [int] [z]. *)
Definition double_of_int (z : Z) : float :=
  if z <? 0
  then (- of_uint63 (Uint63.of_Z (- z)))%float
  else of_uint63 (Uint63.of_Z z).

Section Rand.

(** [RAND_MAX], and the value of the [k]-th call of [rand()]. *)
Variable RAND_MAX : Z.
Variable rand : nat -> Z.

(** [rand() / (double) RAND_MAX] at call [k]. *)
Definition unit_draw (k : nat) : float :=
  (double_of_int (rand k) / double_of_int RAND_MAX)%float.

(** The state of [initWeights] is the number of calls of [rand()] so far and
    the network. *)
Definition initWeights (st : nat * Network) (ltype : LayerType)
  : option (nat * Network) :=
  let '(k, nn) := st in
  let nodeSize :=
    if LayerType_eqb ltype HIDDEN then hidNodeSize nn else outNodeSize nn in
  let l := getLayer nn ltype in
  let sbptr := l + off_nodes in
  ncount <- load_int (layers nn) (l + off_ncount) ;;
  '(_, k1, nn1) <- for_lt ncount
      (fun o '(sbptr, k, nn) =>
         let n := sbptr in
         wcount <- load_int (layers nn) (n + off_wcount) ;;
         '(k1, nn1) <- for_lt wcount
             (fun i '(k, nn) =>
                let w := (0.7 * unit_draw k)%float in
                let w := if Z.rem i 2 =? 0 then w else (- w)%float in
                Some (Datatypes.S k, poke nn (weight_at n i) w))
             (k, nn) ;;
         let b := unit_draw k1 in
         let b := if Z.rem o 2 =? 0 then b else (- b)%float in
         Some (sbptr + nodeSize, Datatypes.S k1, poke nn1 (n + off_bias) b))
      (sbptr, k, nn) ;;
  Some (k1, nn1).

(** The six sizes are [int] variables, and the products of a count and a
    node size are products of two [int]s. *)
Definition createNetwork (inpCount hidCount outCount : Z) : option Network :=
  let inpNodeSize := sizeof_Node in
  inpNodes <- to_int (inpCount * inpNodeSize) ;;
  inpLayerSize <- to_int (sizeof_Layer + inpNodes) ;;
  let hidWeightsCount := inpCount in
  hidNodeSize <- to_int (sizeof_Node + hidWeightsCount * sizeof_double) ;;
  hidNodes <- to_int (hidCount * hidNodeSize) ;;
  hidLayerSize <- to_int (sizeof_Layer + hidNodes) ;;
  let outWeightsCount := hidCount in
  outNodeSize <- to_int (sizeof_Node + outWeightsCount * sizeof_double) ;;
  outNodes <- to_int (outCount * outNodeSize) ;;
  outLayerSize <- to_int (sizeof_Layer + outNodes) ;;
  (* the header fields not yet assigned are indeterminate; none is read
     before [setNetworkDefaults] assigns it *)
  let nn := mkNetwork inpNodeSize inpLayerSize hidNodeSize hidLayerSize
                      outNodeSize outLayerSize 0%float SIGMOID SIGMOID malloc in
  let nn := initNetwork nn inpCount hidCount outCount in
  let nn := setNetworkDefaults nn in
  st <- initWeights (O, nn) HIDDEN ;;
  '(_, nn) <- initWeights st OUTPUT ;;
  Some nn.

End Rand.

(** ** Classification *)

Definition getNetworkClassification (nn : Network) : option Z :=
  let l := getLayer nn OUTPUT in
  ncount <- load_int (layers nn) (l + off_ncount) ;;
  '(_, maxInd) <- for_lt ncount
      (fun i '(maxOut, maxInd) =>
         on <- getNode (layers nn) l i ;;
         output <- load_dbl (layers nn) (on + off_output) ;;
         if (maxOut <? output)%float
         then Some (output, i)
         else Some (maxOut, maxInd))
      (0%float, 0) ;;
  Some maxInd.

(** * Well-formed arenas *)

(** ** The shape [createNetwork] gives the arena *)

Definition is_dbl (c : cell) : bool :=
  match c with
  | CDbl _ => true
  | _ => false
  end.

Definition ncountOf (ni nh no : Z) (L : LayerType) : Z :=
  match L with
  | INPUT => ni
  | HIDDEN => nh
  | OUTPUT => no
  end.

Definition wcountOf (ni nh no : Z) (L : LayerType) : Z :=
  match L with
  | INPUT => 0
  | HIDDEN => ni
  | OUTPUT => nh
  end.

(** The stored node size of a layer. *)
Definition nodeSizeOf (nn : Network) (L : LayerType) : Z :=
  match L with
  | INPUT => inpNodeSize nn
  | HIDDEN => hidNodeSize nn
  | OUTPUT => outNodeSize nn
  end.

Definition prevOf (L : LayerType) : LayerType :=
  match L with
  | HIDDEN => INPUT
  | _ => HIDDEN
  end.

(** The address of node [i] of layer [L], by the stored stride. *)
Definition node_at (nn : Network) (L : LayerType) (i : Z) : Z :=
  getLayer nn L + off_nodes + i * nodeSizeOf nn L.

Definition node_ok (m : mem) (n wc : Z) : Prop :=
  is_dbl (m (n + off_bias)) = true /\
  is_dbl (m (n + off_output)) = true /\
  m (n + off_wcount) = CInt wc /\
  forall k, 0 <= k < wc -> is_dbl (m (weight_at n k)) = true.

Definition layer_ok (m : mem) (l n sz wc : Z) : Prop :=
  m (l + off_ncount) = CInt n /\
  forall i, 0 <= i < n -> node_ok m (l + off_nodes + i * sz) wc.

(** [wf nn ni nh no]: the arena of [nn] holds an input layer of [ni] nodes, a
    hidden layer of [nh] nodes and an output layer of [no] nodes, laid out as
    [createNetwork] computes the sizes, which are [int]s. *)
Record wf (nn : Network) (ni nh no : Z) : Prop := mk_wf {
  wf_ni : 0 < ni;
  wf_nh : 0 < nh;
  wf_no : 0 < no;
  wf_ins : inpNodeSize nn = sizeof_Node;
  wf_ils : inpLayerSize nn = sizeof_Layer + ni * inpNodeSize nn;
  wf_hns : hidNodeSize nn = sizeof_Node + ni * sizeof_double;
  wf_hls : hidLayerSize nn = sizeof_Layer + nh * hidNodeSize nn;
  wf_ons : outNodeSize nn = sizeof_Node + nh * sizeof_double;
  wf_ols : outLayerSize nn = sizeof_Layer + no * outNodeSize nn;
  wf_layer : forall L,
      layer_ok (layers nn) (getLayer nn L) (ncountOf ni nh no L)
               (nodeSizeOf nn L) (wcountOf ni nh no L);
  wf_int : inpLayerSize nn <= INT_MAX /\ hidLayerSize nn <= INT_MAX /\
           outLayerSize nn <= INT_MAX
}.

(** ** The same predicate as a test *)

Definition Zrange (n : Z) : list Z := map Z.of_nat (seq 0 (Z.to_nat n)).

Definition cell_eqb_int (c : cell) (z : Z) : bool :=
  match c with
  | CInt z' => z' =? z
  | _ => false
  end.

Definition node_okb (m : mem) (n wc : Z) : bool :=
  is_dbl (m (n + off_bias)) && is_dbl (m (n + off_output)) &&
  cell_eqb_int (m (n + off_wcount)) wc &&
  forallb (fun k => is_dbl (m (weight_at n k))) (Zrange wc).

Definition layer_okb (m : mem) (l n sz wc : Z) : bool :=
  cell_eqb_int (m (l + off_ncount)) n &&
  forallb (fun i => node_okb m (l + off_nodes + i * sz) wc) (Zrange n).

Definition wfb (nn : Network) (ni nh no : Z) : bool :=
  (0 <? ni) && (0 <? nh) && (0 <? no) &&
  (inpNodeSize nn =? sizeof_Node) &&
  (inpLayerSize nn =? sizeof_Layer + ni * inpNodeSize nn) &&
  (hidNodeSize nn =? sizeof_Node + ni * sizeof_double) &&
  (hidLayerSize nn =? sizeof_Layer + nh * hidNodeSize nn) &&
  (outNodeSize nn =? sizeof_Node + nh * sizeof_double) &&
  (outLayerSize nn =? sizeof_Layer + no * outNodeSize nn) &&
  forallb (fun L => layer_okb (layers nn) (getLayer nn L) (ncountOf ni nh no L)
                              (nodeSizeOf nn L) (wcountOf ni nh no L))
          [INPUT; HIDDEN; OUTPUT] &&
  (inpLayerSize nn <=? INT_MAX) && (hidLayerSize nn <=? INT_MAX) &&
  (outLayerSize nn <=? INT_MAX).

(** ** Node fields *)

Inductive field : Type :=
| FBias
| FOutput
| FWeight (k : Z).

Definition field_at (n : Z) (f : field) : Z :=
  match f with
  | FBias => n + off_bias
  | FOutput => n + off_output
  | FWeight k => weight_at n k
  end.

(** The address of field [f] of node [i] of layer [L]. *)
Definition slot (nn : Network) (L : LayerType) (i : Z) (f : field) : Z :=
  field_at (node_at nn L i) f.

Definition valid_slot (ni nh no : Z) (L : LayerType) (i : Z) (f : field)
  : Prop :=
  0 <= i < ncountOf ni nh no L /\
  match f with
  | FWeight k => 0 <= k < wcountOf ni nh no L
  | _ => True
  end.

(** Reading a double field; [rdd] is its value where it is readable. *)
Definition rd (nn : Network) (a : Z) : option float := load_dbl (layers nn) a.

Definition rdd (nn : Network) (a : Z) : float :=
  match rd nn a with
  | Some d => d
  | None => 0%float
  end.

(** ** What an operation may change *)

Definition cell_shape (c c' : cell) : Prop :=
  match c, c' with
  | CUndef, CUndef => True
  | CInt z, CInt z' => z = z'
  | CDbl _, CDbl _ => True
  | _, _ => False
  end.

Definition same_header (nn nn' : Network) : Prop :=
  inpNodeSize nn' = inpNodeSize nn /\
  inpLayerSize nn' = inpLayerSize nn /\
  hidNodeSize nn' = hidNodeSize nn /\
  hidLayerSize nn' = hidLayerSize nn /\
  outNodeSize nn' = outNodeSize nn /\
  outLayerSize nn' = outLayerSize nn /\
  learningRate nn' = learningRate nn /\
  hidLayerActType nn' = hidLayerActType nn /\
  outLayerActType nn' = outLayerActType nn.

(** [same_shape nn nn']: the header is the same, every [int] of the arena is
    the same, and doubles are where doubles were. *)
Definition same_shape (nn nn' : Network) : Prop :=
  same_header nn nn' /\
  forall a, cell_shape (layers nn a) (layers nn' a).

(** [frame nn nn' W]: [nn'] is [nn] but for the cells at the addresses [W]. *)
Definition frame (nn nn' : Network) (W : Z -> Prop) : Prop :=
  same_header nn nn' /\
  forall a, ~ W a -> layers nn' a = layers nn a.

(** * Vocabulary of the statements *)

(** ** Doubles by their specification *)

(** Results with sign bit [s] that are numbers. *)
Definition SFsigned (s : bool) (x : spec_float) : Prop :=
  match x with
  | S754_zero s' | S754_infinity s' | S754_finite s' _ _ => s' = s
  | S754_nan => False
  end.

(** A double in [[0, 1]]: zero, one, or a 53-digit number below one. *)
Definition unit_interval (u : float) : Prop :=
  Prim2SF u = S754_zero false \/
  u = 1%float \/
  exists m e, Prim2SF u = S754_finite false m e /\
              Z.pos (digits2_pos m) = 53 /\ -200 <= e < -52.

(** ** Regions of the arena, sums and runs

    The parameters are those of the statements below: the functions of
    [math.h] and the node counts of the three layers. *)

Section Vocabulary.

Variable c_tanh : float -> float.
Variable c_exp : float -> float.
Variable c_pow : float -> float -> float.

Variables (ni nh no : Z).

(** Where a layer ends. *)
Definition layer_end (nn : Network) (L : LayerType) : Z :=
  getLayer nn L + sizeof_Layer + ncountOf ni nh no L * nodeSizeOf nn L.

(** The cells [updateNodeWeights] writes for node [id] of layer [L]. *)
Definition node_params (nn : Network) (L : LayerType) (id : Z) (a : Z) : Prop :=
  a = slot nn L id FBias \/
  exists k, 0 <= k < wcountOf ni nh no L /\ a = slot nn L id (FWeight k).

(** The cells that are fields of nodes. *)
Definition node_field (nn : Network) (a : Z) : Prop :=
  exists L i f, valid_slot ni nh no L i f /\ a = slot nn L i f.

(** The weighted sum of node [id] of layer [L]: the bias, then one product
    per node of the previous layer, added in index order. *)
Definition weighted_sum (nn : Network) (L : LayerType) (id : Z) : float :=
  fold_left
    (fun acc i =>
       (acc + rdd nn (slot nn (prevOf L) i FOutput) *
              rdd nn (slot nn L id (FWeight i)))%float)
    (Zrange (ncountOf ni nh no (prevOf L)))
    (rdd nn (slot nn L id FBias)).

(** The output fields of the nodes of layer [L] below index [j]. *)
Definition outputs_below (nn : Network) (L : LayerType) (j : Z) (a : Z) : Prop :=
  exists i, 0 <= i < j /\ i < ncountOf ni nh no L /\ a = slot nn L i FOutput.

Definition layer_outputs (nn : Network) (L : LayerType) : Z -> Prop :=
  outputs_below nn L (ncountOf ni nh no L).

(** The error signal of output node [o] in state [nn]. *)
Definition errorSignalOf (nn : Network) (t o : Z) : float :=
  outputErrorSignal c_tanh c_pow nn t o (rdd nn (slot nn OUTPUT o FOutput)).

(** The sum over the output nodes [o], in index order, of the error signal of
    [o] times the weight of [o] for hidden node [h], all read in state [nn]. *)
Definition error_sum (nn : Network) (t h : Z) : float :=
  fold_left
    (fun acc o =>
       (acc + errorSignalOf nn t o * rdd nn (slot nn OUTPUT o (FWeight h)))%float)
    (Zrange no) 0%float.

(** The bias and weights of the nodes of layer [L] below index [j]. *)
Definition params_below (nn : Network) (L : LayerType) (j : Z) (a : Z) : Prop :=
  exists i, 0 <= i < j /\ i < ncountOf ni nh no L /\ node_params nn L i a.

Definition layer_params (nn : Network) (L : LayerType) : Z -> Prop :=
  params_below nn L (ncountOf ni nh no L).

(** The error signal [backPropagateHiddenLayer] computes for hidden node [h]
    in state [nn]. *)
Definition hiddenErrorSignalOf (nn : Network) (t h : Z) : float :=
  (error_sum nn t h *
   getActFctDerivative c_tanh c_pow nn HIDDEN (rdd nn (slot nn HIDDEN h FOutput)))%float.

(** One step of the scan of [getNetworkClassification]. *)
Definition scan_step (nn : Network) (acc : float * Z) (i : Z) : float * Z :=
  let output := rdd nn (slot nn OUTPUT i FOutput) in
  if (fst acc <? output)%float then (output, i) else acc.

(** [evolves nn nn']: the header and every cell that is not the bias, the
    output or a weight of a node are the same in [nn'] as in [nn]. *)
Definition evolves (nn nn' : Network) : Prop :=
  same_shape nn nn' /\ frame nn nn' (node_field nn).

(** The operations on a constructed network. *)
Inductive operation : Type :=
| OpFeedInput (v : Vector)
| OpFeedForward
| OpBackPropagate (targetClassification : Z)
| OpClassify.

Definition run_operation (op : operation) (nn : Network) : option Network :=
  match op with
  | OpFeedInput v => feedInput nn v
  | OpFeedForward => feedForwardNetwork c_tanh c_exp nn
  | OpBackPropagate t => backPropagateNetwork c_tanh c_pow nn t
  | OpClassify => _ <- getNetworkClassification nn ;; Some nn
  end.

Fixpoint run_operations (ops : list operation) (nn : Network) : option Network :=
  match ops with
  | [] => Some nn
  | op :: ops' => nn' <- run_operation op nn ;; run_operations ops' nn'
  end.

(** A vector that [feedInput] may be given: no longer than the input layer,
    and holding the [size] elements it announces. *)
Definition admissible (op : operation) : Prop :=
  match op with
  | OpFeedInput v => size v <= ni /\ size v <= Z.of_nat (length (vals v))
  | _ => True
  end.

End Vocabulary.

(** ** Construction *)

Definition zero_node (m : mem) (n wc : Z) : Prop :=
  m (n + off_bias) = CDbl 0 /\
  m (n + off_output) = CDbl 0 /\
  m (n + off_wcount) = CInt wc /\
  forall k, 0 <= k < wc -> m (weight_at n k) = CDbl 0.

(** A layer as [createInputLayer] and [createLayer] build it. *)
Definition zero_layer (m : mem) (l n sz wc : Z) : Prop :=
  m (l + off_ncount) = CInt n /\
  forall i, 0 <= i < n -> zero_node m (l + off_nodes + i * sz) wc.

(** The six sizes as [createNetwork] computes them. *)
Definition sizes_of (nn : Network) (ni nh no : Z) : Prop :=
  inpNodeSize nn = sizeof_Node /\
  inpLayerSize nn = sizeof_Layer + ni * inpNodeSize nn /\
  hidNodeSize nn = sizeof_Node + ni * sizeof_double /\
  hidLayerSize nn = sizeof_Layer + nh * hidNodeSize nn /\
  outNodeSize nn = sizeof_Node + nh * sizeof_double /\
  outLayerSize nn = sizeof_Layer + no * outNodeSize nn.

(** Node counts whose three layer sizes, as [createNetwork] computes them,
    are [int]s. *)
Definition sizes_fit (ni nh no : Z) : Prop :=
  sizeof_Layer + ni * sizeof_Node <= INT_MAX /\
  sizeof_Layer + nh * (sizeof_Node + ni * sizeof_double) <= INT_MAX /\
  sizeof_Layer + no * (sizeof_Node + nh * sizeof_double) <= INT_MAX.

(** The byte size of the node at [n]: [sizeof(Node)] and its [wcount]
    weights. *)
Definition nodeBytes (m : mem) (n : Z) : option Z :=
  wc <- load_int m (n + off_wcount) ;;
  Some (sizeof_Node + wc * sizeof_double).

Section Draws.

Variable RAND_MAX : Z.
Variable rand : nat -> Z.

(** A weight of connection index [i] as [initWeights] draws it. *)
Definition drawn_weight (i : Z) (w : float) : Prop :=
  exists k,
    w = if Z.rem i 2 =? 0
        then (0.7 * unit_draw RAND_MAX rand k)%float
        else (- (0.7 * unit_draw RAND_MAX rand k))%float.

(** The bias of node [o] as [initWeights] draws it. *)
Definition drawn_bias (o : Z) (b : float) : Prop :=
  exists k,
    b = if Z.rem o 2 =? 0
        then unit_draw RAND_MAX rand k
        else (- unit_draw RAND_MAX rand k)%float.

End Draws.

(** ** Networks of the examples *)

(** Stand-ins for [exp], [tanh] and [pow] of [math.h], good enough to run the
    examples: [exp x] as [(1 + x/1024)^1024], [tanh] from it, and [pow] for
    the exponent 2, the only one [3lnn.c] uses. *)
Definition exp_approx (x : float) : float :=
  let y := (1 + x / 1024)%float in
  let sq := fun z : float => (z * z)%float in
  sq (sq (sq (sq (sq (sq (sq (sq (sq (sq y))))))))).

Definition tanh_approx (x : float) : float :=
  let e := exp_approx (2 * x) in ((e - 1) / (e + 1))%float.

Definition pow_approx (x y : float) : float := (x * x)%float.

(** [RAND_MAX] of glibc, and a sequence of draws. *)
Definition glibc_RAND_MAX : Z := 2147483647.

Definition sample_rand (k : nat) : Z :=
  (Z.of_nat k * 1103515245 + 12345) mod 2147483648.

Definition no_network : Network :=
  mkNetwork 0 0 0 0 0 0 0%float SIGMOID SIGMOID malloc.

Definition the_network (o : option Network) : Network :=
  match o with
  | Some nn => nn
  | None => no_network
  end.

(** A network of 2 input, 3 hidden and 2 output nodes. *)
Definition sample_net : Network :=
  the_network (createNetwork glibc_RAND_MAX sample_rand 2 3 2).

Definition sample_vector : Vector := mkVector 2 [1%float; 0%float].

(** [set_field nn L i f v]: [nn] with field [f] of node [i] of layer [L] set
    to [v]. *)
Definition set_field (nn : Network) (L : LayerType) (i : Z) (f : field)
  (v : float) : Network :=
  poke nn (slot nn L i f) v.

(** A network of one node per layer after a forward pass: input 1, hidden
    output 0.5, output 0.5, the weight from the hidden to the output node
    0.5, learning rate 0.2 and logistic activations. *)
Definition one_net : Network :=
  let nn := the_network (createNetwork glibc_RAND_MAX sample_rand 1 1 1) in
  let nn := set_field nn INPUT 0 FOutput 1 in
  let nn := set_field nn HIDDEN 0 FOutput 0.5 in
  let nn := set_field nn HIDDEN 0 FBias 0.25 in
  let nn := set_field nn OUTPUT 0 FOutput 0.5 in
  set_field nn OUTPUT 0 (FWeight 0) 0.5.

(** The bias of hidden node [h] after a backward pass whose hidden error sum
    is taken over the weights the forward pass used, as the specification
    words it. *)
Definition bias_from_forward_weights (c_tanh : float -> float)
  (c_pow : float -> float -> float) (no : Z) (nn : Network) (t h : Z) : float :=
  (rdd nn (slot nn HIDDEN h FBias) +
   learningRate nn *
   (error_sum c_tanh c_pow no nn t h *
    getActFctDerivative c_tanh c_pow nn HIDDEN (rdd nn (slot nn HIDDEN h FOutput))))%float.

(** A network whose two output nodes hold [-0.5] and [-0.25]. *)
Definition negative_outputs_net : Network :=
  let nn := the_network (createNetwork glibc_RAND_MAX sample_rand 1 1 2) in
  let nn := set_field nn OUTPUT 0 FOutput (-0.5) in
  set_field nn OUTPUT 1 FOutput (-0.25).

(** ** Vocabulary of the further properties *)

(** The output of output node [o], as [getNetworkClassification] reads it. *)
Definition outputOf (nn : Network) (o : Z) : float :=
  rdd nn (slot nn OUTPUT o FOutput).

Section DrawOrder.

Variable RAND_MAX : Z.
Variable rand : nat -> Z.

(** The weight of connection index [i], and the bias of node [o], that
    [initWeights] makes of call number [k] of [rand()]. *)
Definition weight_of_draw (k : nat) (i : Z) : float :=
  if Z.rem i 2 =? 0
  then (0.7 * unit_draw RAND_MAX rand k)%float
  else (- (0.7 * unit_draw RAND_MAX rand k))%float.

Definition bias_of_draw (k : nat) (o : Z) : float :=
  if Z.rem o 2 =? 0
  then unit_draw RAND_MAX rand k
  else (- unit_draw RAND_MAX rand k)%float.

(** The number of the call of [rand()] that fills position [i] of node [o] in
    a layer whose nodes have [wc] weights, [k0] calls having been made before
    the layer: positions [0 .. wc - 1] are the weights, position [wc] is the
    bias. *)
Definition draw_of (k0 : nat) (wc o i : Z) : nat :=
  (k0 + Z.to_nat (o * (wc + 1) + i))%nat.

End DrawOrder.

(** The number of calls of [rand()] that [createNetwork] has made when it
    comes to layer [L]: none before the hidden layer, one per weight and
    bias of the hidden layer before the output layer. *)
Definition draws_before (ni nh : Z) (L : LayerType) : nat :=
  match L with
  | OUTPUT => Z.to_nat (nh * (ni + 1))
  | _ => O
  end.

Section Inference.

Variables (ni nh no : Z).

(** The cells that are output fields of nodes. *)
Definition node_output (nn : Network) (a : Z) : Prop :=
  exists L i, 0 <= i < ncountOf ni nh no L /\ a = slot nn L i FOutput.

(** [infers nn nn']: [nn'] is [nn] but for outputs of nodes. *)
Definition infers (nn nn' : Network) : Prop :=
  same_shape nn nn' /\ frame nn nn' (node_output nn).

End Inference.

(** * The program around the network: [main.c] and [util/mnist-stats.c] *)

(** ** The terminal

    What the program writes is kept as the list of its calls: a [printf]
    with its format and arguments, and the two functions of [util/screen.h]
    that [main.c] and [mnist-stats.c] call. *)

Definition LF : string := String "010" EmptyString.

Inductive printf_arg : Type :=
| AInt (z : Z)
| ADbl (d : float)
| AStr (s : string).

Inductive event : Type :=
| Printf (format : string) (args : list printf_arg)
| LocateCursor (row col : Z)
| ClearScreen.

(** [if (col != 0 && row != 0) locateCursor(r, c);] *)
Definition locateCursor_unless_origin (col row r c : Z) : list event :=
  if negb (col =? 0) && negb (row =? 0) then [LocateCursor r c] else [].

(** [(int) x] for a double [x]: the integer part, where it is an [int]. *)
Definition int_of_double (x : float) : option Z :=
  match Prim2SF x with
  | S754_zero _ => Some 0
  | S754_finite s m e =>
      let a := if 0 <=? e then Z.pos m * 2 ^ e else Z.pos m / 2 ^ (- e) in
      let z := if s then - a else a in
      if (INT_MIN <=? z) && (z <=? INT_MAX) then Some z else None
  | _ => None
  end.

(** [strcpy(dst, src)] and [strcat(dst, src)] on an array [dst] of [cap]
    chars: the text and its terminating zero have to fit. *)
Definition strcpy (cap : Z) (src : string) : option string :=
  if Z.of_nat (String.length src) + 1 <=? cap then Some src else None.

Definition strcat (cap : Z) (dst src : string) : option string :=
  let r := (dst ++ src)%string in
  if Z.of_nat (String.length r) + 1 <=? cap then Some r else None.

Section Mnist.

Variable c_tanh : float -> float.
Variable c_exp : float -> float.
Variable c_pow : float -> float -> float.
Variable RAND_MAX : Z.
Variable rand : nat -> Z.

(** [util/mnist-utils.h] is not among the sources.  Its constants, the image
    type with the pixel array [main.c] reads, the files and the two readers
    are parameters; [pixel img i] is [img->pixel[i]]. *)
Variables MNIST_IMG_WIDTH MNIST_IMG_HEIGHT : Z.
Variables MNIST_MAX_TRAINING_IMAGES MNIST_MAX_TESTING_IMAGES : Z.
Variables MNIST_TRAINING_SET_IMAGE_FILE_NAME MNIST_TRAINING_SET_LABEL_FILE_NAME : string.
Variables MNIST_TESTING_SET_IMAGE_FILE_NAME MNIST_TESTING_SET_LABEL_FILE_NAME : string.
Variable MNIST_Image : Type.
Variable pixel : MNIST_Image -> Z -> Z.
Variable FILE : Type.
Variables openMNISTImageFile openMNISTLabelFile : string -> FILE.
Variable getImage : FILE -> MNIST_Image * FILE.
Variable getLabel : FILE -> Z * FILE.

(** [time(NULL)] at its [k]-th call, and [difftime]. *)
Variable time : nat -> Z.
Variable difftime : Z -> Z -> float.

(** ** [main.c] *)

(** [v->vals[i]] is written for [i = 0, 1, ...] in turn: each write extends
    the values written so far by one. *)
Definition getVectorFromImage (img : MNIST_Image) : Vector :=
  let size := MNIST_IMG_WIDTH * MNIST_IMG_HEIGHT in
  mkVector size
    (repeat_lt size
       (fun i vals => vals ++ [if pixel img i =? 0 then 0%float else 1%float])
       []).

(** ** [util/mnist-stats.c] *)

Definition displayImage (img : MNIST_Image) (lbl cls row col : Z)
  : option (list event) :=
  let cap := MNIST_IMG_HEIGHT * MNIST_IMG_WIDTH + (col + 1) * MNIST_IMG_HEIGHT + 1 in
  imgStr <- strcpy cap EmptyString ;;
  imgStr <- for_lt MNIST_IMG_HEIGHT
      (fun y imgStr =>
         imgStr <- for_lt (col - 2) (fun o imgStr => strcat cap imgStr " ") imgStr ;;
         imgStr <- for_lt MNIST_IMG_WIDTH
             (fun x imgStr =>
                strcat cap imgStr
                  (if pixel img (y * MNIST_IMG_HEIGHT + x) =? 0 then "." else "X"))
             imgStr ;;
         strcat cap imgStr LF)
      imgStr ;;
  Some (locateCursor_unless_origin col row row 0 ++
        [Printf "%s" [AStr imgStr];
         Printf ("     Label:%d   Classification:%d" ++ LF ++ LF)
                [AInt lbl; AInt cls]]).

(** The two progress lines differ in their first format and in the number
    of images they count to. *)
Definition displayProgress (format : string) (maxImages : Z)
  (imgCount errCount y x : Z) : option (list event) :=
  let progress :=
    (double_of_int (imgCount + 1) / double_of_int maxImages * 100)%float in
  percent <- int_of_double progress ;;
  let accuracy :=
    (1 - double_of_int errCount / double_of_int (imgCount + 1))%float in
  Some (locateCursor_unless_origin x y y x ++
        [Printf format [AInt (imgCount + 1); AInt maxImages; AInt percent];
         Printf ("Result: Correct=%5d  Incorrect=%5d  Accuracy=%5.4f%% " ++ LF)
                [AInt (imgCount + 1 - errCount); AInt errCount;
                 ADbl (accuracy * 100)%float]]).

Definition displayTrainingProgress : Z -> Z -> Z -> Z -> option (list event) :=
  displayProgress
    "1: TRAINING: Reading image No. %5d of %5d images [%3d%%]  "
    MNIST_MAX_TRAINING_IMAGES.

Definition displayTestingProgress : Z -> Z -> Z -> Z -> option (list event) :=
  displayProgress
    "2: TESTING:  Reading image No. %5d of %5d images [%3d%%]  "
    MNIST_MAX_TESTING_IMAGES.

(** ** The two loops over the images, and [main] *)

(** One round of the loop of [trainNetwork], on the files, the network, the
    error count and the terminal output so far. *)
Definition trainNetwork_round (imgCount : Z)
  (st : FILE * FILE * Network * Z * list event)
  : option (FILE * FILE * Network * Z * list event) :=
  let '(imageFile, labelFile, nn, errCount, out) := st in
  let '(img, imageFile) := getImage imageFile in
  let '(lbl, labelFile) := getLabel labelFile in
  let inpVector := getVectorFromImage img in
  nn <- feedInput nn inpVector ;;
  nn <- feedForwardNetwork c_tanh c_exp nn ;;
  nn <- backPropagateNetwork c_tanh c_pow nn lbl ;;
  classification <- getNetworkClassification nn ;;
  let errCount := if classification =? lbl then errCount else errCount + 1 in
  o1 <- displayTrainingProgress imgCount errCount 3 5 ;;
  o2 <- displayImage img lbl classification 7 6 ;;
  Some (imageFile, labelFile, nn, errCount, out ++ o1 ++ o2).

(** [trainNetwork]: the network as the loop leaves it, and what was
    written. *)
Definition trainNetwork (nn : Network) : option (Network * list event) :=
  let imageFile := openMNISTImageFile MNIST_TRAINING_SET_IMAGE_FILE_NAME in
  let labelFile := openMNISTLabelFile MNIST_TRAINING_SET_LABEL_FILE_NAME in
  let errCount := 0 in
  '(_, _, nn, _, out) <- for_lt MNIST_MAX_TRAINING_IMAGES trainNetwork_round
                           (imageFile, labelFile, nn, errCount, []) ;;
  Some (nn, out).

Definition testNetwork_round (imgCount : Z)
  (st : FILE * FILE * Network * Z * list event)
  : option (FILE * FILE * Network * Z * list event) :=
  let '(imageFile, labelFile, nn, errCount, out) := st in
  let '(img, imageFile) := getImage imageFile in
  let '(lbl, labelFile) := getLabel labelFile in
  let inpVector := getVectorFromImage img in
  nn <- feedInput nn inpVector ;;
  nn <- feedForwardNetwork c_tanh c_exp nn ;;
  classification <- getNetworkClassification nn ;;
  let errCount := if classification =? lbl then errCount else errCount + 1 in
  o1 <- displayTestingProgress imgCount errCount 5 5 ;;
  o2 <- displayImage img lbl classification 7 6 ;;
  Some (imageFile, labelFile, nn, errCount, out ++ o1 ++ o2).

Definition testNetwork (nn : Network) : option (Network * list event) :=
  let imageFile := openMNISTImageFile MNIST_TESTING_SET_IMAGE_FILE_NAME in
  let labelFile := openMNISTLabelFile MNIST_TESTING_SET_LABEL_FILE_NAME in
  let errCount := 0 in
  '(_, _, nn, _, out) <- for_lt MNIST_MAX_TESTING_IMAGES testNetwork_round
                           (imageFile, labelFile, nn, errCount, []) ;;
  Some (nn, out).

(** [main]: its return value and what it wrote. *)
Definition main : option (Z * list event) :=
  let startTime := time 0%nat in
  let out :=
    [ClearScreen;
     Printf ("    MNIST-3LNN: a simple 3-layer neural network processing the MNIST handwritten digit images"
             ++ LF ++ LF) []] in
  nn <- createNetwork RAND_MAX rand (MNIST_IMG_HEIGHT * MNIST_IMG_WIDTH) 20 10 ;;
  '(nn, o1) <- trainNetwork nn ;;
  '(nn, o2) <- testNetwork nn ;;
  let endTime := time 1%nat in
  let executionTime := difftime endTime startTime in
  Some (0,
        out ++ o1 ++ o2 ++
        [LocateCursor 36 5;
         Printf (LF ++ "    DONE! Total execution time: %.1f sec" ++ LF ++ LF)
                [ADbl executionTime]]).

End Mnist.

(** ** [displayNetworkWeightsForDebugging] of [3lnn.c] *)

(** [if (x < topLast || x >= size - topLast) printf(format, ...)] *)
Definition printf_top_last (topLast size x : Z) (e : event) (out : list event)
  : list event :=
  if (x <? topLast) || (size - topLast <=? x) then out ++ [e] else out.

Definition displayNetworkWeightsForDebugging (nn : Network)
  : option (list event) :=
  let topLast := 6 in
  iter_from
    (fun l out =>
       let layer := getLayer nn OUTPUT in
       let out := out ++ [Printf ("Layer %d   Weights" ++ LF ++ LF) [AInt l]] in
       ncount <- load_int (layers nn) (layer + off_ncount) ;;
       if 0 <? ncount then
         let out :=
           out ++ [Printf ("Layer %d   NodeId  |  ConnectionId:WeightAddress "
                           ++ LF ++ LF) [AInt l]] in
         let kSize := 5 * 5 in
         let out := out ++ [Printf "Node | " []] in
         let out :=
           repeat_lt kSize
             (fun x out =>
                printf_top_last topLast kSize x (Printf " conn:address  " []) out)
             out in
         let out := out ++ [Printf (LF ++ "-------") []] in
         let out :=
           repeat_lt kSize
             (fun x out =>
                printf_top_last topLast kSize x (Printf "---------------" []) out)
             out in
         let out := out ++ [Printf LF []] in
         out <- for_lt 10
             (fun n out =>
                let out := out ++ [Printf "%4d | " [AInt n]] in
                node <- getNode (layers nn) layer n ;;
                connCount <- load_int (layers nn) (node + off_wcount) ;;
                out <- for_lt connCount
                    (fun c out =>
                       w <- load_dbl (layers nn) (weight_at node c) ;;
                       Some (printf_top_last topLast connCount c
                               (Printf "%5d:%9f" [AInt c; ADbl w]) out))
                    out ;;
                Some (out ++ [Printf LF []]))
             out ;;
         Some (out ++ [Printf (LF ++ LF) []])
       else Some out)
    1 (Z.to_nat (2 - 1)) [].

(** The connections of a node with [connCount] weights that
    [displayNetworkWeightsForDebugging] shows, and the line of output node
    [n]. *)
Definition shown_connections (connCount : Z) : list Z :=
  filter (fun c => (c <? 6) || (connCount - 6 <=? c)) (Zrange connCount).

Definition weights_line (nh : Z) (nn : Network) (n : Z) : list event :=
  [Printf "%4d | " [AInt n]] ++
  map (fun c => Printf "%5d:%9f"
                  [AInt c; ADbl (rdd nn (slot nn OUTPUT n (FWeight c)))])
      (shown_connections nh) ++
  [Printf LF []].

(** The lines before the first node: the two titles and the head of the
    table, with six columns for the first and six for the last
    connections. *)
Definition weights_head : list event :=
  [Printf ("Layer %d   Weights" ++ LF ++ LF) [AInt 1];
   Printf ("Layer %d   NodeId  |  ConnectionId:WeightAddress " ++ LF ++ LF)
          [AInt 1];
   Printf "Node | " []] ++
  repeat (Printf " conn:address  " []) 12 ++
  [Printf (LF ++ "-------") []] ++
  repeat (Printf "---------------" []) 12 ++
  [Printf LF []].

(** ** The text of an image *)

(** The strings of a list, one after the other. *)
Definition join (l : list string) : string :=
  fold_right String.append EmptyString l.

Section ImageText.

Variables MNIST_IMG_WIDTH MNIST_IMG_HEIGHT : Z.
Variable MNIST_Image : Type.
Variable pixel : MNIST_Image -> Z -> Z.

(** Line [y] of the text of an image shown at column [col]: [col - 2]
    blanks, one character per column of the image, and the end of the line.
    The pixel of line [y] and column [x] is taken at [y * MNIST_IMG_HEIGHT +
    x]. *)
Definition image_line (img : MNIST_Image) (col y : Z) : string :=
  (join (map (fun _ => " "%string) (Zrange (col - 2))) ++
   join (map (fun x => if (pixel img (y * MNIST_IMG_HEIGHT + x) =? 0)%Z
                       then "."%string else "X"%string)
             (Zrange MNIST_IMG_WIDTH)) ++
   LF)%string.

Definition image_text (img : MNIST_Image) (col : Z) : string :=
  join (map (image_line img col) (Zrange MNIST_IMG_HEIGHT)).

End ImageText.

(** ** The program of the examples

    Images of two pixels in one line, read from files that are counters:
    image [k] has pixels [k mod 2] and [(k + 1) mod 2], and its label is
    [k mod 2]. *)

Definition sample_image (k : nat) : Z -> Z :=
  fun i => (Z.of_nat k + i) mod 2.

Definition sample_pixel (img : Z -> Z) (i : Z) : Z := img i.

Definition sample_getImage (k : nat) : (Z -> Z) * nat := (sample_image k, S k).

Definition sample_getLabel (k : nat) : Z * nat := (Z.of_nat k mod 2, S k).

Definition sample_open (name : string) : nat := O.

Definition sample_time (k : nat) : Z := 1000 + 7 * Z.of_nat k.

Definition sample_difftime (t1 t0 : Z) : float := double_of_int (t1 - t0).

(** A network of 1 input, 1 hidden and 10 output nodes. *)
Definition ten_net : Network :=
  the_network (createNetwork glibc_RAND_MAX sample_rand 1 1 10).

(** * Basic facts *)

Lemma to_int_fits (z : Z) : INT_MIN <= z <= INT_MAX -> to_int z = Some z.
Proof.
  intros H. unfold to_int.
  destruct (Z.leb_spec INT_MIN z); [| lia].
  destruct (Z.leb_spec z INT_MAX); [reflexivity | lia].
Qed.

Lemma to_int_overflow (z : Z) : ~ INT_MIN <= z <= INT_MAX -> to_int z = None.
Proof.
  intros H. unfold to_int.
  destruct (Z.leb_spec INT_MIN z); [| reflexivity].
  destruct (Z.leb_spec z INT_MAX); [lia | reflexivity].
Qed.

Lemma to_int_some (z r : Z) : to_int z = Some r -> r = z /\ INT_MIN <= z <= INT_MAX.
Proof.
  unfold to_int.
  destruct (Z.leb_spec INT_MIN z); [| discriminate].
  destruct (Z.leb_spec z INT_MAX); [| discriminate].
  intros [= <-]. lia.
Qed.

Lemma store_same (m : mem) (a : Z) (c : cell) : store m a c a = c.
Proof. unfold store. now rewrite Z.eqb_refl. Qed.

Lemma store_other (m : mem) (a a' : Z) (c : cell) :
  a' <> a -> store m a c a' = m a'.
Proof.
  intros H. unfold store. destruct (Z.eqb_spec a' a); [contradiction | easy].
Qed.

Lemma layers_poke_same (nn : Network) (a : Z) (d : float) :
  layers (poke nn a d) a = CDbl d.
Proof. apply store_same. Qed.

Lemma layers_poke_other (nn : Network) (a a' : Z) (d : float) :
  a' <> a -> layers (poke nn a d) a' = layers nn a'.
Proof. apply store_other. Qed.

Lemma rd_poke_same (nn : Network) (a : Z) (d : float) :
  rd (poke nn a d) a = Some d.
Proof. unfold rd, load_dbl. now rewrite layers_poke_same. Qed.

Lemma rd_poke_other (nn : Network) (a a' : Z) (d : float) :
  a' <> a -> rd (poke nn a d) a' = rd nn a'.
Proof. intros H. unfold rd, load_dbl. now rewrite layers_poke_other. Qed.

Lemma rd_is_dbl (nn : Network) (a : Z) :
  is_dbl (layers nn a) = true -> exists d, rd nn a = Some d.
Proof.
  unfold rd, load_dbl. destruct (layers nn a); simpl; try discriminate.
  intros _. now exists d.
Qed.

Lemma rd_rdd (nn : Network) (a : Z) (d : float) : rd nn a = Some d -> rdd nn a = d.
Proof. unfold rdd. now intros ->. Qed.

Lemma rdd_is_dbl (nn : Network) (a : Z) :
  is_dbl (layers nn a) = true -> rd nn a = Some (rdd nn a).
Proof.
  intros H. destruct (rd_is_dbl nn a H) as [d Hd].
  now rewrite (rd_rdd _ _ _ Hd).
Qed.

(** ** Headers, shapes and frames *)

Lemma same_header_refl (nn : Network) : same_header nn nn.
Proof. unfold same_header. tauto. Qed.

Lemma same_header_trans (a b c : Network) :
  same_header a b -> same_header b c -> same_header a c.
Proof. unfold same_header. intuition congruence. Qed.

Lemma same_header_poke (nn : Network) (a : Z) (d : float) :
  same_header nn (poke nn a d).
Proof. unfold same_header. simpl. tauto. Qed.

Lemma same_header_getLayer (nn nn' : Network) (L : LayerType) :
  same_header nn nn' -> getLayer nn' L = getLayer nn L.
Proof.
  unfold same_header. intros H. destruct L; simpl; intuition congruence.
Qed.

Lemma same_header_nodeSizeOf (nn nn' : Network) (L : LayerType) :
  same_header nn nn' -> nodeSizeOf nn' L = nodeSizeOf nn L.
Proof.
  unfold same_header. intros H. destruct L; simpl; intuition congruence.
Qed.

Lemma same_header_node_at (nn nn' : Network) (L : LayerType) (i : Z) :
  same_header nn nn' -> node_at nn' L i = node_at nn L i.
Proof.
  intros H. unfold node_at.
  now rewrite (same_header_getLayer _ _ _ H), (same_header_nodeSizeOf _ _ _ H).
Qed.

Lemma same_header_slot (nn nn' : Network) (L : LayerType) (i : Z) (f : field) :
  same_header nn nn' -> slot nn' L i f = slot nn L i f.
Proof. intros H. unfold slot. now rewrite (same_header_node_at _ _ _ _ H). Qed.

Lemma same_header_actFctOf (nn nn' : Network) (L : LayerType) :
  same_header nn nn' -> actFctOf nn' L = actFctOf nn L.
Proof.
  unfold same_header, actFctOf. intros H.
  destruct (LayerType_eqb L HIDDEN); intuition congruence.
Qed.

Lemma cell_shape_refl (c : cell) : cell_shape c c.
Proof. destruct c; simpl; auto. Qed.

Lemma cell_shape_trans (a b c : cell) :
  cell_shape a b -> cell_shape b c -> cell_shape a c.
Proof. destruct a, b, c; simpl; auto; try tauto; congruence. Qed.

Lemma cell_shape_int (c c' : cell) (z : Z) :
  cell_shape c c' -> c = CInt z -> c' = CInt z.
Proof. intros H ->. destruct c'; simpl in H; try tauto. now subst. Qed.

Lemma cell_shape_dbl (c c' : cell) :
  cell_shape c c' -> is_dbl c = true -> is_dbl c' = true.
Proof. destruct c, c'; simpl; auto; tauto. Qed.

Lemma same_shape_refl (nn : Network) : same_shape nn nn.
Proof. split; [apply same_header_refl | intros a; apply cell_shape_refl]. Qed.

Lemma same_shape_trans (a b c : Network) :
  same_shape a b -> same_shape b c -> same_shape a c.
Proof.
  intros [H1 C1] [H2 C2]. split.
  - eapply same_header_trans; eauto.
  - intros x. eapply cell_shape_trans; eauto.
Qed.

Lemma same_shape_poke (nn : Network) (a : Z) (d : float) :
  is_dbl (layers nn a) = true -> same_shape nn (poke nn a d).
Proof.
  intros H. split; [apply same_header_poke |].
  intros x. destruct (Z.eq_dec x a) as [->|Hx].
  - rewrite layers_poke_same. destruct (layers nn a); simpl in *; auto; discriminate.
  - rewrite layers_poke_other by assumption. apply cell_shape_refl.
Qed.

Lemma same_shape_load_int (nn nn' : Network) (a z : Z) :
  same_shape nn nn' ->
  load_int (layers nn) a = Some z -> load_int (layers nn') a = Some z.
Proof.
  intros [_ C]. unfold load_int. specialize (C a).
  destruct (layers nn a) eqn:E; try discriminate.
  intros [= ->]. now rewrite (cell_shape_int _ _ _ C eq_refl).
Qed.

Lemma frame_refl (nn : Network) (W : Z -> Prop) : frame nn nn W.
Proof. split; [apply same_header_refl | auto]. Qed.

Lemma frame_weaken (nn nn' : Network) (W W' : Z -> Prop) :
  (forall a, W a -> W' a) -> frame nn nn' W -> frame nn nn' W'.
Proof. intros HW [Hh Hf]. split; auto. Qed.

Lemma frame_trans (a b c : Network) (W : Z -> Prop) :
  frame a b W -> frame b c W -> frame a c W.
Proof.
  intros [H1 F1] [H2 F2]. split.
  - eapply same_header_trans; eauto.
  - intros x Hx. now rewrite F2, F1.
Qed.

Lemma frame_poke (nn : Network) (a : Z) (d : float) (W : Z -> Prop) :
  W a -> frame nn (poke nn a d) W.
Proof.
  intros Ha. split; [apply same_header_poke |].
  intros x Hx. apply layers_poke_other. intros ->. contradiction.
Qed.

Lemma frame_rd (nn nn' : Network) (W : Z -> Prop) (a : Z) :
  frame nn nn' W -> ~ W a -> rd nn' a = rd nn a.
Proof. intros [_ F] Ha. unfold rd, load_dbl. now rewrite F. Qed.

(** ** Loops *)

(** The rule of a counted loop: an invariant that every iteration keeps holds
    at the end, and the loop has a result. *)
Lemma iter_from_inv {St : Type} (P : Z -> St -> Prop) (body : Z -> St -> option St) :
  forall (k : nat) (i : Z) (s : St),
    P i s ->
    (forall j t, i <= j < i + Z.of_nat k -> P j t ->
                 exists t', body j t = Some t' /\ P (j + 1) t') ->
    exists s', iter_from body i k s = Some s' /\ P (i + Z.of_nat k) s'.
Proof.
  induction k as [|k IH]; intros i s HP Hstep.
  - exists s. simpl. rewrite Z.add_0_r. auto.
  - destruct (Hstep i s) as [t [Hb Ht]]; [lia | assumption |].
    simpl iter_from. rewrite Hb.
    destruct (IH (i + 1) t Ht) as [s' [Hs' HP']].
    + intros j u Hj Hu. apply Hstep; [lia | assumption].
    + exists s'. split; [assumption |].
      replace (i + Z.of_nat (S k)) with (i + 1 + Z.of_nat k) by lia. assumption.
Qed.

Lemma for_lt_inv {St : Type} (P : Z -> St -> Prop) (body : Z -> St -> option St)
  (n : Z) (s : St) :
  0 <= n ->
  P 0 s ->
  (forall j t, 0 <= j < n -> P j t ->
               exists t', body j t = Some t' /\ P (j + 1) t') ->
  exists s', for_lt n body s = Some s' /\ P n s'.
Proof.
  intros Hn HP Hstep. unfold for_lt.
  destruct (iter_from_inv P body (Z.to_nat n) 0 s HP) as [s' [H1 H2]].
  - intros j t Hj. apply Hstep. lia.
  - exists s'. split; [assumption |]. now rewrite Z2Nat.id in H2 by assumption.
Qed.

Lemma repeat_from_iter_from {St : Type} (body : Z -> St -> St) :
  forall (k : nat) (i : Z) (s : St),
    iter_from (fun j t => Some (body j t)) i k s = Some (repeat_from body i k s).
Proof.
  induction k as [|k IH]; intros i s; simpl; [reflexivity | apply IH].
Qed.

Lemma repeat_lt_inv {St : Type} (P : Z -> St -> Prop) (body : Z -> St -> St)
  (n : Z) (s : St) :
  0 <= n ->
  P 0 s ->
  (forall j t, 0 <= j < n -> P j t -> P (j + 1) (body j t)) ->
  P n (repeat_lt n body s).
Proof.
  intros Hn HP Hstep.
  destruct (for_lt_inv P (fun j t => Some (body j t)) n s Hn HP) as [s' [H1 H2]].
  - intros j t Hj Ht. eexists. split; [reflexivity |]. now apply Hstep.
  - unfold for_lt in H1. rewrite repeat_from_iter_from in H1.
    injection H1 as <-. exact H2.
Qed.

(** A loop as a left fold over its indices, when the body always has a
    result. *)
Lemma iter_from_fold {St : Type} (step : St -> Z -> St) (body : Z -> St -> option St) :
  forall (k : nat) (i : Z) (s : St),
    (forall j t, i <= j < i + Z.of_nat k -> body j t = Some (step t j)) ->
    iter_from body i k s =
    Some (fold_left step (map (fun x => i + Z.of_nat x) (seq 0 k)) s).
Proof.
  induction k as [|k IH]; intros i s H; simpl; [reflexivity |].
  rewrite H by lia. rewrite Z.add_0_r.
  rewrite IH by (intros j t Hj; apply H; lia).
  f_equal. f_equal. rewrite <- seq_shift, map_map.
  apply map_ext. intros x. lia.
Qed.

Lemma for_lt_fold {St : Type} (step : St -> Z -> St) (body : Z -> St -> option St)
  (n : Z) (s : St) :
  (forall j t, 0 <= j < n -> body j t = Some (step t j)) ->
  for_lt n body s = Some (fold_left step (Zrange n) s).
Proof.
  intros H. unfold for_lt, Zrange.
  rewrite (iter_from_fold step body).
  - reflexivity.
  - intros j t Hj. apply H. lia.
Qed.

Lemma in_Zrange (n i : Z) : In i (Zrange n) <-> 0 <= i < n.
Proof.
  unfold Zrange. rewrite in_map_iff. split.
  - intros [x [<- Hx]]. apply in_seq in Hx. lia.
  - intros H. exists (Z.to_nat i). split; [lia |]. apply in_seq. lia.
Qed.

(** ** The layout of a well-formed arena *)

Section Layout.

Variables (nn : Network) (ni nh no : Z).
Hypothesis Hwf : wf nn ni nh no.

#[local] Abbreviation layer_end := (layer_end ni nh no nn).

Lemma ncountOf_pos (L : LayerType) : 0 < ncountOf ni nh no L.
Proof. destruct Hwf, L; simpl; assumption. Qed.

Lemma wcountOf_nonneg (L : LayerType) : 0 <= wcountOf ni nh no L.
Proof. destruct Hwf, L; simpl; lia. Qed.

Lemma wcountOf_prev (L : LayerType) :
  L <> INPUT -> wcountOf ni nh no L = ncountOf ni nh no (prevOf L).
Proof. destruct L; simpl; congruence. Qed.

(** The stored stride of a layer is the size of its nodes. *)
Lemma nodeSizeOf_wcount (L : LayerType) :
  nodeSizeOf nn L = sizeof_Node + wcountOf ni nh no L * sizeof_double.
Proof.
  destruct Hwf, L; simpl; unfold sizeof_double, sizeof_Node in *; lia.
Qed.

Lemma nodeSizeOf_pos (L : LayerType) : sizeof_Node <= nodeSizeOf nn L.
Proof.
  rewrite nodeSizeOf_wcount. pose proof (wcountOf_nonneg L).
  unfold sizeof_double. lia.
Qed.

Lemma layer_end_next :
  layer_end INPUT = getLayer nn HIDDEN /\ layer_end HIDDEN = getLayer nn OUTPUT.
Proof.
  destruct Hwf. unfold layer_end. simpl. lia.
Qed.

Lemma layer_end_ge (L : LayerType) : getLayer nn L + sizeof_Layer <= layer_end L.
Proof.
  pose proof (nodeSizeOf_pos L). pose proof (ncountOf_pos L).
  unfold layer_end, sizeof_Node in *. nia.
Qed.

Lemma getLayer_nonneg (L : LayerType) : 0 <= getLayer nn L.
Proof.
  pose proof (nodeSizeOf_pos INPUT) as HI. pose proof (nodeSizeOf_pos HIDDEN) as HH.
  destruct Hwf. simpl in HI, HH. unfold sizeof_Node, sizeof_Layer in *.
  destruct L; simpl; nia.
Qed.

(** A node lies inside its layer, and nodes of one layer do not overlap. *)
Lemma node_at_bounds (L : LayerType) (i : Z) :
  0 <= i < ncountOf ni nh no L ->
  getLayer nn L + sizeof_Layer <= node_at nn L i /\
  node_at nn L i + nodeSizeOf nn L <= layer_end L.
Proof.
  intros Hi. pose proof (nodeSizeOf_pos L) as Hs.
  unfold node_at, layer_end, off_nodes, sizeof_Layer, sizeof_Node in *. nia.
Qed.

Lemma node_at_lt (L : LayerType) (i j : Z) :
  0 <= i -> i < j -> node_at nn L i + nodeSizeOf nn L <= node_at nn L j.
Proof.
  intros Hi Hij. pose proof (nodeSizeOf_pos L) as Hs.
  unfold node_at, sizeof_Node in *. nia.
Qed.

Lemma field_at_bounds (L : LayerType) (i : Z) (f : field) :
  valid_slot ni nh no L i f ->
  node_at nn L i <= slot nn L i f /\
  slot nn L i f + sizeof_double <= node_at nn L i + nodeSizeOf nn L.
Proof.
  intros [Hi Hf]. pose proof (nodeSizeOf_pos L) as Hs.
  rewrite nodeSizeOf_wcount in *.
  unfold slot, field_at, weight_at, off_bias, off_output, off_weights,
    sizeof_double, sizeof_Node in *.
  destruct f; lia.
Qed.

Lemma slot_bounds (L : LayerType) (i : Z) (f : field) :
  valid_slot ni nh no L i f ->
  getLayer nn L + sizeof_Layer <= slot nn L i f /\
  slot nn L i f + sizeof_double <= layer_end L.
Proof.
  intros Hv. pose proof (field_at_bounds L i f Hv) as Hf.
  destruct Hv as [Hi _]. pose proof (node_at_bounds L i Hi). lia.
Qed.

(** Two valid node fields at one address are the same field. *)
Lemma slot_inj (L L' : LayerType) (i i' : Z) (f f' : field) :
  valid_slot ni nh no L i f -> valid_slot ni nh no L' i' f' ->
  slot nn L i f = slot nn L' i' f' ->
  L = L' /\ i = i' /\ f = f'.
Proof.
  intros Hv Hv' E.
  pose proof (slot_bounds L i f Hv) as B.
  pose proof (slot_bounds L' i' f' Hv') as B'.
  destruct layer_end_next as [E1 E2].
  pose proof (getLayer_nonneg HIDDEN) as GH.
  assert (HL : L = L').
  { pose proof (layer_end_ge HIDDEN).
    unfold sizeof_Layer, sizeof_double in *.
    destruct L, L'; try reflexivity; exfalso; lia. }
  subst L'. split; [reflexivity |].
  pose proof (field_at_bounds L i f Hv) as F.
  pose proof (field_at_bounds L i' f' Hv') as F'.
  assert (Hi : i = i').
  { destruct Hv as [Hi _], Hv' as [Hi' _].
    destruct (Z.lt_trichotomy i i') as [Hlt | [Heq | Hgt]]; [| assumption |].
    - pose proof (node_at_lt L i i' ltac:(lia) Hlt).
      unfold sizeof_double in *. lia.
    - pose proof (node_at_lt L i' i ltac:(lia) ltac:(lia)).
      unfold sizeof_double in *. lia. }
  subst i'. split; [reflexivity |].
  destruct Hv as [_ Hf], Hv' as [_ Hf'].
  unfold slot, field_at, weight_at, off_bias, off_output, off_weights,
    sizeof_double in E.
  destruct f, f'; try reflexivity; try lia.
  f_equal. lia.
Qed.

(** The cells of a well-formed arena. *)
Lemma wf_ncount (L : LayerType) :
  load_int (layers nn) (getLayer nn L + off_ncount) = Some (ncountOf ni nh no L).
Proof.
  destruct (wf_layer _ _ _ _ Hwf L) as [H _]. unfold load_int. now rewrite H.
Qed.

Lemma wf_wcount (L : LayerType) (i : Z) :
  0 <= i < ncountOf ni nh no L ->
  load_int (layers nn) (node_at nn L i + off_wcount) = Some (wcountOf ni nh no L).
Proof.
  intros Hi. destruct (wf_layer _ _ _ _ Hwf L) as [_ H].
  destruct (H i Hi) as (_ & _ & Hw & _). unfold load_int, node_at. now rewrite Hw.
Qed.

Lemma wf_slot_dbl (L : LayerType) (i : Z) (f : field) :
  valid_slot ni nh no L i f -> is_dbl (layers nn (slot nn L i f)) = true.
Proof.
  intros [Hi Hf]. destruct (wf_layer _ _ _ _ Hwf L) as [_ H].
  destruct (H i Hi) as (Hb & Ho & _ & Hw).
  unfold slot, node_at. destruct f; simpl; auto.
Qed.

Lemma wf_rd (L : LayerType) (i : Z) (f : field) :
  valid_slot ni nh no L i f ->
  rd nn (slot nn L i f) = Some (rdd nn (slot nn L i f)).
Proof. intros Hv. apply rdd_is_dbl. now apply wf_slot_dbl. Qed.

(** The stored stride of a layer is an [int], and so is the offset of every
    node of the layer and of the end of the layer. *)
Lemma nodeSizeOf_int (L : LayerType) (i : Z) :
  0 <= i <= ncountOf ni nh no L ->
  INT_MIN <= nodeSizeOf nn L <= INT_MAX /\
  INT_MIN <= i * nodeSizeOf nn L <= INT_MAX.
Proof.
  intros Hi. pose proof (nodeSizeOf_pos L) as Hs. pose proof (ncountOf_pos L) as Hn.
  destruct (wf_int _ _ _ _ Hwf) as (B1 & B2 & B3).
  assert (Hl : sizeof_Layer + ncountOf ni nh no L * nodeSizeOf nn L <= INT_MAX).
  { destruct Hwf as [_ _ _ _ Hils _ Hhls _ Hols _ _].
    destruct L; cbn [ncountOf nodeSizeOf]; lia. }
  unfold INT_MIN, INT_MAX, sizeof_Layer, sizeof_Node in *.
  assert (i * nodeSizeOf nn L <= ncountOf ni nh no L * nodeSizeOf nn L)
    by (apply Z.mul_le_mono_nonneg_r; lia).
  assert (0 <= i * nodeSizeOf nn L) by (apply Z.mul_nonneg_nonneg; lia).
  assert (1 * nodeSizeOf nn L <= ncountOf ni nh no L * nodeSizeOf nn L)
    by (apply Z.mul_le_mono_nonneg_r; lia).
  lia.
Qed.

(** [getNode] on a layer of a well-formed arena uses the stored stride,
    whatever the index whose offset is an [int]. *)
Lemma wf_getNode_int (L : LayerType) (i : Z) :
  INT_MIN <= i * nodeSizeOf nn L <= INT_MAX ->
  getNode (layers nn) (getLayer nn L) i = Some (node_at nn L i).
Proof.
  intros Hi. unfold getNode.
  pose proof (wf_wcount L 0) as H. unfold node_at in H.
  rewrite Z.mul_0_l, Z.add_0_r in H.
  rewrite H by (pose proof (ncountOf_pos L); lia). cbn [obind].
  rewrite <- nodeSizeOf_wcount.
  destruct (nodeSizeOf_int L 0 ltac:(pose proof (ncountOf_pos L); lia)) as [Hs _].
  rewrite (to_int_fits _ Hs). cbn [obind].
  rewrite (to_int_fits _ Hi). reflexivity.
Qed.

Lemma wf_getNode_overflow (L : LayerType) (i : Z) :
  ~ INT_MIN <= i * nodeSizeOf nn L <= INT_MAX ->
  getNode (layers nn) (getLayer nn L) i = None.
Proof.
  intros Hi. unfold getNode.
  pose proof (wf_wcount L 0) as H. unfold node_at in H.
  rewrite Z.mul_0_l, Z.add_0_r in H.
  rewrite H by (pose proof (ncountOf_pos L); lia). cbn [obind].
  rewrite <- nodeSizeOf_wcount.
  destruct (nodeSizeOf_int L 0 ltac:(pose proof (ncountOf_pos L); lia)) as [Hs _].
  rewrite (to_int_fits _ Hs). cbn [obind].
  now rewrite (to_int_overflow _ Hi).
Qed.

Lemma wf_getNode (L : LayerType) (i : Z) :
  0 <= i <= ncountOf ni nh no L ->
  getNode (layers nn) (getLayer nn L) i = Some (node_at nn L i).
Proof.
  intros Hi. apply wf_getNode_int. now apply nodeSizeOf_int.
Qed.

Lemma wf_prevLayerOf (L : LayerType) :
  prevLayerOf nn L = (getLayer nn (prevOf L), nodeSizeOf nn (prevOf L)).
Proof. unfold prevLayerOf. destruct L; reflexivity. Qed.

End Layout.

(** A well-formed arena stays well-formed when only doubles change. *)
Lemma same_shape_wf (nn nn' : Network) (ni nh no : Z) :
  same_shape nn nn' -> wf nn ni nh no -> wf nn' ni nh no.
Proof.
  intros [Hh Hc] H. pose proof Hh as Hh0.
  destruct Hh as (h1 & h2 & h3 & h4 & h5 & h6 & _).
  destruct H. constructor; try congruence.
  intros L. rewrite (same_header_getLayer _ _ _ Hh0), (same_header_nodeSizeOf _ _ _ Hh0).
  destruct (wf_layer0 L) as [Hn Hnodes]. split.
  - eapply cell_shape_int; eauto.
  - intros i Hi. destruct (Hnodes i Hi) as (Hb & Ho & Hw & Hws).
    repeat split.
    + eapply cell_shape_dbl; eauto.
    + eapply cell_shape_dbl; eauto.
    + eapply cell_shape_int; eauto.
    + intros k Hk. eapply cell_shape_dbl; eauto.
Qed.

(** A frame whose written cells are valid node fields keeps the shape. *)
Lemma frame_same_shape (nn nn' : Network) (W : Z -> Prop) :
  frame nn nn' W ->
  (forall a, W a -> is_dbl (layers nn a) = true /\ is_dbl (layers nn' a) = true) ->
  same_shape nn nn'.
Proof.
  intros [Hh Hf] HW. split; [assumption |].
  intros a. destruct (is_dbl (layers nn a)) eqn:E.
  - destruct (layers nn a) eqn:E1; try discriminate.
    destruct (layers nn' a) eqn:E2; simpl; auto.
    + assert (D : layers nn' a = layers nn a) by
        (apply Hf; intros Wa; destruct (HW a Wa) as [_ D]; rewrite E2 in D; discriminate).
      congruence.
    + assert (D : layers nn' a = layers nn a) by
        (apply Hf; intros Wa; destruct (HW a Wa) as [_ D]; rewrite E2 in D; discriminate).
      congruence.
  - assert (D : layers nn' a = layers nn a) by
      (apply Hf; intros Wa; destruct (HW a Wa) as [D _]; congruence).
    rewrite D. apply cell_shape_refl.
Qed.

(** ** Soundness of the test *)

Lemma cell_eqb_int_true (c : cell) (z : Z) : cell_eqb_int c z = true -> c = CInt z.
Proof.
  destruct c; simpl; try discriminate. intros H. apply Z.eqb_eq in H. now subst.
Qed.

Lemma forallb_Zrange (p : Z -> bool) (n : Z) :
  forallb p (Zrange n) = true -> forall i, 0 <= i < n -> p i = true.
Proof.
  intros H i Hi. rewrite forallb_forall in H. apply H. now apply in_Zrange.
Qed.

Lemma node_okb_sound (m : mem) (n wc : Z) : node_okb m n wc = true -> node_ok m n wc.
Proof.
  unfold node_okb, node_ok. rewrite !andb_true_iff.
  intros [[[Hb Ho] Hw] Hws]. repeat split; auto.
  - now apply cell_eqb_int_true.
  - now apply forallb_Zrange.
Qed.

Lemma layer_okb_sound (m : mem) (l n sz wc : Z) :
  layer_okb m l n sz wc = true -> layer_ok m l n sz wc.
Proof.
  unfold layer_okb, layer_ok. rewrite andb_true_iff. intros [Hn Hs]. split.
  - now apply cell_eqb_int_true.
  - intros i Hi. apply node_okb_sound.
    now apply (forallb_Zrange _ _ Hs).
Qed.

Lemma wfb_sound (nn : Network) (ni nh no : Z) : wfb nn ni nh no = true -> wf nn ni nh no.
Proof.
  unfold wfb. rewrite !andb_true_iff.
  intros [[[[[[[[[[[[H1 H2] H3] H4] H5] H6] H7] H8] H9] HL] B1] B2] B3].
  constructor; try lia.
  intros L. apply layer_okb_sound. rewrite forallb_forall in HL.
  apply HL. destruct L; simpl; auto.
Qed.

(** * Facts about binary64 arithmetic

    From the specification of the primitive operations ([FloatAxioms]). *)

Lemma Prim2SF_one : Prim2SF 1%float = S754_finite false 4503599627370496 (-52).
Proof. reflexivity. Qed.

(** Multiplying by [1.0] is exact. *)
Lemma float_mul_1_r (x : float) : (x * 1)%float = x.
Proof.
  apply Prim2SF_inj. rewrite FloatAxioms.mul_spec, Prim2SF_one.
  pose proof (Prim2SF_valid x) as V.
  destruct (Prim2SF x) as [s | s | | s m e]; cbn [SF64mul SFmul].
  - now rewrite xorb_false_r.
  - now rewrite xorb_false_r.
  - reflexivity.
  - unfold SF64mul, SFmul. rewrite xorb_false_r.
    cbn [valid_binary] in V. unfold bounded in V.
    apply andb_true_iff in V. destruct V as [Vc Ve].
    unfold canonical_mantissa in Vc. apply Z.eqb_eq in Vc.
    rewrite Pos.mul_comm. cbn [Pos.mul].
    unfold binary_round_aux, shr_fexp.
    cbn [Zdigits2 digits2_pos].
    match goal with |- context [fexp ?p ?q ?a] =>
      replace (fexp p q a) with e end.
    2:{ rewrite <- Vc at 1. f_equal. lia. }
    replace (e - (e + -52)) with 52 by lia.
    cbn [shr shr_record_of_loc iter_pos shr_1 loc_of_shr_record shr_m shr_r
         shr_s round_nearest_even orb].
    replace (e + -52 + 52) with e by lia.
    cbn [Zdigits2]. rewrite Vc. rewrite Z.sub_diag.
    cbn [shr shr_m]. now rewrite Ve.
Qed.

Lemma SFcompare_antisym (x y : spec_float) :
  SFcompare y x = option_map CompOpp (SFcompare x y).
Proof.
  destruct x as [sx | sx | | sx mx ex], y as [sy | sy | | sy my ey];
    cbn [SFcompare option_map]; try reflexivity;
    try (destruct sx; reflexivity); try (destruct sy; reflexivity);
    try (destruct sx, sy; reflexivity).
  change (PosDef.Pos.compare_cont Eq my mx) with (Pos.compare my mx).
  change (PosDef.Pos.compare_cont Eq mx my) with (Pos.compare mx my).
  destruct sx, sy; cbn [CompOpp]; try reflexivity.
  - rewrite (Z.compare_antisym ey ex).
    destruct (ey ?= ex); cbn [CompOpp]; try reflexivity.
    now rewrite (Pos.compare_antisym mx my).
  - rewrite (Z.compare_antisym ey ex).
    destruct (ey ?= ex); cbn [CompOpp]; try reflexivity.
    now rewrite (Pos.compare_antisym mx my).
Qed.

(** [<] on doubles is asymmetric, and [x <= y] excludes [y < x]. *)
Lemma float_ltb_asym (x y : float) :
  (x <? y)%float = true -> (y <? x)%float = false.
Proof.
  rewrite !FloatAxioms.ltb_spec. unfold SFltb.
  rewrite (SFcompare_antisym (Prim2SF x) (Prim2SF y)).
  destruct (SFcompare (Prim2SF x) (Prim2SF y)) as [[]|]; cbn; congruence.
Qed.

Lemma float_leb_not_ltb (x y : float) :
  (x <=? y)%float = true -> (y <? x)%float = false.
Proof.
  rewrite FloatAxioms.leb_spec, FloatAxioms.ltb_spec. unfold SFleb, SFltb.
  rewrite (SFcompare_antisym (Prim2SF x) (Prim2SF y)).
  destruct (SFcompare (Prim2SF x) (Prim2SF y)) as [[]|]; cbn; congruence.
Qed.

(** ** Signs *)

Lemma shr_1_nonneg (mrs : shr_record) : 0 <= shr_m mrs -> 0 <= shr_m (shr_1 mrs).
Proof.
  destruct mrs as [m r s]. cbn [shr_m]. intros H.
  destruct m as [|p|p]; [cbn; lia | | lia].
  destruct p; cbn; lia.
Qed.

Lemma iter_pos_inv {A : Type} (P : A -> Prop) (f : A -> A) :
  (forall x, P x -> P (f x)) -> forall p x, P x -> P (iter_pos f p x).
Proof.
  intros Hf. induction p as [p IH | p IH |]; intros x Hx; cbn [iter_pos]; auto.
Qed.

Lemma shr_nonneg (mrs : shr_record) (e n : Z) :
  0 <= shr_m mrs -> 0 <= shr_m (fst (shr mrs e n)).
Proof.
  intros H. unfold shr. destruct n; cbn [fst]; try assumption.
  apply (iter_pos_inv (fun r => 0 <= shr_m r)); [apply shr_1_nonneg | assumption].
Qed.

Lemma shr_record_of_loc_m (m : Z) (l : location) : shr_m (shr_record_of_loc m l) = m.
Proof. destruct l as [|[]]; reflexivity. Qed.

Lemma shr_fexp_nonneg (m e : Z) (l : location) :
  0 <= m -> 0 <= shr_m (fst (shr_fexp prec emax m e l)).
Proof.
  intros H. unfold shr_fexp. apply shr_nonneg. now rewrite shr_record_of_loc_m.
Qed.

Lemma round_nearest_even_nonneg (m : Z) (l : location) :
  0 <= m -> 0 <= round_nearest_even m l.
Proof.
  intros H. unfold round_nearest_even. destruct l as [|[]]; try lia.
  destruct (Z.even m); lia.
Qed.

Lemma binary_round_aux_signed (s : bool) (m e : Z) (l : location) :
  0 <= m -> SFsigned s (binary_round_aux prec emax s m e l).
Proof.
  intros H. unfold binary_round_aux.
  pose proof (shr_fexp_nonneg m e l H) as H1.
  destruct (shr_fexp prec emax m e l) as [mrs' e'] eqn:E1. cbn [fst] in H1.
  pose proof (shr_fexp_nonneg _ e' loc_Exact
                (round_nearest_even_nonneg _ (loc_of_shr_record mrs') H1)) as H2.
  destruct (shr_fexp prec emax (round_nearest_even (shr_m mrs') (loc_of_shr_record mrs')) e' loc_Exact)
    as [mrs'' e''] eqn:E2. cbn [fst] in H2.
  destruct (shr_m mrs'') as [|p|p]; cbn [SFsigned]; try reflexivity; [| lia].
  destruct (e'' <=? emax - prec); reflexivity.
Qed.

Lemma SFmul_signed (x y : spec_float) (sy : bool) my ey :
  SFsigned false x -> y = S754_finite sy my ey ->
  SFsigned sy (SFmul prec emax y x).
Proof.
  intros Hx ->. destruct x as [s | s | | s m e]; cbn [SFsigned] in Hx; try contradiction; subst s;
    cbn [SFmul]; rewrite ?xorb_false_r; try reflexivity.
  apply binary_round_aux_signed. lia.
Qed.

Lemma SFsigned_leb_zero (x : spec_float) :
  SFsigned false x -> SFleb (S754_zero false) x = true.
Proof.
  destruct x as [s | s | | s m e]; cbn [SFsigned]; intros H; try contradiction; subst; reflexivity.
Qed.

Lemma SFsigned_opp_leb_zero (x : spec_float) :
  SFsigned false x -> SFleb (SFopp x) (S754_zero false) = true.
Proof.
  destruct x as [s | s | | s m e]; cbn [SFsigned]; intros H; try contradiction; subst; reflexivity.
Qed.

(** ** Digits and the doubles of integers *)

(** [2^(d-1) <= p < 2^d] for [d] the number of digits of [p]. *)
Lemma digits2_pos_bounds (p : positive) :
  2 ^ (Z.pos (digits2_pos p) - 1) <= Z.pos p < 2 ^ Z.pos (digits2_pos p).
Proof.
  induction p as [p IH | p IH |].
  - cbn [digits2_pos]. rewrite Pos2Z.inj_succ.
    replace (Z.succ (Z.pos (digits2_pos p)) - 1) with (Z.succ (Z.pos (digits2_pos p) - 1)) by lia.
    rewrite !Z.pow_succ_r by lia. lia.
  - cbn [digits2_pos]. rewrite Pos2Z.inj_succ.
    replace (Z.succ (Z.pos (digits2_pos p)) - 1) with (Z.succ (Z.pos (digits2_pos p) - 1)) by lia.
    rewrite !Z.pow_succ_r by lia. lia.
  - cbn. lia.
Qed.

Lemma digits2_pos_unique (p : positive) (d : Z) :
  2 ^ (d - 1) <= Z.pos p < 2 ^ d -> Z.pos (digits2_pos p) = d.
Proof.
  intros [Hlo Hhi]. pose proof (digits2_pos_bounds p) as [Blo Bhi].
  assert (0 < d).
  { destruct (Z.lt_ge_cases 0 d); [assumption |].
    assert (2 ^ d <= 2 ^ 0) by (apply Z.pow_le_mono_r; lia). cbn in *. lia. }
  destruct (Z.lt_trichotomy (Z.pos (digits2_pos p)) d) as [Hlt | [Heq | Hgt]]; [| assumption |].
  - assert (2 ^ Z.pos (digits2_pos p) <= 2 ^ (d - 1)) by (apply Z.pow_le_mono_r; lia). lia.
  - assert (2 ^ d <= 2 ^ (Z.pos (digits2_pos p) - 1)) by (apply Z.pow_le_mono_r; lia). lia.
Qed.

Lemma Zpos_iter_xO (p k : positive) : Z.pos (Pos.iter xO p k) = Z.pos p * 2 ^ Z.pos k.
Proof.
  revert p. induction k using Pos.peano_ind; intros p.
  - cbn. lia.
  - rewrite Pos.iter_succ. rewrite Pos2Z.inj_xO, IHk, Pos2Z.inj_succ, Z.pow_succ_r by lia. lia.
Qed.

(** The double of a positive integer below [2^53]: the integer itself,
    normalised to 53 digits. *)
Lemma binary_round_exact (p : positive) :
  Z.pos p < 2 ^ 53 ->
  exists m e,
    binary_round prec emax false p 0 = S754_finite false m e /\
    Z.pos (digits2_pos m) = 53 /\ -52 <= e <= 0 /\ Z.pos m = Z.pos p * 2 ^ (- e).
Proof.
  intros Hp. pose proof (digits2_pos_bounds p) as [Blo Bhi].
  assert (Hd : Z.pos (digits2_pos p) <= 53).
  { destruct (Z.le_gt_cases (Z.pos (digits2_pos p)) 53); [assumption |].
    assert (2 ^ 53 <= 2 ^ (Z.pos (digits2_pos p) - 1)) by (apply Z.pow_le_mono_r; lia). lia. }
  unfold binary_round.
  assert (Hf : fexp prec emax (Z.pos (digits2_pos p) + 0) = Z.pos (digits2_pos p) - 53).
  { unfold fexp, emin, prec, emax. lia. }
  rewrite Hf.
  assert (Hal : exists m, shl_align p 0 (Z.pos (digits2_pos p) - 53) = (m, Z.pos (digits2_pos p) - 53)
                  /\ Z.pos m = Z.pos p * 2 ^ (53 - Z.pos (digits2_pos p))).
  { unfold shl_align. rewrite Z.sub_0_r.
    destruct (Z.pos (digits2_pos p) - 53) as [|k|k] eqn:Ek; [| lia |].
    - exists p. replace (53 - Z.pos (digits2_pos p)) with 0 by lia. split; [reflexivity | lia].
    - exists (Pos.iter xO p k). split; [reflexivity |].
      rewrite Zpos_iter_xO. f_equal. f_equal. lia. }
  destruct Hal as (m & Hal & Hm). rewrite Hal.
  set (e := Z.pos (digits2_pos p) - 53) in *.
  assert (Hdm : Z.pos (digits2_pos m) = 53).
  { apply digits2_pos_unique. rewrite Hm.
    set (k := 53 - Z.pos (digits2_pos p)) in *.
    assert (E1 : 2 ^ (53 - 1) = 2 ^ (Z.pos (digits2_pos p) - 1) * 2 ^ k).
    { rewrite <- Z.pow_add_r by lia. f_equal. lia. }
    assert (E2 : 2 ^ 53 = 2 ^ Z.pos (digits2_pos p) * 2 ^ k).
    { rewrite <- Z.pow_add_r by lia. f_equal. lia. }
    assert (0 < 2 ^ k) by (apply Z.pow_pos_nonneg; lia).
    rewrite E1, E2. split.
    - apply Z.mul_le_mono_nonneg_r; lia.
    - apply Z.mul_lt_mono_pos_r; lia. }
  exists m, e. split; [| split; [assumption | split; [lia |]]].
  - unfold binary_round_aux, shr_fexp. cbn [Zdigits2 shr_record_of_loc].
    rewrite Hdm.
    assert (Hf2 : fexp prec emax (53 + e) - e = 0) by (unfold fexp, emin, prec, emax; lia).
    rewrite Hf2. cbn [shr shr_m loc_of_shr_record round_nearest_even Zdigits2].
    rewrite Hdm, Hf2. cbn [shr shr_m].
    assert (He : (e <=? emax - prec) = true) by (apply Z.leb_le; unfold emax, prec; lia).
    now rewrite He.
  - rewrite Hm. f_equal. f_equal. lia.
Qed.

Lemma double_of_int_exact (z : Z) :
  0 < z < 2 ^ 53 ->
  exists m e,
    Prim2SF (double_of_int z) = S754_finite false m e /\
    Z.pos (digits2_pos m) = 53 /\ -52 <= e <= 0 /\ Z.pos m = z * 2 ^ (- e).
Proof.
  intros Hz. unfold double_of_int.
  destruct (Z.ltb_spec z 0) as [Hneg | _]; [lia |].
  rewrite of_uint63_spec.
  rewrite Uint63.of_Z_spec.
  assert (Hw : z mod Uint63.wB = z).
  { apply Z.mod_small. change Uint63.wB with (2 ^ 63).
    assert (2 ^ 53 < 2 ^ 63) by (apply Z.pow_lt_mono_r; lia). lia. }
  rewrite Hw. destruct z as [|p|p]; try lia.
  cbn [binary_normalize]. apply binary_round_exact. lia.
Qed.

(** ** Shifting right *)

Lemma shr_1_div2 (mrs : shr_record) :
  0 <= shr_m mrs -> shr_m (shr_1 mrs) = shr_m mrs / 2.
Proof.
  destruct mrs as [m r s]. cbn [shr_m]. intros H.
  destruct m as [|p|p]; [reflexivity | | lia].
  destruct p; cbn [shr_1 shr_m].
  - rewrite Pos2Z.inj_xI. apply Z.div_unique with (r := 1); lia.
  - rewrite Pos2Z.inj_xO. apply Z.div_unique with (r := 0); lia.
  - reflexivity.
Qed.

Lemma iter_pos_shr_1 (p : positive) :
  forall mrs, 0 <= shr_m mrs ->
    shr_m (iter_pos shr_1 p mrs) = shr_m mrs / 2 ^ Z.pos p.
Proof.
  assert (Hnn : forall q mrs, 0 <= shr_m mrs -> 0 <= shr_m (iter_pos shr_1 q mrs)).
  { intros q mrs H. apply (iter_pos_inv (fun r => 0 <= shr_m r)); [apply shr_1_nonneg | assumption]. }
  assert (EI : forall q, 2 ^ Z.pos q~1 = 2 * (2 ^ Z.pos q * 2 ^ Z.pos q)).
  { intros q. rewrite (Pos2Z.inj_xI q).
    replace (2 * Z.pos q + 1) with (Z.pos q + Z.pos q + 1) by lia.
    rewrite !Z.pow_add_r by lia. rewrite Z.pow_1_r. lia. }
  assert (EO : forall q, 2 ^ Z.pos q~0 = 2 ^ Z.pos q * 2 ^ Z.pos q).
  { intros q. rewrite (Pos2Z.inj_xO q).
    replace (2 * Z.pos q) with (Z.pos q + Z.pos q) by lia.
    now rewrite !Z.pow_add_r by lia. }
  assert (Hpp : forall q, 0 < 2 ^ Z.pos q) by (intros q; apply Z.pow_pos_nonneg; lia).
  induction p as [p IH | p IH |]; intros mrs H; cbn [iter_pos].
  - rewrite IH by (apply Hnn; now apply shr_1_nonneg).
    rewrite IH by now apply shr_1_nonneg.
    rewrite shr_1_div2 by assumption.
    pose proof (Hpp p).
    rewrite !Z.div_div by lia. now rewrite EI.
  - rewrite IH by now apply Hnn. rewrite IH by assumption.
    pose proof (Hpp p).
    rewrite !Z.div_div by lia. now rewrite EO.
  - now apply shr_1_div2.
Qed.

(** [shr] by [n >= 0] bits divides the mantissa by [2^n] and adds [n] to the
    exponent. *)
Lemma shr_spec (mrs : shr_record) (e n : Z) :
  0 <= shr_m mrs -> 0 <= n ->
  shr_m (fst (shr mrs e n)) = shr_m mrs / 2 ^ n /\ snd (shr mrs e n) = e + n.
Proof.
  intros Hm Hn. unfold shr. destruct n as [|p|p]; cbn [fst snd]; [| | lia].
  - rewrite Z.pow_0_r, Z.div_1_r. split; [reflexivity | lia].
  - split; [now apply iter_pos_shr_1 | reflexivity].
Qed.

Lemma round_nearest_even_le (m : Z) (l : location) :
  m <= round_nearest_even m l <= m + 1.
Proof.
  unfold round_nearest_even. destruct l as [|[]]; try lia.
  destruct (Z.even m); lia.
Qed.

Lemma Zdigits2_pos (m : Z) (d : Z) :
  0 < d -> 2 ^ (d - 1) <= m < 2 ^ d -> Zdigits2 m = d.
Proof.
  intros Hd [Hlo Hhi].
  assert (0 < m).
  { assert (0 < 2 ^ (d - 1)) by (apply Z.pow_pos_nonneg; lia). lia. }
  destruct m as [|p|p]; try lia. cbn [Zdigits2].
  now apply digits2_pos_unique.
Qed.

(** ** Rounding below a representable bound

    A mantissa [m] of at least 53 digits at exponent [e], with whatever
    location, whose value is strictly below the 53-digit number [mb * 2^eb],
    rounds to a 53-digit number that is at most [mb * 2^eb]. *)
Lemma binary_round_aux_below (m e : Z) (l : location) (d : Z) (mb : positive) (eb : Z) :
  53 <= d -> 2 ^ (d - 1) <= m < 2 ^ d ->
  -1074 <= e + (d - 53) <= 970 ->
  Z.pos (digits2_pos mb) = 53 ->
  e <= eb -> m < Z.pos mb * 2 ^ (eb - e) ->
  exists m' e',
    binary_round_aux prec emax false m e l = S754_finite false m' e' /\
    Z.pos (digits2_pos m') = 53 /\
    e + (d - 53) <= e' <= e + (d - 53) + 1 /\
    (e' < eb \/ (e' = eb /\ Z.pos m' <= Z.pos mb)).
Proof.
  intros Hd [Hlo Hhi] He Hdb Heb Hlt.
  pose proof (digits2_pos_bounds mb) as [Bblo Bbhi]. rewrite Hdb in Bblo, Bbhi.
  set (n := d - 53) in *.
  assert (Hn : 0 <= n) by (unfold n; lia).
  assert (Hm0 : 0 < m).
  { assert (0 < 2 ^ (d - 1)) by (apply Z.pow_pos_nonneg; lia). lia. }
  assert (H2n : 0 < 2 ^ n) by (apply Z.pow_pos_nonneg; lia).
  (* the bound, in units of the target exponent *)
  assert (Hebn : n <= eb - e).
  { destruct (Z.le_gt_cases n (eb - e)); [assumption | exfalso].
    assert (2 ^ (eb - e) <= 2 ^ (n - 1)) by (apply Z.pow_le_mono_r; lia).
    assert (Z.pos mb * 2 ^ (eb - e) <= 2 ^ 53 * 2 ^ (n - 1)) by nia.
    assert (E : 2 ^ 53 * 2 ^ (n - 1) = 2 ^ (d - 1)).
    { rewrite <- Z.pow_add_r by lia. f_equal. unfold n. lia. }
    lia. }
  set (k := eb - e - n) in *.
  assert (Hk : 0 <= k) by (unfold k; lia).
  assert (Ebz : Z.pos mb * 2 ^ (eb - e) = (Z.pos mb * 2 ^ k) * 2 ^ n).
  { replace (eb - e) with (k + n) by (unfold k; lia).
    rewrite Z.pow_add_r by lia. lia. }
  (* first shift *)
  unfold binary_round_aux.
  assert (Hdig : Zdigits2 m = d) by (apply Zdigits2_pos; [lia | split; assumption]).
  unfold shr_fexp at 1. rewrite Hdig.
  assert (Hf1 : fexp prec emax (d + e) - e = n)
    by (unfold fexp, emin, prec, emax, n in *; lia).
  rewrite Hf1.
  pose proof (shr_spec (shr_record_of_loc m l) e n) as S1.
  rewrite shr_record_of_loc_m in S1. specialize (S1 ltac:(lia) Hn).
  destruct (shr (shr_record_of_loc m l) e n) as [mrs1 e1] eqn:E1.
  cbn [fst snd] in S1. destruct S1 as [Hm1 He1].
  set (m1 := shr_m mrs1) in *.
  assert (Hm1lo : 2 ^ 52 <= m1).
  { rewrite Hm1. apply Z.div_le_lower_bound; [assumption |].
    replace (d - 1) with (n + 52) in Hlo by (unfold n; lia).
    rewrite Z.pow_add_r in Hlo by lia. lia. }
  assert (Hm1hi : m1 < Z.pos mb * 2 ^ k).
  { rewrite Hm1. apply Z.div_lt_upper_bound; [assumption |]. lia. }
  assert (Hm1hi53 : m1 < 2 ^ 53).
  { rewrite Hm1. apply Z.div_lt_upper_bound; [assumption |].
    replace d with (n + 53) in Hhi by (unfold n; lia).
    rewrite Z.pow_add_r in Hhi by lia. lia. }
  pose proof (round_nearest_even_le m1 (loc_of_shr_record mrs1)) as Hr.
  set (m2 := round_nearest_even m1 (loc_of_shr_record mrs1)) in *.
  unfold shr_fexp. cbn [shr_record_of_loc].
  destruct (Z.eq_dec m2 (2 ^ 53)) as [Hcarry | Hnc].
  - (* the mantissa rounds up to 2^53: one more shift *)
    rewrite Hcarry. change (Zdigits2 (2 ^ 53)) with 54.
    assert (Hf2 : fexp prec emax (54 + e1) - e1 = 1)
      by (unfold fexp, emin, prec, emax, n in *; lia).
    rewrite Hf2. cbn [shr iter_pos shr_1 shr_m Z.pow Z.pow_pos Pos.iter Z.mul Pos.mul].
    assert (Hle : (e1 + 1 <=? emax - prec) = true)
      by (apply Z.leb_le; unfold emax, prec; lia).
    rewrite Hle. eexists _, _. split; [reflexivity |].
    split; [reflexivity |]. split; [lia |].
    assert (Hk1 : 1 <= k).
    { destruct (Z.le_gt_cases 1 k); [assumption | exfalso].
      assert (k = 0) by lia. subst k. rewrite H0 in Hm1hi.
      change (2 ^ 0) with 1 in Hm1hi. lia. }
    destruct (Z.eq_dec k 1) as [Hk1' | Hkn].
    + right. split; [unfold k in *; lia |].
      rewrite Hk1' in Hm1hi. change (2 ^ 1) with 2 in Hm1hi.
      change (2 ^ 53) with 9007199254740992 in *.
      change (Z.pos 4503599627370496) with 4503599627370496. lia.
    + left. unfold k in *. lia.
  - (* no carry *)
    assert (Hm2 : 2 ^ 52 <= m2 < 2 ^ 53) by lia.
    assert (Hdig2 : Zdigits2 m2 = 53) by (apply Zdigits2_pos; [lia | exact Hm2]).
    rewrite Hdig2.
    assert (Hf2 : fexp prec emax (53 + e1) - e1 = 0)
      by (unfold fexp, emin, prec, emax, n in *; lia).
    rewrite Hf2. cbn [shr shr_m].
    destruct m2 as [|p2|p2] eqn:Ep2; try (change (2 ^ 52) with 4503599627370496 in Hm2; lia).
    assert (Hle : (e1 <=? emax - prec) = true)
      by (apply Z.leb_le; unfold emax, prec; lia).
    rewrite Hle. exists p2, e1. split; [reflexivity |].
    split; [cbn [Zdigits2] in Hdig2; exact Hdig2 |]. split; [lia |].
    destruct (Z.eq_dec k 0) as [Hk0 | Hkn].
    + right. split; [unfold k in *; lia |].
      rewrite Hk0 in Hm1hi. change (2 ^ 0) with 1 in Hm1hi. lia.
    + left. unfold k in *. lia.
Qed.

(** ** Quotients of integers and their scaling *)

Lemma SFdiv_self (m : positive) (e : Z) :
  Z.pos (digits2_pos m) = 53 ->
  SFdiv prec emax (S754_finite false m e) (S754_finite false m e) =
  S754_finite false 4503599627370496 (-52).
Proof.
  intros Hd. cbn [SFdiv xorb]. unfold SFdiv_core_binary. cbn [Zdigits2]. rewrite Hd.
  replace (53 + e - (53 + e)) with 0 by lia.
  replace (e - e) with 0 by lia.
  change (Z.min (fexp prec emax 0) 0) with (-53).
  change (0 - -53) with 53.
  rewrite Z.shiftl_mul_pow2 by lia.
  pose proof (Z_div_mod (Z.pos m * 2 ^ 53) (Z.pos m) ltac:(lia)) as D.
  destruct (Z.div_eucl (Z.pos m * 2 ^ 53) (Z.pos m)) as [q r].
  destruct D as [D1 D2].
  assert (Hq : q = 2 ^ 53) by nia.
  assert (Hr : r = 0) by nia.
  subst q r.
  assert (Hloc : new_location (Z.pos m) 0 = loc_Exact).
  { unfold new_location, new_location_even, new_location_odd.
    destruct (Z.even (Z.pos m)); reflexivity. }
  rewrite Hloc. reflexivity.
Qed.

Lemma double_of_int_zero : Prim2SF (double_of_int 0) = S754_zero false.
Proof. reflexivity. Qed.

Lemma SFdiv_below (mx my : positive) (ex ey : Z) :
  Z.pos (digits2_pos mx) = 53 -> Z.pos (digits2_pos my) = 53 ->
  -52 <= ex -> ex <= ey -> ey <= 0 ->
  Z.pos mx < 2 ^ (ey - ex) * Z.pos my ->
  exists m e,
    SFdiv prec emax (S754_finite false mx ex) (S754_finite false my ey) =
    S754_finite false m e /\
    Z.pos (digits2_pos m) = 53 /\ -200 <= e /\
    (e < -52 \/ (e = -52 /\ m = 4503599627370496%positive)).
Proof.
  intros Hdx Hdy Hex Hexy Hey Hval.
  pose proof (digits2_pos_bounds mx) as [Xlo Xhi]. rewrite Hdx in Xlo, Xhi.
  pose proof (digits2_pos_bounds my) as [Ylo Yhi]. rewrite Hdy in Ylo, Yhi.
  change (2 ^ (53 - 1)) with 4503599627370496 in *.
  change (2 ^ 53) with 9007199254740992 in *.
  cbn [SFdiv xorb].
  unfold SFdiv_core_binary. cbn [Zdigits2]. rewrite Hdx, Hdy.
  assert (He' : Z.min (fexp prec emax (53 + ex - (53 + ey))) (ex - ey) = ex - ey - 53)
    by (unfold fexp, emin, prec, emax; lia).
  rewrite He'.
  replace (ex - ey - (ex - ey - 53)) with 53 by lia.
  rewrite Z.shiftl_mul_pow2 by lia.
  change (2 ^ 53) with 9007199254740992.
  pose proof (Z_div_mod (Z.pos mx * 9007199254740992) (Z.pos my) ltac:(lia)) as D.
  destruct (Z.div_eucl (Z.pos mx * 9007199254740992) (Z.pos my)) as [q rem].
  destruct D as [D1 D2].
  assert (Hq1 : 4503599627370496 <= q) by nia.
  assert (Hp : 0 < 2 ^ (ey - ex)) by (apply Z.pow_pos_nonneg; lia).
  assert (Hqb : q < 4503599627370496 * 2 ^ (-52 - (ex - ey - 53))).
  { replace (-52 - (ex - ey - 53)) with (1 + (ey - ex)) by lia.
    rewrite Z.pow_add_r by lia. change (2 ^ 1) with 2. nia. }
  assert (Hq2 : q < 18014398509481984) by nia.
  assert (Hfin : forall m' e',
            Z.pos (digits2_pos m') = 53 ->
            e' < -52 \/ e' = -52 /\ Z.pos m' <= 4503599627370496 ->
            e' < -52 \/ e' = -52 /\ m' = 4503599627370496%positive).
  { intros m' e' Hdm [Hlt | [Heq Hle]]; [now left | right].
    split; [assumption |].
    pose proof (digits2_pos_bounds m') as [Mlo _]. rewrite Hdm in Mlo.
    change (2 ^ (53 - 1)) with 4503599627370496 in Mlo. lia. }
  destruct (Z.lt_ge_cases q 9007199254740992) as [Hsmall | Hbig].
  - destruct (binary_round_aux_below q (ex - ey - 53) (new_location (Z.pos my) rem) 53
                4503599627370496 (-52))
      as (m' & e' & Hres & Hdm & He & Hcmp); try lia; try reflexivity.
    exists m', e'. split; [exact Hres |]. split; [assumption |]. split; [lia |].
    now apply Hfin.
  - destruct (binary_round_aux_below q (ex - ey - 53) (new_location (Z.pos my) rem) 54
                4503599627370496 (-52))
      as (m' & e' & Hres & Hdm & He & Hcmp); try lia; try reflexivity.
    exists m', e'. split; [exact Hres |]. split; [assumption |]. split; [lia |].
    now apply Hfin.
Qed.

Lemma unit_ratio (r RM : Z) :
  0 <= r <= RM -> 0 < RM < 2 ^ 53 ->
  unit_interval (double_of_int r / double_of_int RM).
Proof.
  intros Hr HRM.
  destruct (double_of_int_exact RM HRM) as (my & ey & Hy & Hdy & Hey & Hmy).
  destruct (Z.eq_dec r 0) as [-> | Hr0].
  { left. rewrite div_spec, double_of_int_zero, Hy. reflexivity. }
  destruct (Z.eq_dec r RM) as [-> | HrRM].
  { right. left. apply Prim2SF_inj. rewrite div_spec, Hy.
    unfold SF64div. rewrite (SFdiv_self my ey Hdy). reflexivity. }
  destruct (double_of_int_exact r ltac:(lia)) as (mx & ex & Hx & Hdx & Hex & Hmx).
  pose proof (digits2_pos_bounds mx) as [Xlo Xhi]. rewrite Hdx in Xlo, Xhi.
  pose proof (digits2_pos_bounds my) as [Ylo Yhi]. rewrite Hdy in Ylo, Yhi.
  change (2 ^ (53 - 1)) with 4503599627370496 in *.
  (* the smaller integer has the smaller exponent *)
  assert (Hexy : ex <= ey).
  { destruct (Z.le_gt_cases ex ey); [assumption | exfalso].
    assert (E : 2 ^ (- ey) = 2 ^ (- ex) * 2 ^ (ex - ey)).
    { rewrite <- Z.pow_add_r by lia. f_equal. lia. }
    assert (2 ^ 1 <= 2 ^ (ex - ey)) by (apply Z.pow_le_mono_r; lia).
    change (2 ^ 1) with 2 in *.
    assert (0 < 2 ^ (- ex)) by (apply Z.pow_pos_nonneg; lia).
    change (2 ^ 53) with 9007199254740992 in *.
    rewrite E in Hmy. nia. }
  assert (Hval : Z.pos mx < 2 ^ (ey - ex) * Z.pos my).
  { assert (E : 2 ^ (- ex) = 2 ^ (ey - ex) * 2 ^ (- ey)).
    { rewrite <- Z.pow_add_r by lia. f_equal. lia. }
    assert (0 < 2 ^ (- ey)) by (apply Z.pow_pos_nonneg; lia).
    assert (0 < 2 ^ (ey - ex)) by (apply Z.pow_pos_nonneg; lia).
    rewrite Hmx, Hmy, E. nia. }
  destruct (SFdiv_below mx my ex ey Hdx Hdy ltac:(lia) Hexy ltac:(lia) Hval)
    as (m & e & Hres & Hdm & He & Hcmp).
  destruct Hcmp as [Hlt | [-> ->]].
  - right. right. exists m, e. rewrite div_spec, Hx, Hy.
    split; [exact Hres |]. split; [assumption | lia].
  - right. left. apply Prim2SF_inj. rewrite div_spec, Hx, Hy.
    unfold SF64div. rewrite Hres. reflexivity.
Qed.

Lemma Prim2SF_07 : Prim2SF 0.7%float = S754_finite false 6305039478318694 (-53).
Proof. reflexivity. Qed.

Lemma SFleb_finite (m mb : positive) (e eb : Z) :
  e < eb \/ (e = eb /\ Z.pos m <= Z.pos mb) ->
  SFleb (S754_finite false m e) (S754_finite false mb eb) = true.
Proof.
  intros H. unfold SFleb. cbn [SFcompare].
  change (PosDef.Pos.compare_cont Eq m mb) with (Pos.compare m mb).
  destruct H as [Hlt | [-> Hle]].
  - apply Z.compare_lt_iff in Hlt. now rewrite Hlt.
  - rewrite Z.compare_refl.
    destruct (Pos.compare_spec m mb) as [E | E | E]; try reflexivity. lia.
Qed.

(** A number of the unit interval scaled by [0.7] is in [[0, 0.7]]. *)
Lemma scale_unit_interval (u : float) :
  unit_interval u ->
  SFsigned false (Prim2SF (0.7 * u)%float) /\ (0.7 * u <=? 0.7)%float = true.
Proof.
  intros Hu. split.
  - rewrite FloatAxioms.mul_spec, Prim2SF_07. unfold SF64mul.
    apply (SFmul_signed _ _ false 6305039478318694 (-53)); [| reflexivity].
    destruct Hu as [Hz | [-> | (m & e & Hm & _)]].
    + now rewrite Hz.
    + reflexivity.
    + now rewrite Hm.
  - destruct Hu as [Hz | [-> | (m & e & Hm & Hd & He)]].
    + rewrite FloatAxioms.leb_spec, FloatAxioms.mul_spec, Prim2SF_07, Hz. reflexivity.
    + rewrite float_mul_1_r. reflexivity.
    + rewrite FloatAxioms.leb_spec, FloatAxioms.mul_spec, Prim2SF_07, Hm.
      unfold SF64mul. cbn [SFmul xorb].
      pose proof (digits2_pos_bounds m) as [Mlo Mhi]. rewrite Hd in Mlo, Mhi.
      change (2 ^ (53 - 1)) with 4503599627370496 in Mlo.
      change (2 ^ 53) with 9007199254740992 in Mhi.
      rewrite Pos2Z.inj_mul.
      assert (Hp : 9007199254740992 <= 2 ^ (- e)).
      { change 9007199254740992 with (2 ^ 53). apply Z.pow_le_mono_r; lia. }
      assert (Hb : Z.pos 6305039478318694 * Z.pos m <
                   Z.pos 6305039478318694 * 2 ^ (-53 - (-53 + e))).
      { replace (-53 - (-53 + e)) with (- e) by lia. nia. }
      assert (Hlo : 2 ^ 104 <= Z.pos 6305039478318694 * Z.pos m).
      { change (2 ^ 104) with (4503599627370496 * 4503599627370496). nia. }
      assert (Hhi : Z.pos 6305039478318694 * Z.pos m < 2 ^ 106).
      { change (2 ^ 106) with (9007199254740992 * 9007199254740992). nia. }
      destruct (Z.lt_ge_cases (Z.pos 6305039478318694 * Z.pos m) (2 ^ 105)) as [Hs | Hbg].
      * destruct (binary_round_aux_below (Z.pos 6305039478318694 * Z.pos m) (-53 + e)
                    loc_Exact 105 6305039478318694 (-53))
          as (m' & e' & Hres & Hdm & He' & Hcmp); try lia; try reflexivity.
        rewrite Hres. now apply SFleb_finite.
      * destruct (binary_round_aux_below (Z.pos 6305039478318694 * Z.pos m) (-53 + e)
                    loc_Exact 106 6305039478318694 (-53))
          as (m' & e' & Hres & Hdm & He' & Hcmp); try lia; try reflexivity.
        rewrite Hres. now apply SFleb_finite.
Qed.

Lemma unit_interval_signed (u : float) :
  unit_interval u -> SFsigned false (Prim2SF u) /\ (u <=? 1)%float = true.
Proof.
  intros [Hz | [-> | (m & e & Hm & Hd & He)]].
  - rewrite FloatAxioms.leb_spec, Hz. split; reflexivity.
  - split; reflexivity.
  - rewrite FloatAxioms.leb_spec, Hm, Prim2SF_one. split; [reflexivity |].
    apply SFleb_finite. left. lia.
Qed.

(** What a sign bit says in the order of doubles. *)
Lemma signed_nonneg (x : float) :
  SFsigned false (Prim2SF x) ->
  (0 <=? x)%float = true /\ (- x <=? 0)%float = true /\ abs x = x /\ abs (- x) = x.
Proof.
  intros H. repeat split.
  - rewrite FloatAxioms.leb_spec. now apply SFsigned_leb_zero.
  - rewrite FloatAxioms.leb_spec, opp_spec. now apply SFsigned_opp_leb_zero.
  - apply Prim2SF_inj. rewrite abs_spec.
    destruct (Prim2SF x) as [s | s | | s m e]; cbn [SFsigned] in H;
      try contradiction; subst; reflexivity.
  - apply Prim2SF_inj. rewrite abs_spec, opp_spec.
    destruct (Prim2SF x) as [s | s | | s m e]; cbn [SFsigned] in H;
      try contradiction; subst; reflexivity.
Qed.

(** ** The order of doubles *)

Lemma SFcompare_finite (s1 s2 : bool) (m1 m2 : positive) (e1 e2 : Z) :
  SFcompare (S754_finite s1 m1 e1) (S754_finite s2 m2 e2) =
  Some match s1, s2 with
       | true, false => Lt
       | false, true => Gt
       | false, false =>
           match e1 ?= e2 with
           | Lt => Lt
           | Gt => Gt
           | Eq => Pos.compare m1 m2
           end
       | true, true =>
           match e1 ?= e2 with
           | Lt => Gt
           | Gt => Lt
           | Eq => CompOpp (Pos.compare m1 m2)
           end
       end.
Proof. reflexivity. Qed.

(** [<] and [<=] on doubles chain as on numbers. *)
Lemma SFcompare_trans (a b c : spec_float) (r : comparison) :
  SFcompare a b = Some Lt ->
  SFcompare b c = Some r -> r <> Gt ->
  SFcompare a c = Some Lt.
Proof.
  destruct a as [sa | sa | | sa ma ea], b as [sb | sb | | sb mb eb],
    c as [sc | sc | | sc mc ec];
    rewrite ?SFcompare_finite; cbn [SFcompare];
    try discriminate;
    try (destruct sa; discriminate); try (destruct sb; discriminate);
    try (destruct sa, sb; discriminate);
    intros H1 H2 Hr.
  all: try (destruct sa, sb, sc; cbn in *; congruence).
  all: try (destruct sa, sb; cbn in *; congruence).
  all: try (destruct sb, sc; cbn in *; congruence).
  all: try (destruct sa, sc; cbn in *; congruence).
  injection H1 as H1. injection H2 as H2. subst r. f_equal.
  destruct sa, sb, sc; try congruence;
    destruct (Z.compare_spec ea eb), (Z.compare_spec eb ec), (Z.compare_spec ea ec);
    try lia; try congruence; subst;
    destruct (Pos.compare_spec ma mb), (Pos.compare_spec mb mc), (Pos.compare_spec ma mc);
    cbn [CompOpp] in *; try congruence; try lia.
Qed.

Lemma float_ltb_trans (x y z : float) :
  (x <? y)%float = true -> (y <? z)%float = true -> (x <? z)%float = true.
Proof.
  rewrite !FloatAxioms.ltb_spec. unfold SFltb.
  destruct (SFcompare (Prim2SF x) (Prim2SF y)) as [[]|] eqn:E1; try discriminate.
  destruct (SFcompare (Prim2SF y) (Prim2SF z)) as [[]|] eqn:E2; try discriminate.
  intros _ _. now rewrite (SFcompare_trans _ _ _ Lt E1 E2).
Qed.

Lemma float_ltb_leb_trans (x y z : float) :
  (x <? y)%float = true -> (y <=? z)%float = true -> (x <? z)%float = true.
Proof.
  rewrite !FloatAxioms.ltb_spec, FloatAxioms.leb_spec. unfold SFltb, SFleb.
  destruct (SFcompare (Prim2SF x) (Prim2SF y)) as [[]|] eqn:E1; try discriminate.
  destruct (SFcompare (Prim2SF y) (Prim2SF z)) as [[]|] eqn:E2; try discriminate;
    intros _ _.
  - now rewrite (SFcompare_trans _ _ _ Eq E1 E2).
  - now rewrite (SFcompare_trans _ _ _ Lt E1 E2).
Qed.

Lemma float_ltb_irrefl (x : float) : (x <? x)%float = false.
Proof.
  destruct (x <? x)%float eqn:E; [| reflexivity].
  pose proof (float_ltb_asym x x E). congruence.
Qed.

Lemma float_ltb_leb (x y : float) :
  (x <? y)%float = true -> (x <=? y)%float = true.
Proof.
  rewrite FloatAxioms.ltb_spec, FloatAxioms.leb_spec. unfold SFltb, SFleb.
  destruct (SFcompare (Prim2SF x) (Prim2SF y)) as [[]|]; congruence.
Qed.

(** ** Percentages *)

Lemma Prim2SF_100 : Prim2SF 100%float = S754_finite false 7036874417766400 (-46).
Proof. reflexivity. Qed.

Lemma SFmul_comm (x y : spec_float) : SFmul prec emax x y = SFmul prec emax y x.
Proof.
  destruct x as [sx | sx | | sx mx ex], y as [sy | sy | | sy my ey];
    cbn [SFmul]; rewrite ?(xorb_comm sx sy); try reflexivity.
  now rewrite (Pos.mul_comm mx my), (Z.add_comm ex ey).
Qed.

Lemma float_mul_comm (x y : float) : (x * y)%float = (y * x)%float.
Proof.
  apply Prim2SF_inj. rewrite !FloatAxioms.mul_spec. apply SFmul_comm.
Qed.

(** A number of the unit interval scaled by a positive double [c] is zero,
    [c] itself, or a 53-digit number that is at most [c]. *)
Lemma unit_interval_scaled (c : float) (mc : positive) (ec : Z) (u : float) :
  Prim2SF c = S754_finite false mc ec ->
  Z.pos (digits2_pos mc) = 53 -> -926 <= ec <= 970 ->
  unit_interval u ->
  Prim2SF (u * c)%float = S754_zero false \/
  (u * c)%float = c \/
  exists m e,
    Prim2SF (u * c)%float = S754_finite false m e /\
    Z.pos (digits2_pos m) = 53 /\
    (e < ec \/ (e = ec /\ Z.pos m <= Z.pos mc)).
Proof.
  intros Hc Hdc Hec [Hz | [-> | (m & e & Hm & Hd & He)]].
  - left. rewrite FloatAxioms.mul_spec, Hz, Hc. reflexivity.
  - right. left. rewrite float_mul_comm. apply float_mul_1_r.
  - right. right.
    rewrite FloatAxioms.mul_spec, Hm, Hc. unfold SF64mul. cbn [SFmul xorb].
    pose proof (digits2_pos_bounds m) as [Mlo Mhi]. rewrite Hd in Mlo, Mhi.
    pose proof (digits2_pos_bounds mc) as [Clo Chi]. rewrite Hdc in Clo, Chi.
    change (2 ^ (53 - 1)) with 4503599627370496 in *.
    change (2 ^ 53) with 9007199254740992 in *.
    rewrite Pos2Z.inj_mul.
    assert (Hp : 9007199254740992 <= 2 ^ (- e)).
    { change 9007199254740992 with (2 ^ 53). apply Z.pow_le_mono_r; lia. }
    assert (Hb : Z.pos m * Z.pos mc < Z.pos mc * 2 ^ (ec - (e + ec))).
    { replace (ec - (e + ec)) with (- e) by lia. nia. }
    assert (Hlo : 2 ^ 104 <= Z.pos m * Z.pos mc).
    { change (2 ^ 104) with (4503599627370496 * 4503599627370496). nia. }
    assert (Hhi : Z.pos m * Z.pos mc < 2 ^ 106).
    { change (2 ^ 106) with (9007199254740992 * 9007199254740992). nia. }
    destruct (Z.lt_ge_cases (Z.pos m * Z.pos mc) (2 ^ 105)) as [Hs | Hbg].
    + destruct (binary_round_aux_below (Z.pos m * Z.pos mc) (e + ec)
                  loc_Exact 105 mc ec)
        as (m' & e' & Hres & Hdm & He' & Hcmp);
        [lia | split; lia | lia | assumption | lia | exact Hb |].
      exists m', e'. rewrite Hres. split; [reflexivity |]. split; assumption.
    + destruct (binary_round_aux_below (Z.pos m * Z.pos mc) (e + ec)
                  loc_Exact 106 mc ec)
        as (m' & e' & Hres & Hdm & He' & Hcmp);
        [lia | split; lia | lia | assumption | lia | exact Hb |].
      exists m', e'. rewrite Hres. split; [reflexivity |]. split; assumption.
Qed.

Lemma int_of_double_percent (x : float) :
  Prim2SF x = S754_zero false \/
  x = 100%float \/
  (exists m e,
     Prim2SF x = S754_finite false m e /\
     Z.pos (digits2_pos m) = 53 /\
     (e < -46 \/ (e = -46 /\ Z.pos m <= 7036874417766400))) ->
  exists p, int_of_double x = Some p /\ 0 <= p <= 100.
Proof.
  intros [Hz | [-> | (m & e & Hm & Hd & He)]].
  - exists 0. unfold int_of_double. rewrite Hz. split; [reflexivity | lia].
  - exists 100. split; [reflexivity | lia].
  - unfold int_of_double. rewrite Hm.
    pose proof (digits2_pos_bounds m) as [Mlo Mhi]. rewrite Hd in Mlo, Mhi.
    change (2 ^ 53) with 9007199254740992 in *.
    destruct (Z.leb_spec 0 e) as [He0 | He0]; [lia |]. cbv zeta.
    assert (Hq : 0 <= Z.pos m / 2 ^ (- e) <= 100).
    { assert (H46 : 2 ^ 46 <= 2 ^ (- e)) by (apply Z.pow_le_mono_r; lia).
      assert (Hpos : 0 < 2 ^ (- e)) by (apply Z.pow_pos_nonneg; lia).
      split; [apply Z.div_pos; lia |].
      apply Z.div_le_upper_bound; [exact Hpos |].
      destruct He as [Hlt | [-> Hle]].
      - assert (2 ^ 47 <= 2 ^ (- e)) by (apply Z.pow_le_mono_r; lia).
        change (2 ^ 47) with 140737488355328 in *. lia.
      - change (2 ^ (- -46)) with 70368744177664. lia. }
    exists (Z.pos m / 2 ^ (- e)). split; [| exact Hq].
    unfold INT_MIN, INT_MAX.
    destruct (Z.leb_spec (- 2147483648) (Z.pos m / 2 ^ (- e))); [| lia].
    destruct (Z.leb_spec (Z.pos m / 2 ^ (- e)) 2147483647); [| lia].
    reflexivity.
Qed.

(** * The operations on a well-formed arena *)

Section Operations.

Variable c_tanh : float -> float.
Variable c_exp : float -> float.
Variable c_pow : float -> float -> float.

Variables (ni nh no : Z).

#[local] Abbreviation node_params := (node_params ni nh no).
#[local] Abbreviation node_field := (node_field ni nh no).
#[local] Abbreviation weighted_sum := (weighted_sum ni nh no).
#[local] Abbreviation outputs_below := (outputs_below ni nh no).
#[local] Abbreviation layer_outputs := (layer_outputs ni nh no).
#[local] Abbreviation params_below := (params_below ni nh no).
#[local] Abbreviation layer_params := (layer_params ni nh no).
#[local] Abbreviation errorSignalOf := (errorSignalOf c_tanh c_pow).
#[local] Abbreviation error_sum := (error_sum c_tanh c_pow no).
#[local] Abbreviation hiddenErrorSignalOf := (hiddenErrorSignalOf c_tanh c_pow no).
#[local] Abbreviation evolves := (evolves ni nh no).
#[local] Abbreviation run_operation := (run_operation c_tanh c_exp c_pow).
#[local] Abbreviation run_operations := (run_operations c_tanh c_exp c_pow).
#[local] Abbreviation admissible := (admissible ni).

Lemma updateNodeWeights_spec (nn : Network) (L : LayerType) (id : Z) (e : float) :
  wf nn ni nh no -> 0 <= id < ncountOf ni nh no L ->
  exists nn',
    updateNodeWeights nn L id e = Some nn' /\
    frame nn nn' (node_params nn L id) /\
    (forall k, 0 <= k < wcountOf ni nh no L ->
       rd nn' (slot nn L id (FWeight k)) =
       Some (rdd nn (slot nn L id (FWeight k)) +
             learningRate nn * rdd nn (slot nn (prevOf L) k FOutput) * e)%float) /\
    rd nn' (slot nn L id FBias) =
    Some (rdd nn (slot nn L id FBias) + learningRate nn * 1 * e)%float.
Proof.
  intros Hwf Hid.
  unfold updateNodeWeights.
  rewrite (wf_getNode nn ni nh no Hwf) by (cbn [ncountOf] in *; lia). cbn [obind].
  rewrite (wf_prevLayerOf nn L).
  rewrite (wf_wcount nn ni nh no Hwf L id Hid). cbn [obind].
  set (P := fun (j : Z) (st : Z * Network) =>
    fst st = getLayer nn (prevOf L) + off_nodes + j * nodeSizeOf nn (prevOf L) /\
    frame nn (snd st)
      (fun a => exists k, 0 <= k < j /\ a = slot nn L id (FWeight k)) /\
    forall k, 0 <= k < j ->
      rd (snd st) (slot nn L id (FWeight k)) =
      Some (rdd nn (slot nn L id (FWeight k)) +
            learningRate nn * rdd nn (slot nn (prevOf L) k FOutput) * e)%float).
  match goal with
  | |- context [for_lt ?n ?b ?s] =>
      destruct (for_lt_inv P b n s) as [[sb nn1] [Hloop (Hsb & Hfr & Hval)]]
  end.
  - apply (wcountOf_nonneg nn ni nh no Hwf).
  - unfold P. cbn [fst snd]. split; [lia |]. split.
    + apply frame_refl.
    + intros k Hk. lia.
  - intros j [sb t] Hj (Hsb & Hfr & Hval). cbn [fst snd] in *.
    assert (HL : L <> INPUT) by (intros ->; cbn [wcountOf] in Hj; lia).
    assert (Hvj : valid_slot ni nh no L id (FWeight j)) by (split; assumption).
    assert (Hvp : valid_slot ni nh no (prevOf L) j FOutput).
    { split; [| exact I]. rewrite <- (wcountOf_prev ni nh no L HL). assumption. }
    assert (Hw : rd t (slot nn L id (FWeight j)) = Some (rdd nn (slot nn L id (FWeight j)))).
    { rewrite (frame_rd _ _ _ _ Hfr).
      - apply (wf_rd nn ni nh no Hwf). assumption.
      - intros [k [Hk Ek]].
        apply (slot_inj nn ni nh no Hwf) in Ek; [| assumption | split; [assumption | lia]].
        destruct Ek as (_ & _ & Ek). injection Ek. lia. }
    assert (Hx : rd t (sb + off_output) = Some (rdd nn (slot nn (prevOf L) j FOutput))).
    { subst sb. change (getLayer nn (prevOf L) + off_nodes + j * nodeSizeOf nn (prevOf L) + off_output)
        with (slot nn (prevOf L) j FOutput).
      rewrite (frame_rd _ _ _ _ Hfr).
      - apply (wf_rd nn ni nh no Hwf). assumption.
      - intros [k [Hk Ek]].
        apply (slot_inj nn ni nh no Hwf) in Ek; [| assumption | split; [assumption | lia]].
        destruct Ek as (_ & _ & Ek). discriminate. }
    change (weight_at (node_at nn L id) j) with (slot nn L id (FWeight j)).
    unfold rd in Hw, Hx. rewrite Hw, Hx. cbn [obind].
    eexists. split; [reflexivity |].
    unfold P. cbn [fst snd]. split; [lia |]. split.
    + eapply frame_trans.
      * eapply frame_weaken; [| exact Hfr].
        intros a [k [Hk Ek]]. exists k. split; [lia | assumption].
      * apply frame_poke. exists j. split; [lia | reflexivity].
    + intros k Hk. destruct (Z.eq_dec k j) as [-> | Hne].
      * rewrite rd_poke_same. destruct Hfr as [Hh _].
        destruct Hh as (_ & _ & _ & _ & _ & _ & Hlr & _). now rewrite Hlr.
      * rewrite rd_poke_other.
        -- apply Hval. lia.
        -- intros Ek.
           apply (slot_inj nn ni nh no Hwf) in Ek;
             [| split; [assumption | lia] | assumption].
           destruct Ek as (_ & _ & Ek). injection Ek. lia.
  - rewrite Hloop. cbn [obind fst snd] in *.
    assert (Hvb : valid_slot ni nh no L id FBias) by (split; [assumption | exact I]).
    assert (Hb : rd nn1 (slot nn L id FBias) = Some (rdd nn (slot nn L id FBias))).
    { rewrite (frame_rd _ _ _ _ Hfr).
      - apply (wf_rd nn ni nh no Hwf). assumption.
      - intros [k [Hk Ek]].
        apply (slot_inj nn ni nh no Hwf) in Ek; [| assumption | split; [assumption | lia]].
        destruct Ek as (_ & _ & Ek). discriminate. }
    change (node_at nn L id + off_bias) with (slot nn L id FBias).
    unfold rd in Hb. rewrite Hb. cbn [obind].
    eexists. split; [reflexivity |].
    assert (Hlr : learningRate nn1 = learningRate nn).
    { destruct Hfr as [Hh _]. destruct Hh as (_ & _ & _ & _ & _ & _ & Hlr & _). exact Hlr. }
    split; [| split].
    + eapply frame_trans.
      * eapply frame_weaken; [| exact Hfr].
        intros a [k [Hk Ek]]. right. exists k. split; [lia | assumption].
      * apply frame_poke. left. reflexivity.
    + intros k Hk. rewrite rd_poke_other.
      * apply Hval. assumption.
      * intros Ek.
        apply (slot_inj nn ni nh no Hwf) in Ek;
          [| split; assumption | assumption].
        destruct Ek as (_ & _ & Ek). discriminate.
    + rewrite rd_poke_same. now rewrite Hlr.
Qed.

Lemma rd_some_is_dbl (nn : Network) (a : Z) (d : float) :
  rd nn a = Some d -> is_dbl (layers nn a) = true.
Proof. unfold rd, load_dbl. destruct (layers nn a); simpl; congruence. Qed.

Lemma frame_fields_shape (nn nn' : Network) (W : Z -> Prop) :
  wf nn ni nh no ->
  frame nn nn' W ->
  (forall a, W a -> node_field nn a) ->
  (forall a, W a -> exists d, rd nn' a = Some d) ->
  same_shape nn nn'.
Proof.
  intros Hwf Hfr HW Hd. apply (frame_same_shape nn nn' W Hfr).
  intros a Wa. split.
  - destruct (HW a Wa) as (L & i & f & Hv & ->).
    now apply (wf_slot_dbl nn ni nh no Hwf).
  - destruct (Hd a Wa) as [d Hda]. eapply rd_some_is_dbl; eauto.
Qed.

Lemma updateNodeWeights_shape (nn nn' : Network) (L : LayerType) (id : Z) (e : float) :
  wf nn ni nh no -> 0 <= id < ncountOf ni nh no L ->
  updateNodeWeights nn L id e = Some nn' ->
  same_shape nn nn' /\ frame nn nn' (node_params nn L id).
Proof.
  intros Hwf Hid Hrun.
  destruct (updateNodeWeights_spec nn L id e Hwf Hid) as (nn2 & Hrun2 & Hfr & Hw & Hb).
  rewrite Hrun in Hrun2. injection Hrun2 as <-.
  split; [| assumption].
  apply (frame_fields_shape nn nn' _ Hwf Hfr).
  - intros a [-> | [k [Hk ->]]].
    + exists L, id, FBias. split; [split; [assumption | exact I] | reflexivity].
    + exists L, id, (FWeight k). split; [split; assumption | reflexivity].
  - intros a [-> | [k [Hk ->]]]; eexists; eauto.
Qed.

(** ** Forward pass *)

Lemma Zrange_succ (j : Z) : 0 <= j -> Zrange (j + 1) = Zrange j ++ [j].
Proof.
  intros Hj. unfold Zrange.
  replace (Z.to_nat (j + 1)) with (S (Z.to_nat j)) by lia.
  rewrite seq_S, map_app. cbn [map Nat.add]. now rewrite Z2Nat.id by assumption.
Qed.

Lemma fold_left_ext_in {A B : Type} (f g : A -> B -> A) (l : list B) :
  (forall a b, In b l -> f a b = g a b) ->
  forall a, fold_left f l a = fold_left g l a.
Proof.
  induction l as [|b l IH]; intros H a; cbn [fold_left]; [reflexivity |].
  rewrite H by (left; reflexivity). apply IH.
  intros a' b' Hb'. apply H. now right.
Qed.

Lemma calcNodeOutput_spec (nn : Network) (L : LayerType) (id : Z) :
  wf nn ni nh no -> L <> INPUT -> 0 <= id < ncountOf ni nh no L ->
  exists nn',
    calcNodeOutput nn L id = Some nn' /\
    frame nn nn' (fun a => a = slot nn L id FOutput) /\
    rd nn' (slot nn L id FOutput) = Some (weighted_sum nn L id).
Proof.
  intros Hwf HL Hid.
  assert (Hvo : valid_slot ni nh no L id FOutput) by (split; [assumption | exact I]).
  assert (Hvb : valid_slot ni nh no L id FBias) by (split; [assumption | exact I]).
  unfold calcNodeOutput.
  rewrite (wf_getNode nn ni nh no Hwf) by (cbn [ncountOf] in *; lia). cbn [obind].
  rewrite (wf_prevLayerOf nn L).
  change (node_at nn L id + off_bias) with (slot nn L id FBias).
  change (node_at nn L id + off_output) with (slot nn L id FOutput).
  pose proof (wf_rd nn ni nh no Hwf L id FBias Hvb) as Hb. unfold rd in Hb.
  rewrite Hb. cbn [obind].
  set (nn0 := poke nn (slot nn L id FOutput) (rdd nn (slot nn L id FBias))).
  assert (Hsh0 : same_shape nn nn0).
  { apply same_shape_poke. now apply (wf_slot_dbl nn ni nh no Hwf). }
  rewrite (same_shape_load_int nn nn0 _ _ Hsh0 (wf_ncount nn ni nh no Hwf (prevOf L))).
  cbn [obind].
  set (step := fun acc i =>
       (acc + rdd nn (slot nn (prevOf L) i FOutput) *
              rdd nn (slot nn L id (FWeight i)))%float).
  set (P := fun (j : Z) (st : Z * Network) =>
    fst st = getLayer nn (prevOf L) + off_nodes + j * nodeSizeOf nn (prevOf L) /\
    frame nn (snd st) (fun a => a = slot nn L id FOutput) /\
    rd (snd st) (slot nn L id FOutput) =
    Some (fold_left step (Zrange j) (rdd nn (slot nn L id FBias)))).
  match goal with
  | |- context [for_lt ?n ?b ?s] =>
      destruct (for_lt_inv P b n s) as [[sb nn1] [Hloop (Hsb & Hfr & Hval)]]
  end.
  - pose proof (ncountOf_pos nn ni nh no Hwf (prevOf L)). lia.
  - unfold P. cbn [fst snd]. split; [lia |]. split.
    + apply frame_poke. reflexivity.
    + unfold nn0. now rewrite rd_poke_same.
  - intros j [sb t] Hj (Hsb & Hfr & Hval). cbn [fst snd] in *.
    assert (Hvj : valid_slot ni nh no L id (FWeight j)).
    { split; [assumption |]. rewrite (wcountOf_prev ni nh no L HL). assumption. }
    assert (Hvp : valid_slot ni nh no (prevOf L) j FOutput) by (split; [assumption | exact I]).
    assert (Hx : rd t (sb + off_output) = Some (rdd nn (slot nn (prevOf L) j FOutput))).
    { subst sb. change (getLayer nn (prevOf L) + off_nodes + j * nodeSizeOf nn (prevOf L) + off_output)
        with (slot nn (prevOf L) j FOutput).
      rewrite (frame_rd _ _ _ _ Hfr).
      - apply (wf_rd nn ni nh no Hwf). assumption.
      - intros Ek.
        apply (slot_inj nn ni nh no Hwf) in Ek; [| assumption | assumption].
        destruct Ek as (Ek & _). destruct L; simpl in Ek; congruence. }
    assert (Hw : rd t (slot nn L id (FWeight j)) = Some (rdd nn (slot nn L id (FWeight j)))).
    { rewrite (frame_rd _ _ _ _ Hfr).
      - apply (wf_rd nn ni nh no Hwf). assumption.
      - intros Ek.
        apply (slot_inj nn ni nh no Hwf) in Ek; [| assumption | assumption].
        destruct Ek as (_ & _ & Ek). discriminate. }
    change (weight_at (node_at nn L id) j) with (slot nn L id (FWeight j)).
    unfold rd in Hval, Hx, Hw. rewrite Hval, Hx, Hw. cbn [obind].
    eexists. split; [reflexivity |].
    unfold P. cbn [fst snd]. split; [lia |]. split.
    + eapply frame_trans; [exact Hfr |]. apply frame_poke. reflexivity.
    + rewrite rd_poke_same. rewrite Zrange_succ by lia.
      rewrite fold_left_app. reflexivity.
  - rewrite Hloop. cbn [obind fst snd] in *.
    exists nn1. split; [reflexivity |]. split; assumption.
Qed.

Lemma activateNode_spec (nn : Network) (L : LayerType) (id : Z) :
  wf nn ni nh no -> 0 <= id < ncountOf ni nh no L ->
  exists nn',
    activateNode c_tanh c_exp nn L id = Some nn' /\
    frame nn nn' (fun a => a = slot nn L id FOutput) /\
    rd nn' (slot nn L id FOutput) =
    Some (activation c_tanh c_exp nn L (rdd nn (slot nn L id FOutput))).
Proof.
  intros Hwf Hid.
  assert (Hvo : valid_slot ni nh no L id FOutput) by (split; [assumption | exact I]).
  unfold activateNode.
  rewrite (wf_getNode nn ni nh no Hwf) by (cbn [ncountOf] in *; lia). cbn [obind].
  change (node_at nn L id + off_output) with (slot nn L id FOutput).
  pose proof (wf_rd nn ni nh no Hwf L id FOutput Hvo) as Ho. unfold rd in Ho.
  rewrite Ho. cbn [obind].
  eexists. split; [reflexivity |]. split.
  - apply frame_poke. reflexivity.
  - now rewrite rd_poke_same.
Qed.

Lemma frame_rdd (nn nn' : Network) (W : Z -> Prop) (a : Z) :
  frame nn nn' W -> ~ W a -> rdd nn' a = rdd nn a.
Proof. intros Hfr Ha. unfold rdd. now rewrite (frame_rd _ _ _ _ Hfr Ha). Qed.

Lemma frame_header (nn nn' : Network) (W : Z -> Prop) :
  frame nn nn' W -> same_header nn nn'.
Proof. now intros [H _]. Qed.

Lemma activation_header (nn nn' : Network) (L : LayerType) (x : float) :
  same_header nn nn' ->
  activation c_tanh c_exp nn' L x = activation c_tanh c_exp nn L x.
Proof. intros H. unfold activation. now rewrite (same_header_actFctOf _ _ _ H). Qed.

Lemma outputs_below_field (nn : Network) (L : LayerType) (j a : Z) :
  outputs_below nn L j a -> node_field nn a.
Proof.
  intros (i & Hi & Hn & ->). exists L, i, FOutput.
  split; [split; [lia | exact I] | reflexivity].
Qed.

Lemma prevOf_neq (L : LayerType) : L <> INPUT -> prevOf L <> L.
Proof. destruct L; simpl; congruence. Qed.

(** A weighted sum of layer [L] does not read the outputs of layer [L]. *)
Lemma weighted_sum_frame (nn t : Network) (L : LayerType) (j id : Z) :
  wf nn ni nh no -> L <> INPUT -> 0 <= id < ncountOf ni nh no L ->
  frame nn t (outputs_below nn L j) ->
  weighted_sum t L id = weighted_sum nn L id.
Proof.
  intros Hwf HL Hid Hfr.
  pose proof (frame_header _ _ _ Hfr) as Hh.
  unfold weighted_sum. rewrite !(same_header_slot _ _ _ _ _ Hh).
  assert (Hb : rdd t (slot nn L id FBias) = rdd nn (slot nn L id FBias)).
  { apply (frame_rdd _ _ _ _ Hfr). intros (i & Hi & Hn & E).
    apply (slot_inj nn ni nh no Hwf) in E;
      [| split; [assumption | exact I] | split; [lia | exact I]].
    destruct E as (_ & _ & E). discriminate. }
  rewrite Hb. apply fold_left_ext_in.
  intros acc i Hi. apply in_Zrange in Hi.
  rewrite !(same_header_slot _ _ _ _ _ Hh).
  f_equal. f_equal.
  - apply (frame_rdd _ _ _ _ Hfr). intros (i' & Hi' & Hn & E).
    apply (slot_inj nn ni nh no Hwf) in E;
      [| split; [assumption | exact I] | split; [lia | exact I]].
    destruct E as (E & _). now apply (prevOf_neq L HL).
  - apply (frame_rdd _ _ _ _ Hfr). intros (i' & Hi' & Hn & E).
    apply (slot_inj nn ni nh no Hwf) in E;
      [| split; [assumption | rewrite (wcountOf_prev ni nh no L HL); assumption]
       | split; [lia | exact I]].
    destruct E as (_ & _ & E). discriminate.
Qed.

Lemma calcLayer_spec (nn : Network) (L : LayerType) :
  wf nn ni nh no -> L <> INPUT ->
  exists nn',
    calcLayer c_tanh c_exp nn L = Some nn' /\
    frame nn nn' (layer_outputs nn L) /\
    same_shape nn nn' /\
    forall i, 0 <= i < ncountOf ni nh no L ->
      rd nn' (slot nn L i FOutput) =
      Some (activation c_tanh c_exp nn L (weighted_sum nn L i)).
Proof.
  intros Hwf HL. unfold calcLayer.
  rewrite (wf_ncount nn ni nh no Hwf L). cbn [obind].
  set (P := fun (j : Z) (t : Network) =>
    frame nn t (outputs_below nn L j) /\
    same_shape nn t /\
    forall i, 0 <= i < j ->
      rd t (slot nn L i FOutput) =
      Some (activation c_tanh c_exp nn L (weighted_sum nn L i))).
  match goal with
  | |- context [for_lt ?n ?b ?s] =>
      destruct (for_lt_inv P b n s) as [nn1 [Hloop (Hfr & Hsh & Hval)]]
  end.
  - pose proof (ncountOf_pos nn ni nh no Hwf L). lia.
  - unfold P. split; [apply frame_refl |]. split; [apply same_shape_refl |].
    intros i Hi. lia.
  - intros j t Hj (Hfr & Hsh & Hval).
    pose proof (same_shape_wf _ _ _ _ _ Hsh Hwf) as Hwt.
    pose proof (frame_header _ _ _ Hfr) as Hh.
    destruct (calcNodeOutput_spec t L j Hwt HL Hj) as (t1 & Hc & Hfr1 & Hv1).
    rewrite (same_header_slot _ _ _ _ _ Hh) in Hfr1, Hv1.
    assert (Hsh1 : same_shape t t1).
    { apply (frame_fields_shape t t1 _ Hwt Hfr1).
      - intros a ->. exists L, j, FOutput.
        split; [split; [assumption | exact I] |].
        now rewrite (same_header_slot _ _ _ _ _ Hh).
      - intros a ->. eauto. }
    pose proof (same_shape_wf _ _ _ _ _ Hsh1 Hwt) as Hwt1.
    pose proof (frame_header _ _ _ Hfr1) as Hh1.
    destruct (activateNode_spec t1 L j Hwt1 Hj) as (t2 & Ha & Hfr2 & Hv2).
    pose proof (same_header_trans _ _ _ Hh Hh1) as Hh01.
    rewrite (same_header_slot _ _ _ _ _ Hh01) in Hfr2, Hv2.
    assert (Hsh2 : same_shape t1 t2).
    { apply (frame_fields_shape t1 t2 _ Hwt1 Hfr2).
      - intros a ->. exists L, j, FOutput.
        split; [split; [assumption | exact I] |].
        now rewrite (same_header_slot _ _ _ _ _ Hh01).
      - intros a ->. eauto. }
    rewrite Hc. cbn [obind]. exists t2. split; [exact Ha |].
    unfold P. split; [| split].
    + eapply frame_trans; [eapply frame_trans |].
      * eapply frame_weaken; [| exact Hfr].
        intros a (i & Hi & Hn & E). exists i. split; [lia | split; assumption].
      * eapply frame_weaken; [| exact Hfr1].
        intros a ->. exists j. split; [lia | split; [lia | reflexivity]].
      * eapply frame_weaken; [| exact Hfr2].
        intros a ->. exists j. split; [lia | split; [lia | reflexivity]].
    + eapply same_shape_trans; [exact Hsh |].
      eapply same_shape_trans; eassumption.
    + intros i Hi. destruct (Z.eq_dec i j) as [-> | Hne].
      * rewrite Hv2. f_equal.
        rewrite (activation_header _ _ _ _ Hh01). f_equal.
        rewrite (rd_rdd _ _ _ Hv1).
        apply (weighted_sum_frame nn t L j j Hwf HL Hj Hfr).
      * rewrite (frame_rd _ _ _ _ Hfr2).
        -- rewrite (frame_rd _ _ _ _ Hfr1).
           ++ apply Hval. lia.
           ++ intros E.
              apply (slot_inj nn ni nh no Hwf) in E;
                [| split; [lia | exact I] | split; [lia | exact I]].
              destruct E as (_ & E & _). contradiction.
        -- intros E.
           apply (slot_inj nn ni nh no Hwf) in E;
             [| split; [lia | exact I] | split; [lia | exact I]].
           destruct E as (_ & E & _). contradiction.
  - exists nn1. split; [exact Hloop |]. split; [exact Hfr |]. split; assumption.
Qed.

Lemma iter_from_monadic {St : Type} (body : Z -> St -> option St) :
  forall (k : nat) (i : Z) (o : option St),
    obind o (iter_from body i k) =
    fold_left (fun acc j => obind acc (body j))
              (map (fun x => i + Z.of_nat x) (seq 0 k)) o.
Proof.
  induction k as [|k IH]; intros i o.
  - destruct o; reflexivity.
  - cbn [seq map fold_left]. rewrite Z.add_0_r.
    rewrite <- seq_shift, map_map.
    erewrite map_ext; [rewrite <- (IH (i + 1)) |].
    + destruct o as [s|]; cbn [obind iter_from]; [| reflexivity].
      destruct (body i s); reflexivity.
    + intros x. cbn beta. lia.
Qed.

(** A counted loop runs its body over the indices in increasing order. *)
Lemma for_lt_monadic {St : Type} (body : Z -> St -> option St) (n : Z) (s : St) :
  for_lt n body s =
  fold_left (fun acc j => obind acc (body j)) (Zrange n) (Some s).
Proof.
  unfold for_lt, Zrange.
  change (iter_from body 0 (Z.to_nat n) s)
    with (obind (Some s) (iter_from body 0 (Z.to_nat n))).
  rewrite iter_from_monadic. reflexivity.
Qed.

Lemma feedForwardNetwork_spec (nn : Network) :
  wf nn ni nh no ->
  exists nn1 nn2,
    calcLayer c_tanh c_exp nn HIDDEN = Some nn1 /\
    calcLayer c_tanh c_exp nn1 OUTPUT = Some nn2 /\
    feedForwardNetwork c_tanh c_exp nn = Some nn2 /\
    same_shape nn nn1 /\ same_shape nn1 nn2 /\
    frame nn nn1 (layer_outputs nn HIDDEN) /\
    frame nn1 nn2 (layer_outputs nn OUTPUT) /\
    (forall h, 0 <= h < nh ->
       rd nn1 (slot nn HIDDEN h FOutput) =
       Some (activation c_tanh c_exp nn HIDDEN (weighted_sum nn HIDDEN h))) /\
    (forall o, 0 <= o < no ->
       rd nn2 (slot nn OUTPUT o FOutput) =
       Some (activation c_tanh c_exp nn OUTPUT (weighted_sum nn1 OUTPUT o))).
Proof.
  intros Hwf.
  destruct (calcLayer_spec nn HIDDEN Hwf ltac:(discriminate))
    as (nn1 & Hc1 & Hfr1 & Hsh1 & Hv1).
  pose proof (same_shape_wf _ _ _ _ _ Hsh1 Hwf) as Hwf1.
  pose proof (frame_header _ _ _ Hfr1) as Hh1.
  destruct (calcLayer_spec nn1 OUTPUT Hwf1 ltac:(discriminate))
    as (nn2 & Hc2 & Hfr2 & Hsh2 & Hv2).
  exists nn1, nn2. unfold feedForwardNetwork. rewrite Hc1. cbn [obind].
  split; [reflexivity |]. split; [assumption |]. split; [assumption |].
  split; [assumption |]. split; [assumption |]. split; [assumption |].
  split; [| split; [assumption |]].
  - split; [apply (frame_header _ _ _ Hfr2) |].
    destruct Hfr2 as [_ F]. intros a Ha. apply F. intros (i & Hi & Hn & E).
    apply Ha. exists i. rewrite (same_header_slot _ _ _ _ _ Hh1) in E. auto.
  - intros o Ho. specialize (Hv2 o Ho).
    rewrite (same_header_slot _ _ _ _ _ Hh1) in Hv2.
    rewrite Hv2. f_equal. apply (activation_header _ _ _ _ Hh1).
Qed.

(** C3: for a valid node of the hidden or output layer, [calcNodeOutput]
    leaves in [node.output] the bias plus, in index order, the product of each
    previous-layer output with the node's weight of that index (the previous
    layer of HIDDEN being INPUT and of OUTPUT being HIDDEN); and
    [feedForwardNetwork] is [calcLayer] on the hidden layer, which computes
    and activates the hidden nodes in index order, followed by [calcLayer] on
    the output layer, so every output node is computed from the activated
    outputs of all hidden nodes. *)
Theorem calcNodeOutput_feedForwardNetwork_order (nn : Network) :
  wf nn ni nh no ->
  prevOf HIDDEN = INPUT /\ prevOf OUTPUT = HIDDEN /\
  (forall L id, L <> INPUT -> 0 <= id < ncountOf ni nh no L ->
     exists nn',
       calcNodeOutput nn L id = Some nn' /\
       rd nn' (slot nn L id FOutput) =
       Some (fold_left
               (fun acc i =>
                  (acc + rdd nn (slot nn (prevOf L) i FOutput) *
                         rdd nn (slot nn L id (FWeight i)))%float)
               (Zrange (ncountOf ni nh no (prevOf L)))
               (rdd nn (slot nn L id FBias)))) /\
  exists nn1 nn2,
    calcLayer c_tanh c_exp nn HIDDEN = Some nn1 /\
    calcLayer c_tanh c_exp nn HIDDEN =
      fold_left
        (fun acc h =>
           t <- acc ;; t' <- calcNodeOutput t HIDDEN h ;;
           activateNode c_tanh c_exp t' HIDDEN h)
        (Zrange nh) (Some nn) /\
    calcLayer c_tanh c_exp nn1 OUTPUT = Some nn2 /\
    feedForwardNetwork c_tanh c_exp nn = Some nn2 /\
    (forall h, 0 <= h < nh ->
       rd nn1 (slot nn HIDDEN h FOutput) =
       Some (activation c_tanh c_exp nn HIDDEN (weighted_sum nn HIDDEN h)) /\
       rd nn2 (slot nn HIDDEN h FOutput) = rd nn1 (slot nn HIDDEN h FOutput)) /\
    (forall o, 0 <= o < no ->
       rd nn2 (slot nn OUTPUT o FOutput) =
       Some (activation c_tanh c_exp nn OUTPUT (weighted_sum nn1 OUTPUT o))).
Proof.
  intros Hwf. split; [reflexivity |]. split; [reflexivity |]. split.
  - intros L id HL Hid.
    destruct (calcNodeOutput_spec nn L id Hwf HL Hid) as (nn' & Hc & _ & Hv).
    exists nn'. split; assumption.
  - destruct (feedForwardNetwork_spec nn Hwf)
      as (nn1 & nn2 & Hc1 & Hc2 & Hff & Hsh1 & Hsh2 & Hfr1 & Hfr2 & Hv1 & Hv2).
    exists nn1, nn2.
    split; [assumption |]. split; [| split; [assumption |]; split; [assumption |]; split].
    + unfold calcLayer. rewrite (wf_ncount nn ni nh no Hwf HIDDEN). cbn [obind].
      apply for_lt_monadic.
    + intros h Hh. split; [now apply Hv1 |].
      apply (frame_rd _ _ _ _ Hfr2). intros (i & Hi & Hn & E).
      apply (slot_inj nn ni nh no Hwf) in E;
        [| split; [assumption | exact I] | split; [lia | exact I]].
      destruct E as (E & _). discriminate.
    + assumption.
Qed.

(** ** Delta rule *)

(** C4: [updateNodeWeights] adds [learningRate * previousLayerNode[i].output *
    errorSignal] to [weight[i]] for every connection [i] of the updated node,
    adds [learningRate * errorSignal] to its bias, and changes nothing else:
    the header is the same and so is every other cell of the arena.  A weight
    that was [w], with previous-layer output [x], error signal [e] and
    learning rate [r], is [w + r * x * e] afterwards, in the arithmetic of
    doubles. *)
Theorem updateNodeWeights_delta_rule (nn : Network) (L : LayerType) (id : Z)
  (e : float) :
  wf nn ni nh no -> 0 <= id < ncountOf ni nh no L ->
  exists nn',
    updateNodeWeights nn L id e = Some nn' /\
    (forall i, 0 <= i < wcountOf ni nh no L ->
       forall w x r,
         rd nn (slot nn L id (FWeight i)) = Some w ->
         rd nn (slot nn (prevOf L) i FOutput) = Some x ->
         learningRate nn = r ->
         rd nn' (slot nn L id (FWeight i)) = Some (w + r * x * e)%float) /\
    (forall b,
       rd nn (slot nn L id FBias) = Some b ->
       rd nn' (slot nn L id FBias) = Some (b + learningRate nn * e)%float) /\
    same_header nn nn' /\
    (forall a,
       a <> slot nn L id FBias ->
       (forall i, 0 <= i < wcountOf ni nh no L -> a <> slot nn L id (FWeight i)) ->
       layers nn' a = layers nn a).
Proof.
  intros Hwf Hid.
  destruct (updateNodeWeights_spec nn L id e Hwf Hid) as (nn' & Hrun & Hfr & Hw & Hb).
  exists nn'. split; [assumption |]. split; [| split; [| split]].
  - intros i Hi w x r Hrw Hrx <-. rewrite (Hw i Hi).
    now rewrite (rd_rdd _ _ _ Hrw), (rd_rdd _ _ _ Hrx).
  - intros b Hrb. rewrite Hb. rewrite (rd_rdd _ _ _ Hrb).
    now rewrite float_mul_1_r.
  - apply (frame_header _ _ _ Hfr).
  - intros a Ha Hws. destruct Hfr as [_ F]. apply F.
    intros [-> | [k [Hk ->]]]; [now apply Ha | now apply (Hws k)].
Qed.

(** ** Backward pass *)

Lemma getActFctDerivative_header (nn nn' : Network) (L : LayerType) (x : float) :
  same_header nn nn' ->
  getActFctDerivative c_tanh c_pow nn' L x = getActFctDerivative c_tanh c_pow nn L x.
Proof.
  intros H. unfold getActFctDerivative. now rewrite (same_header_actFctOf _ _ _ H).
Qed.

Lemma outputErrorSignal_header (nn nn' : Network) (t o : Z) (x : float) :
  same_header nn nn' ->
  outputErrorSignal c_tanh c_pow nn' t o x = outputErrorSignal c_tanh c_pow nn t o x.
Proof.
  intros H. unfold outputErrorSignal.
  now rewrite (getActFctDerivative_header _ _ _ _ H).
Qed.

Lemma outputcellerrorsum_spec (nn : Network) (t h : Z) :
  wf nn ni nh no -> 0 <= h < nh ->
  outputcellerrorsum c_tanh c_pow nn t h = Some (error_sum nn t h).
Proof.
  intros Hwf Hh. unfold outputcellerrorsum.
  rewrite (wf_ncount nn ni nh no Hwf OUTPUT). cbn [obind ncountOf].
  apply for_lt_fold. intros o acc Ho.
  rewrite (wf_getNode nn ni nh no Hwf) by (cbn [ncountOf] in *; lia). cbn [obind].
  change (node_at nn OUTPUT o + off_output) with (slot nn OUTPUT o FOutput).
  change (weight_at (node_at nn OUTPUT o) h) with (slot nn OUTPUT o (FWeight h)).
  pose proof (wf_rd nn ni nh no Hwf OUTPUT o FOutput) as H1.
  pose proof (wf_rd nn ni nh no Hwf OUTPUT o (FWeight h)) as H2.
  unfold rd in H1, H2.
  rewrite H1 by (split; [assumption | exact I]). cbn [obind].
  rewrite H2 by (split; assumption). cbn [obind].
  reflexivity.
Qed.

Lemma node_params_field (nn : Network) (L : LayerType) (i a : Z) :
  0 <= i < ncountOf ni nh no L -> node_params nn L i a ->
  exists f, valid_slot ni nh no L i f /\ a = slot nn L i f /\ f <> FOutput.
Proof.
  intros Hi [-> | [k [Hk ->]]].
  - exists FBias. split; [split; [assumption | exact I] |]. split; [reflexivity | discriminate].
  - exists (FWeight k). split; [split; assumption |]. split; [reflexivity | discriminate].
Qed.

Lemma node_params_header (nn nn' : Network) (L : LayerType) (i a : Z) :
  same_header nn nn' -> node_params nn' L i a -> node_params nn L i a.
Proof.
  intros Hh [-> | [k [Hk ->]]]; rewrite (same_header_slot _ _ _ _ _ Hh).
  - left. reflexivity.
  - right. exists k. auto.
Qed.

(** The parameters of one layer are not read by a slot of another layer, nor
    by an output field. *)
Lemma params_below_not_slot (nn : Network) (L L' : LayerType) (j i : Z) (f : field) :
  wf nn ni nh no -> valid_slot ni nh no L' i f ->
  L' <> L \/ f = FOutput ->
  ~ params_below nn L j (slot nn L' i f).
Proof.
  intros Hwf Hv Hor (i' & Hi' & Hn & Hp).
  destruct (node_params_field nn L i' _ ltac:(lia) Hp) as (f' & Hv' & E & Hf').
  apply (slot_inj nn ni nh no Hwf) in E; [| assumption | assumption].
  destruct E as (E1 & _ & E3). destruct Hor as [Hne | ->]; congruence.
Qed.

Lemma error_sum_frame (nn t : Network) (L : LayerType) (j tc h : Z) :
  wf nn ni nh no -> 0 <= h < nh -> L <> OUTPUT ->
  frame nn t (params_below nn L j) ->
  error_sum t tc h = error_sum nn tc h.
Proof.
  intros Hwf Hh HL Hfr. pose proof (frame_header _ _ _ Hfr) as Hd.
  unfold error_sum. apply fold_left_ext_in. intros acc o Ho.
  apply in_Zrange in Ho. unfold errorSignalOf.
  rewrite !(same_header_slot _ _ _ _ _ Hd).
  rewrite (outputErrorSignal_header _ _ _ _ _ Hd).
  rewrite (frame_rdd _ _ _ (slot nn OUTPUT o FOutput) Hfr).
  - rewrite (frame_rdd _ _ _ (slot nn OUTPUT o (FWeight h)) Hfr); [reflexivity |].
    apply (params_below_not_slot nn L OUTPUT j o _ Hwf).
    + split; assumption.
    + left. congruence.
  - apply (params_below_not_slot nn L OUTPUT j o _ Hwf).
    + split; [assumption | exact I].
    + right. reflexivity.
Qed.

(** A loop that updates the nodes of layer [L] in index order, node [j] with
    error signal [E j]. *)
Lemma layer_update_loop (nn : Network) (L : LayerType)
  (body : Z -> Network -> option Network) (E : Z -> float) :
  wf nn ni nh no ->
  (forall j t, 0 <= j < ncountOf ni nh no L -> same_shape nn t ->
               frame nn t (params_below nn L j) ->
               body j t = updateNodeWeights t L j (E j)) ->
  exists nn',
    for_lt (ncountOf ni nh no L) body nn = Some nn' /\
    same_shape nn nn' /\
    frame nn nn' (layer_params nn L) /\
    forall i, 0 <= i < ncountOf ni nh no L ->
      (forall k, 0 <= k < wcountOf ni nh no L ->
         rd nn' (slot nn L i (FWeight k)) =
         Some (rdd nn (slot nn L i (FWeight k)) +
               learningRate nn * rdd nn (slot nn (prevOf L) k FOutput) * E i)%float) /\
      rd nn' (slot nn L i FBias) =
      Some (rdd nn (slot nn L i FBias) + learningRate nn * 1 * E i)%float.
Proof.
  intros Hwf Hbody.
  set (P := fun (j : Z) (t : Network) =>
    same_shape nn t /\
    frame nn t (params_below nn L j) /\
    forall i, 0 <= i < j ->
      (forall k, 0 <= k < wcountOf ni nh no L ->
         rd t (slot nn L i (FWeight k)) =
         Some (rdd nn (slot nn L i (FWeight k)) +
               learningRate nn * rdd nn (slot nn (prevOf L) k FOutput) * E i)%float) /\
      rd t (slot nn L i FBias) =
      Some (rdd nn (slot nn L i FBias) + learningRate nn * 1 * E i)%float).
  destruct (for_lt_inv P body (ncountOf ni nh no L) nn)
    as [nn' [Hloop (Hsh & Hfr & Hval)]].
  - pose proof (ncountOf_pos nn ni nh no Hwf L). lia.
  - unfold P. split; [apply same_shape_refl |]. split; [apply frame_refl |].
    intros i Hi. lia.
  - intros j t Hj (Hsh & Hfr & Hval).
    pose proof (same_shape_wf _ _ _ _ _ Hsh Hwf) as Hwt.
    pose proof (frame_header _ _ _ Hfr) as Hh.
    rewrite (Hbody j t Hj Hsh Hfr).
    destruct (updateNodeWeights_spec t L j (E j) Hwt Hj) as (t' & Hrun & Hfr' & Hw & Hb).
    destruct (updateNodeWeights_shape t t' L j (E j) Hwt Hj Hrun) as [Hsh' _].
    exists t'. split; [assumption |].
    assert (Hlr : learningRate t = learningRate nn).
    { destruct Hh as (_ & _ & _ & _ & _ & _ & Hlr & _). exact Hlr. }
    unfold P. split; [| split].
    + eapply same_shape_trans; eassumption.
    + eapply frame_trans.
      * eapply frame_weaken; [| exact Hfr].
        intros a (i & Hi & Hn & Hp). exists i. split; [lia | split; assumption].
      * eapply frame_weaken; [| exact Hfr'].
        intros a Hp. exists j. split; [lia | split; [lia |]].
        now apply (node_params_header nn t).
    + intros i Hi. destruct (Z.eq_dec i j) as [-> | Hne].
      * split.
        -- intros k Hk. specialize (Hw k Hk).
           rewrite !(same_header_slot _ _ _ _ _ Hh) in Hw. rewrite Hw, Hlr.
           rewrite (frame_rdd _ _ _ (slot nn L j (FWeight k)) Hfr).
           ++ rewrite (frame_rdd _ _ _ (slot nn (prevOf L) k FOutput) Hfr); [reflexivity |].
              apply (params_below_not_slot nn L (prevOf L) j k _ Hwf).
              ** split; [| exact I].
                 rewrite <- (wcountOf_prev ni nh no L); [assumption |].
                 intros ->. cbn [wcountOf] in Hk. lia.
              ** right. reflexivity.
           ++ intros (i' & Hi' & Hn & Hp).
              destruct (node_params_field nn L i' _ ltac:(lia) Hp) as (f' & Hv' & Ef & _).
              apply (slot_inj nn ni nh no Hwf) in Ef; [| split; assumption | assumption].
              lia.
        -- rewrite !(same_header_slot _ _ _ _ _ Hh) in Hb. rewrite Hb, Hlr.
           rewrite (frame_rdd _ _ _ (slot nn L j FBias) Hfr); [reflexivity |].
           intros (i' & Hi' & Hn & Hp).
           destruct (node_params_field nn L i' _ ltac:(lia) Hp) as (f' & Hv' & Ef & _).
           apply (slot_inj nn ni nh no Hwf) in Ef;
             [| split; [assumption | exact I] | assumption].
           lia.
      * assert (Hkeep : forall f, valid_slot ni nh no L i f ->
                  rd t' (slot nn L i f) = rd t (slot nn L i f)).
        { intros f Hv. apply (frame_rd _ _ _ _ Hfr'). intros Hp.
          apply (node_params_header nn t _ _ _ Hh) in Hp.
          destruct (node_params_field nn L j _ Hj Hp) as (f' & Hv' & Ef & _).
          apply (slot_inj nn ni nh no Hwf) in Ef; [| assumption | assumption].
          lia. }
        destruct (Hval i ltac:(lia)) as [Hwi Hbi]. split.
        -- intros k Hk. rewrite Hkeep by (split; [lia | assumption]). now apply Hwi.
        -- rewrite Hkeep by (split; [lia | exact I]). assumption.
  - exists nn'. split; [assumption |]. split; [assumption |]. split; [assumption |].
    assumption.
Qed.

Lemma backPropagateOutputLayer_spec (nn : Network) (t : Z) :
  wf nn ni nh no ->
  exists nn',
    backPropagateOutputLayer c_tanh c_pow nn t = Some nn' /\
    same_shape nn nn' /\
    frame nn nn' (layer_params nn OUTPUT) /\
    forall o, 0 <= o < no ->
      (forall h, 0 <= h < nh ->
         rd nn' (slot nn OUTPUT o (FWeight h)) =
         Some (rdd nn (slot nn OUTPUT o (FWeight h)) +
               learningRate nn * rdd nn (slot nn HIDDEN h FOutput) *
               errorSignalOf nn t o)%float) /\
      rd nn' (slot nn OUTPUT o FBias) =
      Some (rdd nn (slot nn OUTPUT o FBias) +
            learningRate nn * 1 * errorSignalOf nn t o)%float.
Proof.
  intros Hwf. unfold backPropagateOutputLayer.
  rewrite (wf_ncount nn ni nh no Hwf OUTPUT). cbn [obind].
  apply (layer_update_loop nn OUTPUT _ (errorSignalOf nn t) Hwf).
  intros j s Hj Hsh Hfr.
  pose proof (same_shape_wf _ _ _ _ _ Hsh Hwf) as Hws.
  pose proof (frame_header _ _ _ Hfr) as Hh.
  rewrite <- (same_header_getLayer _ _ OUTPUT Hh).
  rewrite (wf_getNode s ni nh no Hws) by (cbn [ncountOf] in *; lia). cbn [obind].
  change (node_at s OUTPUT j + off_output) with (slot s OUTPUT j FOutput).
  pose proof (wf_rd s ni nh no Hws OUTPUT j FOutput ltac:(split; [assumption | exact I])) as Hr.
  unfold rd in Hr. rewrite Hr. cbn [obind]. f_equal.
  unfold errorSignalOf. rewrite (outputErrorSignal_header _ _ _ _ _ Hh).
  rewrite (same_header_slot _ _ _ _ _ Hh). f_equal.
  apply (frame_rdd _ _ _ _ Hfr).
  apply (params_below_not_slot nn OUTPUT OUTPUT j j _ Hwf).
  - split; [assumption | exact I].
  - right. reflexivity.
Qed.

Lemma backPropagateHiddenLayer_spec (nn : Network) (t : Z) :
  wf nn ni nh no ->
  exists nn',
    backPropagateHiddenLayer c_tanh c_pow nn t = Some nn' /\
    same_shape nn nn' /\
    frame nn nn' (layer_params nn HIDDEN) /\
    forall h, 0 <= h < nh ->
      (forall k, 0 <= k < ni ->
         rd nn' (slot nn HIDDEN h (FWeight k)) =
         Some (rdd nn (slot nn HIDDEN h (FWeight k)) +
               learningRate nn * rdd nn (slot nn INPUT k FOutput) *
               hiddenErrorSignalOf nn t h)%float) /\
      rd nn' (slot nn HIDDEN h FBias) =
      Some (rdd nn (slot nn HIDDEN h FBias) +
            learningRate nn * 1 * hiddenErrorSignalOf nn t h)%float.
Proof.
  intros Hwf. unfold backPropagateHiddenLayer.
  rewrite (wf_ncount nn ni nh no Hwf HIDDEN). cbn [obind].
  apply (layer_update_loop nn HIDDEN _ (hiddenErrorSignalOf nn t) Hwf).
  intros j s Hj Hsh Hfr.
  pose proof (same_shape_wf _ _ _ _ _ Hsh Hwf) as Hws.
  pose proof (frame_header _ _ _ Hfr) as Hh.
  rewrite <- (same_header_getLayer _ _ HIDDEN Hh).
  rewrite (wf_getNode s ni nh no Hws) by (cbn [ncountOf] in *; lia). cbn [obind].
  rewrite (outputcellerrorsum_spec s t j Hws Hj). cbn [obind].
  change (node_at s HIDDEN j + off_output) with (slot s HIDDEN j FOutput).
  pose proof (wf_rd s ni nh no Hws HIDDEN j FOutput ltac:(split; [assumption | exact I])) as Hr.
  unfold rd in Hr. rewrite Hr. cbn [obind]. f_equal.
  unfold hiddenErrorSignalOf.
  rewrite (error_sum_frame nn s HIDDEN j t j Hwf Hj ltac:(discriminate) Hfr).
  rewrite (getActFctDerivative_header _ _ _ _ Hh).
  rewrite (same_header_slot _ _ _ _ _ Hh). f_equal. f_equal.
  apply (frame_rdd _ _ _ _ Hfr).
  apply (params_below_not_slot nn HIDDEN HIDDEN j j _ Hwf).
  - split; [assumption | exact I].
  - right. reflexivity.
Qed.

Lemma errorSignalOf_frame (nn t : Network) (L : LayerType) (j tc o : Z) :
  wf nn ni nh no -> 0 <= o < no ->
  frame nn t (params_below nn L j) ->
  errorSignalOf t tc o = errorSignalOf nn tc o.
Proof.
  intros Hwf Ho Hfr. pose proof (frame_header _ _ _ Hfr) as Hd.
  unfold errorSignalOf.
  rewrite (same_header_slot _ _ _ _ _ Hd), (outputErrorSignal_header _ _ _ _ _ Hd).
  f_equal. apply (frame_rdd _ _ _ _ Hfr).
  apply (params_below_not_slot nn L OUTPUT j o _ Hwf).
  - split; [assumption | exact I].
  - right. reflexivity.
Qed.

Lemma backPropagateNetwork_spec (nn : Network) (t : Z) :
  wf nn ni nh no ->
  exists nn1 nn2,
    backPropagateOutputLayer c_tanh c_pow nn t = Some nn1 /\
    backPropagateHiddenLayer c_tanh c_pow nn1 t = Some nn2 /\
    backPropagateNetwork c_tanh c_pow nn t = Some nn2 /\
    same_shape nn nn1 /\ same_shape nn1 nn2 /\
    frame nn nn1 (layer_params nn OUTPUT) /\
    frame nn1 nn2 (layer_params nn HIDDEN).
Proof.
  intros Hwf.
  destruct (backPropagateOutputLayer_spec nn t Hwf) as (nn1 & H1 & Hsh1 & Hfr1 & _).
  pose proof (same_shape_wf _ _ _ _ _ Hsh1 Hwf) as Hwf1.
  destruct (backPropagateHiddenLayer_spec nn1 t Hwf1) as (nn2 & H2 & Hsh2 & Hfr2 & _).
  exists nn1, nn2. unfold backPropagateNetwork. rewrite H1. cbn [obind].
  split; [reflexivity |]. split; [assumption |]. split; [assumption |].
  split; [assumption |]. split; [assumption |]. split; [assumption |].
  eapply frame_weaken; [| exact Hfr2].
  intros a (i & Hi & Hn & Hp). exists i. split; [assumption | split; [assumption |]].
  apply (node_params_header nn nn1); [apply (frame_header _ _ _ Hfr1) | assumption].
Qed.

(** C1 (as the code has it): [backPropagateNetwork] updates the output layer
    first; the [outputcellerrorsum] of every hidden node [h] is then taken
    over the output layer's weights as that update left them, each being the
    forward-pass weight plus [learningRate * hiddenOutput[h] * errorSignal(o)],
    with the error signals of the forward-pass outputs, which the update
    leaves alone.  The hidden node's bias and weights move by that sum times
    the activation derivative. *)
Theorem backPropagateNetwork_error_sum_after_output_update (nn : Network) (t : Z) :
  wf nn ni nh no ->
  exists nn1 nn2,
    backPropagateOutputLayer c_tanh c_pow nn t = Some nn1 /\
    backPropagateHiddenLayer c_tanh c_pow nn1 t = Some nn2 /\
    backPropagateNetwork c_tanh c_pow nn t = Some nn2 /\
    forall h, 0 <= h < nh ->
      let sum :=
        fold_left
          (fun acc o =>
             (acc + errorSignalOf nn t o *
                    rdd nn1 (slot nn OUTPUT o (FWeight h)))%float)
          (Zrange no) 0%float in
      outputcellerrorsum c_tanh c_pow nn1 t h = Some sum /\
      (forall o, 0 <= o < no ->
         rd nn1 (slot nn OUTPUT o (FWeight h)) =
         Some (rdd nn (slot nn OUTPUT o (FWeight h)) +
               learningRate nn * rdd nn (slot nn HIDDEN h FOutput) *
               errorSignalOf nn t o)%float) /\
      rd nn2 (slot nn HIDDEN h FBias) =
      Some (rdd nn (slot nn HIDDEN h FBias) +
            learningRate nn *
            (sum * getActFctDerivative c_tanh c_pow nn HIDDEN
                     (rdd nn (slot nn HIDDEN h FOutput))))%float.
Proof.
  intros Hwf.
  destruct (backPropagateOutputLayer_spec nn t Hwf) as (nn1 & H1 & Hsh1 & Hfr1 & Hv1).
  pose proof (same_shape_wf _ _ _ _ _ Hsh1 Hwf) as Hwf1.
  pose proof (frame_header _ _ _ Hfr1) as Hd1.
  destruct (backPropagateHiddenLayer_spec nn1 t Hwf1) as (nn2 & H2 & Hsh2 & Hfr2 & Hv2).
  exists nn1, nn2.
  split; [exact H1 |]. split; [exact H2 |].
  split; [unfold backPropagateNetwork; rewrite H1; exact H2 |].
  intros h Hh sum.
  assert (Hsum : error_sum nn1 t h = sum).
  { unfold error_sum, sum. apply fold_left_ext_in. intros acc o Ho.
    apply in_Zrange in Ho.
    rewrite (errorSignalOf_frame nn nn1 OUTPUT _ t o Hwf Ho Hfr1).
    now rewrite (same_header_slot _ _ _ _ _ Hd1). }
  assert (Hout : rdd nn1 (slot nn HIDDEN h FOutput) = rdd nn (slot nn HIDDEN h FOutput)).
  { apply (frame_rdd _ _ _ _ Hfr1).
    apply (params_below_not_slot nn OUTPUT HIDDEN _ h _ Hwf).
    - split; [assumption | exact I].
    - right. reflexivity. }
  assert (Hbias : rdd nn1 (slot nn HIDDEN h FBias) = rdd nn (slot nn HIDDEN h FBias)).
  { apply (frame_rdd _ _ _ _ Hfr1).
    apply (params_below_not_slot nn OUTPUT HIDDEN _ h _ Hwf).
    - split; [assumption | exact I].
    - left. discriminate. }
  split; [| split].
  - rewrite (outputcellerrorsum_spec nn1 t h Hwf1 Hh). now rewrite Hsum.
  - intros o Ho. destruct (Hv1 o Ho) as [Hw _]. now apply Hw.
  - destruct (Hv2 h Hh) as [_ Hb].
    rewrite !(same_header_slot _ _ _ _ _ Hd1) in Hb. rewrite Hb.
    unfold hiddenErrorSignalOf.
    rewrite Hsum, (same_header_slot _ _ _ _ _ Hd1), Hout, Hbias.
    rewrite (getActFctDerivative_header _ _ _ _ Hd1).
    rewrite float_mul_1_r.
    destruct Hd1 as (_ & _ & _ & _ & _ & _ & Hlr & _). now rewrite Hlr.
Qed.

(** ** Classification *)

Lemma getNetworkClassification_body (nn : Network) (i : Z) (acc : float * Z) :
  wf nn ni nh no -> 0 <= i < no ->
  (let '(maxOut, maxInd) := acc in
   on <- getNode (layers nn) (getLayer nn OUTPUT) i ;;
   output <- load_dbl (layers nn) (on + off_output) ;;
   if (maxOut <? output)%float then Some (output, i) else Some (maxOut, maxInd)) =
  Some (scan_step nn acc i).
Proof.
  intros Hwf Hi. destruct acc as [maxOut maxInd].
  rewrite (wf_getNode nn ni nh no Hwf) by (cbn [ncountOf] in *; lia). cbn [obind].
  change (node_at nn OUTPUT i + off_output) with (slot nn OUTPUT i FOutput).
  pose proof (wf_rd nn ni nh no Hwf OUTPUT i FOutput ltac:(split; [assumption | exact I])) as Hr.
  unfold rd in Hr. rewrite Hr. cbn [obind]. unfold scan_step. cbn [fst].
  destruct (maxOut <? rdd nn (slot nn OUTPUT i FOutput))%float; reflexivity.
Qed.

Lemma getNetworkClassification_scan (nn : Network) :
  wf nn ni nh no ->
  getNetworkClassification nn =
  Some (snd (fold_left (scan_step nn) (Zrange no) (0%float, 0))).
Proof.
  intros Hwf. unfold getNetworkClassification.
  rewrite (wf_ncount nn ni nh no Hwf OUTPUT). cbn [obind ncountOf].
  rewrite (for_lt_fold (scan_step nn)).
  - cbn [obind]. destruct (fold_left (scan_step nn) (Zrange no) (0%float, 0)). reflexivity.
  - intros j acc Hj. apply (getNetworkClassification_body nn j acc Hwf Hj).
Qed.

(** A fold over the indices below [n], by an invariant. *)
Lemma fold_Zrange_inv {A : Type} (P : Z -> A -> Prop) (f : A -> Z -> A) (n : Z) (a : A) :
  0 <= n -> P 0 a ->
  (forall j x, 0 <= j < n -> P j x -> P (j + 1) (f x j)) ->
  P n (fold_left f (Zrange n) a).
Proof.
  intros Hn H0 Hstep.
  destruct (for_lt_inv P (fun j x => Some (f x j)) n a Hn H0) as [r [Hr HP]].
  - intros j x Hj HPx. exists (f x j). split; [reflexivity | now apply Hstep].
  - rewrite (for_lt_fold f) in Hr by reflexivity. now injection Hr as <-.
Qed.

(** C2 (as the code has it): [getNetworkClassification] scans the output
    nodes in index order with a running maximum that starts at zero, taking
    the index of a node whose output is strictly greater than the running
    maximum.  Hence, if one output node's value is strictly positive and
    strictly exceeds all others, its index is returned; and if every output
    is [<= 0], index 0 is returned. *)
Theorem getNetworkClassification_running_max (nn : Network) :
  wf nn ni nh no ->
  let output := fun i => rdd nn (slot nn OUTPUT i FOutput) in
  getNetworkClassification nn =
    Some (snd (fold_left
                 (fun acc i =>
                    if (fst acc <? output i)%float then (output i, i) else acc)
                 (Zrange no) (0%float, 0))) /\
  (forall k, 0 <= k < no ->
     (0 <? output k)%float = true ->
     (forall j, 0 <= j < no -> j <> k -> (output j <? output k)%float = true) ->
     getNetworkClassification nn = Some k) /\
  ((forall j, 0 <= j < no -> (output j <=? 0)%float = true) ->
   getNetworkClassification nn = Some 0).
Proof.
  intros Hwf output.
  pose proof (wf_no _ _ _ _ Hwf) as Hno.
  rewrite (getNetworkClassification_scan nn Hwf).
  split; [reflexivity |]. split.
  - intros k Hk Hpos Hmax. f_equal.
    set (P := fun (j : Z) (acc : float * Z) =>
      (j <= k -> (fst acc <? output k)%float = true) /\
      (k < j -> acc = (output k, k))).
    assert (HP : P no (fold_left (scan_step nn) (Zrange no) (0%float, 0))).
    { apply fold_Zrange_inv; [lia | |].
      - split; [intros _; exact Hpos | lia].
      - intros j acc Hj [Hle Hgt]. unfold scan_step. fold (output j). split.
        + intros Hjk.
          destruct (fst acc <? output j)%float; cbn [fst].
          * apply Hmax; lia.
          * apply Hle. lia.
        + intros Hkj. destruct (Z.eq_dec j k) as [-> | Hne].
          * now rewrite (Hle ltac:(lia)).
          * rewrite (Hgt ltac:(lia)). cbn [fst].
            now rewrite (float_ltb_asym _ _ (Hmax j Hj Hne)). }
    destruct HP as [_ HP]. now rewrite (HP ltac:(lia)).
  - intros Hall. f_equal.
    assert (HP : fold_left (scan_step nn) (Zrange no) (0%float, 0) = (0%float, 0)).
    { apply (fold_Zrange_inv (fun _ acc => acc = (0%float, 0))); [lia | reflexivity |].
      intros j acc Hj ->. unfold scan_step. cbn [fst]. fold (output j).
      now rewrite (float_leb_not_ltb _ _ (Hall j Hj)). }
    now rewrite HP.
Qed.

(** ** Feeding the input *)

Lemma feedInput_spec (nn : Network) (v : Vector) :
  wf nn ni nh no ->
  size v <= ni -> size v <= Z.of_nat (length (vals v)) ->
  exists nn',
    feedInput nn v = Some nn' /\
    frame nn nn' (outputs_below nn INPUT (size v)) /\
    forall i, 0 <= i < size v ->
      rd nn' (slot nn INPUT i FOutput) = nth_error (vals v) (Z.to_nat i).
Proof.
  intros Hwf Hsz Hlen. unfold feedInput.
  destruct (Z.le_gt_cases 0 (size v)) as [Hnn | Hneg].
  2:{ unfold for_lt. replace (Z.to_nat (size v)) with O by lia.
      cbn [iter_from obind]. exists nn. split; [reflexivity |].
      split; [apply frame_refl | intros i Hi; lia]. }
  set (P := fun (j : Z) (st : Z * Network) =>
    fst st = 0 + off_nodes + j * sizeof_Node /\
    frame nn (snd st) (outputs_below nn INPUT j) /\
    forall i, 0 <= i < j ->
      rd (snd st) (slot nn INPUT i FOutput) = nth_error (vals v) (Z.to_nat i)).
  match goal with
  | |- context [for_lt ?n ?b ?s] =>
      destruct (for_lt_inv P b n s) as [[p nn1] [Hloop (Hp & Hfr & Hval)]]
  end.
  - assumption.
  - unfold P. cbn [fst snd]. split; [lia |]. split; [apply frame_refl |].
    intros i Hi. lia.
  - intros j [p t] Hj (Hp & Hfr & Hval). cbn [fst snd] in *.
    destruct (nth_error (vals v) (Z.to_nat j)) as [x|] eqn:Hx.
    2:{ apply nth_error_None in Hx. lia. }
    cbn [obind]. eexists. split; [reflexivity |].
    assert (Ha : p + off_output = slot nn INPUT j FOutput).
    { subst p. unfold slot, field_at, node_at. cbn [getLayer nodeSizeOf].
      rewrite (wf_ins _ _ _ _ Hwf). reflexivity. }
    rewrite Ha. unfold P. cbn [fst snd]. split; [lia |]. split.
    + eapply frame_trans.
      * eapply frame_weaken; [| exact Hfr].
        intros a (i & Hi & Hn & E). exists i. split; [lia | split; assumption].
      * apply frame_poke. exists j. cbn [ncountOf]. split; [lia | split; [lia | reflexivity]].
    + intros i Hi. destruct (Z.eq_dec i j) as [-> | Hne].
      * now rewrite rd_poke_same.
      * rewrite rd_poke_other.
        -- apply Hval. lia.
        -- intros E. apply (slot_inj nn ni nh no Hwf) in E.
           ++ lia.
           ++ split; [cbn [ncountOf]; lia | exact I].
           ++ split; [cbn [ncountOf]; lia | exact I].
  - rewrite Hloop. cbn [obind fst snd] in *. exists nn1.
    split; [reflexivity |]. split; assumption.
Qed.

(** C5: when the vector has as many elements as the input layer has nodes,
    [feedInput] leaves in every input node's output field the vector element
    of the same index, as it is. *)
Theorem feedInput_copies_vector (nn : Network) (v : Vector) :
  wf nn ni nh no ->
  size v = ni -> Z.of_nat (length (vals v)) = size v ->
  exists nn',
    feedInput nn v = Some nn' /\
    forall i, 0 <= i < ni ->
      exists x, nth_error (vals v) (Z.to_nat i) = Some x /\
                rd nn' (slot nn INPUT i FOutput) = Some x.
Proof.
  intros Hwf Hsz Hlen.
  destruct (feedInput_spec nn v Hwf ltac:(lia) ltac:(lia)) as (nn' & Hrun & _ & Hval).
  exists nn'. split; [assumption |].
  intros i Hi. destruct (nth_error (vals v) (Z.to_nat i)) as [x|] eqn:Hx.
  - exists x. split; [reflexivity |]. rewrite Hval by lia. assumption.
  - apply nth_error_None in Hx. lia.
Qed.

(** C10 (as the code has it): [feedInput] with a vector of at most as many
    elements as there are input nodes writes the output fields of the first
    [size v] input nodes and nothing else: the header, every other cell of
    the arena, hence every bias, every weight, every field of the hidden and
    output layers, every count, and the outputs of the input nodes from index
    [size v] on are as they were. *)
Theorem feedInput_writes_only_first_outputs (nn : Network) (v : Vector) :
  wf nn ni nh no ->
  size v <= ni -> size v <= Z.of_nat (length (vals v)) ->
  exists nn',
    feedInput nn v = Some nn' /\
    (forall i, 0 <= i < size v ->
       rd nn' (slot nn INPUT i FOutput) = nth_error (vals v) (Z.to_nat i)) /\
    same_header nn nn' /\
    (forall a,
       (forall i, 0 <= i < size v -> a <> slot nn INPUT i FOutput) ->
       layers nn' a = layers nn a) /\
    (forall L i f, valid_slot ni nh no L i f ->
       L <> INPUT \/ f <> FOutput \/ size v <= i ->
       rd nn' (slot nn L i f) = rd nn (slot nn L i f)) /\
    (forall L,
       load_int (layers nn') (getLayer nn L + off_ncount) =
       load_int (layers nn) (getLayer nn L + off_ncount)) /\
    (forall L i, 0 <= i < ncountOf ni nh no L ->
       load_int (layers nn') (node_at nn L i + off_wcount) =
       load_int (layers nn) (node_at nn L i + off_wcount)).
Proof.
  intros Hwf Hsz Hlen.
  destruct (feedInput_spec nn v Hwf Hsz Hlen) as (nn' & Hrun & Hfr & Hval).
  assert (Hsh : same_shape nn nn').
  { apply (frame_fields_shape nn nn' _ Hwf Hfr).
    - intros a Ha. eapply outputs_below_field; eauto.
    - intros a (i & Hi & Hn & ->). rewrite Hval by lia.
      destruct (nth_error (vals v) (Z.to_nat i)) as [x|] eqn:Hx; [eauto |].
      apply nth_error_None in Hx. lia. }
  pose proof (same_shape_wf _ _ _ _ _ Hsh Hwf) as Hwf'.
  pose proof (frame_header _ _ _ Hfr) as Hh.
  exists nn'. split; [assumption |]. split; [assumption |]. split; [assumption |].
  split; [| split; [| split]].
  - intros a Ha. destruct Hfr as [_ F]. apply F.
    intros (i & Hi & Hn & E). now apply (Ha i).
  - intros L i f Hv Hor. apply (frame_rd _ _ _ _ Hfr).
    intros (i' & Hi' & Hn & E).
    apply (slot_inj nn ni nh no Hwf) in E;
      [| assumption | split; [cbn [ncountOf] in *; lia | exact I]].
    destruct E as (E1 & E2 & E3). destruct Hor as [H | [H | H]]; [congruence | congruence | lia].
  - intros L. rewrite (wf_ncount nn ni nh no Hwf L).
    rewrite <- (same_header_getLayer _ _ _ Hh). apply (wf_ncount nn' ni nh no Hwf').
  - intros L i Hi. rewrite (wf_wcount nn ni nh no Hwf L i Hi).
    rewrite <- (same_header_node_at _ _ _ _ Hh). now apply (wf_wcount nn' ni nh no Hwf').
Qed.

(** ** Addressing *)


(** ** What the operations leave alone *)

Lemma evolves_refl (nn : Network) : evolves nn nn.
Proof. split; [apply same_shape_refl | apply frame_refl]. Qed.

Lemma node_field_header (nn nn' : Network) (a : Z) :
  same_header nn nn' -> node_field nn' a -> node_field nn a.
Proof.
  intros Hh (L & i & f & Hv & ->). exists L, i, f.
  split; [assumption |]. apply (same_header_slot _ _ _ _ _ Hh).
Qed.

Lemma evolves_trans (a b c : Network) : evolves a b -> evolves b c -> evolves a c.
Proof.
  intros [S1 F1] [S2 F2]. split.
  - eapply same_shape_trans; eassumption.
  - eapply frame_trans; [exact F1 |].
    eapply frame_weaken; [| exact F2].
    intros x. apply node_field_header. apply (frame_header _ _ _ F1).
Qed.

Lemma evolves_wf (nn nn' : Network) : evolves nn nn' -> wf nn ni nh no -> wf nn' ni nh no.
Proof. intros [S _]. now apply same_shape_wf. Qed.

Lemma params_below_field (nn : Network) (L : LayerType) (j a : Z) :
  params_below nn L j a -> node_field nn a.
Proof.
  intros (i & Hi & Hn & Hp).
  destruct (node_params_field nn L i a ltac:(lia) Hp) as (f & Hv & -> & _).
  exists L, i, f. split; [assumption | reflexivity].
Qed.

Lemma feedInput_evolves (nn : Network) (v : Vector) :
  wf nn ni nh no ->
  size v <= ni -> size v <= Z.of_nat (length (vals v)) ->
  exists nn', feedInput nn v = Some nn' /\ evolves nn nn'.
Proof.
  intros Hwf Hsz Hlen.
  destruct (feedInput_spec nn v Hwf Hsz Hlen) as (nn' & Hrun & Hfr & Hval).
  exists nn'. split; [assumption |].
  assert (Hf : frame nn nn' (node_field nn)).
  { eapply frame_weaken; [| exact Hfr]. intros a. apply outputs_below_field. }
  split; [| assumption].
  apply (frame_fields_shape nn nn' _ Hwf Hfr).
  - intros a. apply outputs_below_field.
  - intros a (i & Hi & Hn & ->). rewrite Hval by lia.
    destruct (nth_error (vals v) (Z.to_nat i)) as [x|] eqn:Hx; [eauto |].
    apply nth_error_None in Hx. lia.
Qed.

Lemma feedForwardNetwork_evolves (nn : Network) :
  wf nn ni nh no ->
  exists nn', feedForwardNetwork c_tanh c_exp nn = Some nn' /\ evolves nn nn'.
Proof.
  intros Hwf.
  destruct (feedForwardNetwork_spec nn Hwf)
    as (nn1 & nn2 & _ & _ & Hff & Hsh1 & Hsh2 & Hfr1 & Hfr2 & _).
  exists nn2. split; [assumption |]. split.
  - eapply same_shape_trans; eassumption.
  - eapply frame_trans.
    + eapply frame_weaken; [| exact Hfr1]. intros a. apply outputs_below_field.
    + eapply frame_weaken; [| exact Hfr2]. intros a. apply outputs_below_field.
Qed.

Lemma backPropagateNetwork_evolves (nn : Network) (t : Z) :
  wf nn ni nh no ->
  exists nn', backPropagateNetwork c_tanh c_pow nn t = Some nn' /\ evolves nn nn'.
Proof.
  intros Hwf.
  destruct (backPropagateNetwork_spec nn t Hwf)
    as (nn1 & nn2 & _ & _ & Hbp & Hsh1 & Hsh2 & Hfr1 & Hfr2).
  exists nn2. split; [assumption |]. split.
  - eapply same_shape_trans; eassumption.
  - eapply frame_trans.
    + eapply frame_weaken; [| exact Hfr1]. intros a. apply params_below_field.
    + eapply frame_weaken; [| exact Hfr2]. intros a. apply params_below_field.
Qed.

Lemma run_operation_evolves (nn : Network) (op : operation) :
  wf nn ni nh no -> admissible op ->
  exists nn', run_operation op nn = Some nn' /\ evolves nn nn'.
Proof.
  intros Hwf Hop. destruct op as [v | | t |]; cbn [run_operation].
  - destruct Hop as [H1 H2]. now apply feedInput_evolves.
  - now apply feedForwardNetwork_evolves.
  - now apply backPropagateNetwork_evolves.
  - rewrite (getNetworkClassification_scan nn Hwf). cbn [obind].
    exists nn. split; [reflexivity | apply evolves_refl].
Qed.

Lemma run_operations_evolves (ops : list operation) :
  forall nn, wf nn ni nh no -> Forall admissible ops ->
  exists nn', run_operations ops nn = Some nn' /\ evolves nn nn'.
Proof.
  induction ops as [|op ops IH]; intros nn Hwf Hops.
  - exists nn. split; [reflexivity | apply evolves_refl].
  - inversion Hops as [|? ? Hop Hrest]; subst.
    destruct (run_operation_evolves nn op Hwf Hop) as (nn1 & H1 & He1).
    destruct (IH nn1 (evolves_wf _ _ He1 Hwf) Hrest) as (nn2 & H2 & He2).
    exists nn2. cbn [run_operations]. rewrite H1. cbn [obind].
    split; [assumption |]. eapply evolves_trans; eassumption.
Qed.

(** C9 (as the code has it): after construction, whatever sequence of
    [feedInput] with vectors no longer than the input layer,
    [feedForwardNetwork], [backPropagateNetwork] and
    [getNetworkClassification] runs on the network, the six stored sizes, the
    node count of every layer and the weight count of every node are what
    they were, and the only cells of the arena that may differ are the bias,
    the output and the weights of nodes. *)
Theorem operations_mutate_only_node_values (nn : Network) (ops : list operation) :
  wf nn ni nh no -> Forall admissible ops ->
  exists nn',
    run_operations ops nn = Some nn' /\
    (inpNodeSize nn' = inpNodeSize nn /\ inpLayerSize nn' = inpLayerSize nn /\
     hidNodeSize nn' = hidNodeSize nn /\ hidLayerSize nn' = hidLayerSize nn /\
     outNodeSize nn' = outNodeSize nn /\ outLayerSize nn' = outLayerSize nn) /\
    (forall L,
       load_int (layers nn') (getLayer nn' L + off_ncount) =
       load_int (layers nn) (getLayer nn L + off_ncount)) /\
    (forall L i, 0 <= i < ncountOf ni nh no L ->
       load_int (layers nn') (node_at nn' L i + off_wcount) =
       load_int (layers nn) (node_at nn L i + off_wcount)) /\
    (forall a,
       (forall L i f, valid_slot ni nh no L i f -> a <> slot nn L i f) ->
       layers nn' a = layers nn a).
Proof.
  intros Hwf Hops.
  destruct (run_operations_evolves ops nn Hwf Hops) as (nn' & Hrun & He).
  pose proof (evolves_wf _ _ He Hwf) as Hwf'.
  destruct He as [[Hh _] [_ F]].
  exists nn'. split; [assumption |]. split; [| split; [| split]].
  - unfold same_header in Hh. tauto.
  - intros L. rewrite (wf_ncount nn ni nh no Hwf L).
    apply (wf_ncount nn' ni nh no Hwf').
  - intros L i Hi. rewrite (wf_wcount nn ni nh no Hwf L i Hi).
    now apply (wf_wcount nn' ni nh no Hwf').
  - intros a Ha. apply F. intros (L & i & f & Hv & E). now apply (Ha L i f).
Qed.

End Operations.

(** * Construction *)

Lemma memcpy_inside (dst src : mem) (d s n a : Z) :
  d <= a < d + n -> memcpy dst d src s n a = src (a - d + s).
Proof.
  intros H. unfold memcpy.
  destruct (Z.leb_spec d a); [| lia]. destruct (Z.ltb_spec a (d + n)); [| lia].
  reflexivity.
Qed.

Lemma memcpy_outside (dst src : mem) (d s n a : Z) :
  a < d \/ d + n <= a -> memcpy dst d src s n a = dst a.
Proof.
  intros H. unfold memcpy.
  destruct (Z.leb_spec d a); destruct (Z.ltb_spec a (d + n)); try reflexivity. lia.
Qed.

(** The cells of a zero node lie in [[n, n + sz)]. *)
Lemma zero_node_memcpy (dst src : mem) (d wc : Z) :
  0 <= wc ->
  zero_node src 0 wc ->
  zero_node (memcpy dst d src 0 (sizeof_Node + wc * sizeof_double)) d wc.
Proof.
  intros Hwc (Hb & Ho & Hw & Hws).
  unfold zero_node, weight_at, off_bias, off_output, off_wcount, off_weights,
    sizeof_Node, sizeof_double in *.
  repeat split.
  - rewrite memcpy_inside by lia. rewrite <- Hb. f_equal. lia.
  - rewrite memcpy_inside by lia. rewrite <- Ho. f_equal. lia.
  - rewrite memcpy_inside by lia. rewrite <- Hw. f_equal. lia.
  - intros k Hk. rewrite memcpy_inside by lia. rewrite <- (Hws k Hk). f_equal. lia.
Qed.

Lemma zero_node_outside (m m' : mem) (n wc : Z) :
  0 <= wc ->
  (forall a, n <= a < n + (sizeof_Node + wc * sizeof_double) -> m' a = m a) ->
  zero_node m n wc -> zero_node m' n wc.
Proof.
  intros Hwc Hsame (Hb & Ho & Hw & Hws).
  unfold zero_node, weight_at, off_bias, off_output, off_wcount, off_weights,
    sizeof_Node, sizeof_double in *.
  repeat split.
  - rewrite Hsame by lia. assumption.
  - rewrite Hsame by lia. assumption.
  - rewrite Hsame by lia. assumption.
  - intros k Hk. rewrite Hsame by lia. now apply Hws.
Qed.

Lemma default_node_zero (wc : Z) :
  0 <= wc ->
  zero_node
    (repeat_lt wc (fun o dn => store dn (weight_at 0 o) (CDbl 0))
       (store (store (store malloc off_bias (CDbl 0)) off_output (CDbl 0))
              off_wcount (CInt wc))) 0 wc.
Proof.
  intros Hwc.
  set (dn0 := store (store (store malloc off_bias (CDbl 0)) off_output (CDbl 0))
                    off_wcount (CInt wc)).
  set (P := fun (j : Z) (dn : mem) =>
    dn (0 + off_bias) = CDbl 0 /\ dn (0 + off_output) = CDbl 0 /\
    dn (0 + off_wcount) = CInt wc /\
    forall k, 0 <= k < j -> dn (weight_at 0 k) = CDbl 0).
  apply (repeat_lt_inv P (fun o dn => store dn (weight_at 0 o) (CDbl 0)) wc dn0 Hwc).
  - unfold P, dn0. repeat split; try reflexivity. intros k Hk. lia.
  - intros j dn Hj (Hb & Ho & Hw & Hws).
    unfold P, weight_at, off_bias, off_output, off_wcount, off_weights, sizeof_double in *.
    repeat split.
    + rewrite store_other by lia. assumption.
    + rewrite store_other by lia. assumption.
    + rewrite store_other by lia. assumption.
    + intros k Hk. destruct (Z.eq_dec k j) as [-> | Hne].
      * apply store_same.
      * rewrite store_other by lia. apply Hws. lia.
Qed.

Lemma createLayer_zero (nodeCount weightCount : Z) :
  0 <= nodeCount -> 0 <= weightCount ->
  zero_layer (createLayer nodeCount weightCount) 0 nodeCount
             (sizeof_Node + weightCount * sizeof_double) weightCount.
Proof.
  intros Hn Hwc. unfold createLayer.
  pose proof (default_node_zero weightCount Hwc) as Hz.
  set (dn := repeat_lt weightCount _ _) in *.
  set (sz := sizeof_Node + weightCount * sizeof_double).
  set (body := fun (i : Z) (l : mem) => memcpy l (off_nodes + i * sz) dn 0 sz).
  set (P := fun (j : Z) (l : mem) =>
    l (0 + off_ncount) = CInt nodeCount /\
    forall i, 0 <= i < j -> zero_node l (0 + off_nodes + i * sz) weightCount).
  apply (repeat_lt_inv P body nodeCount (store malloc off_ncount (CInt nodeCount)) Hn).
  - split; [apply store_same | intros i Hi; lia].
  - intros j l Hj [Hc Hnodes]. unfold body.
    assert (Hsz : sizeof_Node <= sz) by (unfold sz, sizeof_double; lia).
    split.
    + rewrite memcpy_outside; [assumption |].
      unfold off_ncount, off_nodes, sizeof_Node in *. nia.
    + intros i Hi. destruct (Z.eq_dec i j) as [-> | Hne].
      * rewrite Z.add_0_l. now apply zero_node_memcpy.
      * apply (zero_node_outside l _ _ weightCount Hwc); [| apply Hnodes; lia].
        intros a Ha. apply memcpy_outside. fold sz in Ha.
        unfold off_nodes, sizeof_Node in *. nia.
Qed.

Lemma createInputLayer_zero (inpCount : Z) :
  0 <= inpCount ->
  zero_layer (createInputLayer inpCount) 0 inpCount
             (sizeof_Node + 0 * sizeof_double) 0.
Proof.
  intros Hn. unfold createInputLayer.
  set (iln := store (store (store malloc off_bias (CDbl 0)) off_output (CDbl 0))
                    off_wcount (CInt 0)).
  assert (Hz : zero_node iln 0 0).
  { unfold iln. repeat split. intros k Hk. lia. }
  set (body := fun (i : Z) (st : Z * mem) =>
     let '(sbptr, il) := st in
     (sbptr + sizeof_Node, memcpy il sbptr iln 0 sizeof_Node)).
  set (P := fun (j : Z) (st : Z * mem) =>
    fst st = off_nodes + j * sizeof_Node /\
    snd st (0 + off_ncount) = CInt inpCount /\
    forall i, 0 <= i < j ->
      zero_node (snd st) (0 + off_nodes + i * (sizeof_Node + 0 * sizeof_double)) 0).
  assert (HP : P inpCount
            (repeat_lt inpCount body (off_nodes, store malloc off_ncount (CInt inpCount)))).
  2:{ destruct HP as (_ & Hc & Hnodes). split; assumption. }
  apply (repeat_lt_inv P body inpCount _ Hn).
  - unfold P. cbn [fst snd]. split; [lia |].
    split; [apply store_same | intros i Hi; lia].
  - intros j [p l] Hj (Hp & Hc & Hnodes). cbn [fst snd] in *.
    unfold P, body. cbn [fst snd]. split; [lia |]. split.
    + rewrite memcpy_outside; [assumption |].
      subst p. unfold off_ncount, off_nodes, sizeof_Node in *. lia.
    + intros i Hi. destruct (Z.eq_dec i j) as [-> | Hne].
      * subst p.
        replace (0 + off_nodes + j * (sizeof_Node + 0 * sizeof_double))
          with (off_nodes + j * sizeof_Node) by (unfold sizeof_double; lia).
        exact (zero_node_memcpy l iln (off_nodes + j * sizeof_Node) 0 ltac:(lia) Hz).
      * apply (zero_node_outside l _ _ 0 ltac:(lia)); [| apply Hnodes; lia].
        intros a Ha. apply memcpy_outside. subst p.
        unfold off_nodes, sizeof_Node, sizeof_double in *. lia.
Qed.

Lemma zero_layer_shift (src m : mem) (d n wc : Z) :
  0 <= wc -> 0 <= n ->
  (forall x, 0 <= x < sizeof_Layer + n * (sizeof_Node + wc * sizeof_double) ->
             m (d + x) = src x) ->
  zero_layer src 0 n (sizeof_Node + wc * sizeof_double) wc ->
  zero_layer m d n (sizeof_Node + wc * sizeof_double) wc.
Proof.
  intros Hwc Hn Hcopy [Hc Hnodes].
  set (sz := sizeof_Node + wc * sizeof_double) in *.
  assert (Hsz : 24 <= sz) by (unfold sz, sizeof_Node, sizeof_double; lia).
  assert (Hszdef : sz = 24 + wc * 8) by reflexivity.
  split.
  - replace (d + off_ncount) with (d + 0) by (unfold off_ncount; lia).
    rewrite Hcopy; [exact Hc |]. unfold sizeof_Layer. nia.
  - intros i Hi. destruct (Hnodes i Hi) as (Hb & Ho & Hw & Hws).
    unfold zero_node, weight_at, off_bias, off_output, off_wcount, off_weights,
      off_nodes, sizeof_Layer, sizeof_double in *.
    repeat split.
    + replace (d + 8 + i * sz + 0) with (d + (0 + 8 + i * sz + 0)) by lia.
      rewrite Hcopy by nia. assumption.
    + replace (d + 8 + i * sz + 8) with (d + (0 + 8 + i * sz + 8)) by lia.
      rewrite Hcopy by nia. assumption.
    + replace (d + 8 + i * sz + 16) with (d + (0 + 8 + i * sz + 16)) by lia.
      rewrite Hcopy by nia. assumption.
    + intros k Hk.
      replace (d + 8 + i * sz + 24 + k * 8) with (d + (0 + 8 + i * sz + 24 + k * 8)) by lia.
      rewrite Hcopy by nia. now apply Hws.
Qed.

Lemma zero_layer_ok (m : mem) (l n sz wc : Z) :
  zero_layer m l n sz wc -> layer_ok m l n sz wc.
Proof.
  intros [Hc Hnodes]. split; [assumption |].
  intros i Hi. destruct (Hnodes i Hi) as (Hb & Ho & Hw & Hws).
  repeat split.
  - now rewrite Hb.
  - now rewrite Ho.
  - assumption.
  - intros k Hk. now rewrite (Hws k Hk).
Qed.

Lemma initNetwork_zero (nn : Network) (ni nh no : Z) :
  0 <= ni -> 0 <= nh -> 0 <= no ->
  sizes_of nn ni nh no ->
  same_header nn (initNetwork nn ni nh no) /\
  forall L,
    zero_layer (layers (initNetwork nn ni nh no)) (getLayer nn L)
               (ncountOf ni nh no L)
               (sizeof_Node + wcountOf ni nh no L * sizeof_double)
               (wcountOf ni nh no L).
Proof.
  intros Hni Hnh Hno (S1 & S2 & S3 & S4 & S5 & S6).
  split; [unfold same_header, initNetwork; cbn; tauto |].
  unfold initNetwork. cbn [layers set_layers].
  pose proof (createInputLayer_zero ni Hni) as ZI.
  pose proof (createLayer_zero nh ni Hnh Hni) as ZH.
  pose proof (createLayer_zero no nh Hno Hnh) as ZO.
  assert (E2 : inpLayerSize nn = 8 + ni * 24)
    by (rewrite S2, S1; reflexivity).
  assert (E4 : hidLayerSize nn = 8 + nh * (24 + ni * 8))
    by (rewrite S4, S3; reflexivity).
  assert (E6 : outLayerSize nn = 8 + no * (24 + nh * 8))
    by (rewrite S6, S5; reflexivity).
  intros L. destruct L; cbn [getLayer ncountOf wcountOf].
  - apply (zero_layer_shift (createInputLayer ni)); [lia | assumption | | assumption].
    intros x Hx. unfold sizeof_Layer, sizeof_Node, sizeof_double in Hx.
    rewrite memcpy_outside by nia. rewrite memcpy_outside by nia.
    rewrite memcpy_inside by nia. f_equal. lia.
  - apply (zero_layer_shift (createLayer nh ni)); [assumption | assumption | | assumption].
    intros x Hx. unfold sizeof_Layer, sizeof_Node, sizeof_double in Hx.
    rewrite memcpy_outside by nia.
    rewrite memcpy_inside by nia. f_equal. lia.
  - apply (zero_layer_shift (createLayer no nh)); [assumption | assumption | | assumption].
    intros x Hx. unfold sizeof_Layer, sizeof_Node, sizeof_double in Hx.
    rewrite memcpy_inside by nia. f_equal. lia.
Qed.

Lemma sizes_of_nodeSizeOf (nn : Network) (ni nh no : Z) (L : LayerType) :
  sizes_of nn ni nh no ->
  nodeSizeOf nn L = sizeof_Node + wcountOf ni nh no L * sizeof_double.
Proof.
  intros (S1 & S2 & S3 & S4 & S5 & S6). destruct L; cbn [nodeSizeOf wcountOf]; auto.
Qed.

Lemma zero_layers_wf (nn : Network) (ni nh no : Z) :
  0 < ni -> 0 < nh -> 0 < no ->
  sizes_fit ni nh no ->
  sizes_of nn ni nh no ->
  (forall L,
     zero_layer (layers nn) (getLayer nn L) (ncountOf ni nh no L)
                (sizeof_Node + wcountOf ni nh no L * sizeof_double)
                (wcountOf ni nh no L)) ->
  wf nn ni nh no.
Proof.
  intros Hni Hnh Hno HF HS HZ. pose proof HS as (S1 & S2 & S3 & S4 & S5 & S6).
  constructor; try assumption.
  - intros L. rewrite (sizes_of_nodeSizeOf nn ni nh no L HS).
    apply zero_layer_ok. apply HZ.
  - unfold sizes_fit in HF. now rewrite S2, S1, S4, S3, S6, S5.
Qed.

(** Where the sizes fit, each of the eight values [createNetwork] computes is
    the [int] it is meant to be. *)
Lemma sizes_fit_ints (ni nh no : Z) :
  0 < ni -> 0 < nh -> 0 < no -> sizes_fit ni nh no ->
  to_int (ni * sizeof_Node) = Some (ni * sizeof_Node) /\
  to_int (sizeof_Layer + ni * sizeof_Node) = Some (sizeof_Layer + ni * sizeof_Node) /\
  to_int (sizeof_Node + ni * sizeof_double) = Some (sizeof_Node + ni * sizeof_double) /\
  to_int (nh * (sizeof_Node + ni * sizeof_double)) =
    Some (nh * (sizeof_Node + ni * sizeof_double)) /\
  to_int (sizeof_Layer + nh * (sizeof_Node + ni * sizeof_double)) =
    Some (sizeof_Layer + nh * (sizeof_Node + ni * sizeof_double)) /\
  to_int (sizeof_Node + nh * sizeof_double) = Some (sizeof_Node + nh * sizeof_double) /\
  to_int (no * (sizeof_Node + nh * sizeof_double)) =
    Some (no * (sizeof_Node + nh * sizeof_double)) /\
  to_int (sizeof_Layer + no * (sizeof_Node + nh * sizeof_double)) =
    Some (sizeof_Layer + no * (sizeof_Node + nh * sizeof_double)).
Proof.
  intros Hni Hnh Hno (F1 & F2 & F3).
  unfold INT_MAX, sizeof_Layer, sizeof_Node, sizeof_double in *.
  assert (1 * (24 + ni * 8) <= nh * (24 + ni * 8))
    by (apply Z.mul_le_mono_nonneg_r; lia).
  assert (1 * (24 + nh * 8) <= no * (24 + nh * 8))
    by (apply Z.mul_le_mono_nonneg_r; lia).
  repeat split; apply to_int_fits; unfold INT_MIN, INT_MAX; lia.
Qed.

Section Randomization.

Variable RAND_MAX : Z.
Variable rand : nat -> Z.
Variables (ni nh no : Z).

#[local] Abbreviation drawn_weight := (drawn_weight RAND_MAX rand).
#[local] Abbreviation drawn_bias := (drawn_bias RAND_MAX rand).

Lemma initWeights_node (t : Network) (n wc : Z) (k : nat) :
  0 <= wc ->
  exists k1 t1,
    for_lt wc
      (fun i '(k, nn) =>
         let w := (0.7 * unit_draw RAND_MAX rand k)%float in
         let w := if Z.rem i 2 =? 0 then w else (- w)%float in
         Some (S k, poke nn (weight_at n i) w))
      (k, t) = Some (k1, t1) /\
    frame t t1 (fun a => exists i, 0 <= i < wc /\ a = weight_at n i) /\
    forall i, 0 <= i < wc ->
      exists w, rd t1 (weight_at n i) = Some w /\ drawn_weight i w.
Proof.
  intros Hwc.
  set (P := fun (j : Z) (st : nat * Network) =>
    frame t (snd st) (fun a => exists i, 0 <= i < j /\ a = weight_at n i) /\
    forall i, 0 <= i < j ->
      exists w, rd (snd st) (weight_at n i) = Some w /\ drawn_weight i w).
  match goal with
  | |- context [for_lt ?n ?b ?s] =>
      destruct (for_lt_inv P b n s Hwc) as [[k1 t1] [Hloop (Hfr & Hval)]]
  end.
  - split; [apply frame_refl | intros i Hi; lia].
  - intros j [k' t'] Hj [Hfr Hval]. cbn [fst snd] in *.
    eexists. split; [reflexivity |]. unfold P. cbn [fst snd]. split.
    + eapply frame_trans.
      * eapply frame_weaken; [| exact Hfr].
        intros a (i & Hi & E). exists i. split; [lia | assumption].
      * apply frame_poke. exists j. split; [lia | reflexivity].
    + intros i Hi. destruct (Z.eq_dec i j) as [-> | Hne].
      * rewrite rd_poke_same. eexists. split; [reflexivity |]. exists k'. reflexivity.
      * rewrite rd_poke_other.
        -- apply Hval. lia.
        -- unfold weight_at, sizeof_double. lia.
  - exists k1, t1. split; [assumption |]. split.
    + eapply frame_weaken; [| exact Hfr]. intros a H. exact H.
    + assumption.
Qed.

Lemma initWeights_spec (nn : Network) (k : nat) (L : LayerType) :
  wf nn ni nh no -> L <> INPUT ->
  exists k' nn',
    initWeights RAND_MAX rand (k, nn) L = Some (k', nn') /\
    same_shape nn nn' /\
    frame nn nn' (layer_params ni nh no nn L) /\
    forall o, 0 <= o < ncountOf ni nh no L ->
      (forall i, 0 <= i < wcountOf ni nh no L ->
         exists w, rd nn' (slot nn L o (FWeight i)) = Some w /\ drawn_weight i w) /\
      exists b, rd nn' (slot nn L o FBias) = Some b /\ drawn_bias o b.
Proof.
  intros Hwf HL. unfold initWeights.
  rewrite (wf_ncount nn ni nh no Hwf L). cbn [obind].
  assert (Hsz : (if LayerType_eqb L HIDDEN then hidNodeSize nn else outNodeSize nn)
                = nodeSizeOf nn L).
  { destruct L; [congruence | reflexivity | reflexivity]. }
  rewrite Hsz.
  set (P := fun (j : Z) (st : Z * nat * Network) =>
    fst (fst st) = node_at nn L j /\
    same_shape nn (snd st) /\
    frame nn (snd st) (params_below ni nh no nn L j) /\
    forall o, 0 <= o < j ->
      (forall i, 0 <= i < wcountOf ni nh no L ->
         exists w, rd (snd st) (slot nn L o (FWeight i)) = Some w /\ drawn_weight i w) /\
      exists b, rd (snd st) (slot nn L o FBias) = Some b /\ drawn_bias o b).
  match goal with
  | |- context [for_lt ?n ?b ?s] =>
      destruct (for_lt_inv P b n s) as [[[sb k1] nn1] [Hloop (Hsb & Hsh & Hfr & Hval)]]
  end.
  - pose proof (ncountOf_pos nn ni nh no Hwf L). lia.
  - unfold P. cbn [fst snd]. split; [unfold node_at; lia |].
    split; [apply same_shape_refl |]. split; [apply frame_refl |].
    intros o Ho. lia.
  - intros j [[sb k0] t] Hj (Hsb & Hsh & Hfr & Hval). cbn [fst snd] in *. subst sb.
    pose proof (same_shape_wf _ _ _ _ _ Hsh Hwf) as Hwt.
    pose proof (frame_header _ _ _ Hfr) as Hh.
    pose proof (wf_wcount t ni nh no Hwt L j Hj) as Hwc.
    rewrite (same_header_node_at _ _ _ _ Hh) in Hwc. rewrite Hwc. cbn [obind].
    destruct (initWeights_node t (node_at nn L j) (wcountOf ni nh no L) k0
                (wcountOf_nonneg nn ni nh no Hwf L))
      as (k1 & t1 & Hin & Hfr1 & Hv1).
    cbv zeta in Hin. rewrite Hin. cbn [obind].
    eexists. split; [reflexivity |].
    set (b := if Z.rem j 2 =? 0
              then unit_draw RAND_MAX rand k1
              else (- unit_draw RAND_MAX rand k1)%float).
    set (t2 := poke t1 (node_at nn L j + off_bias) b).
    assert (Hfr2 : frame t t2 (node_params ni nh no nn L j)).
    { eapply frame_trans.
      - eapply frame_weaken; [| exact Hfr1].
        intros a (i & Hi & ->). right. exists i. split; [assumption | reflexivity].
      - apply frame_poke. left. reflexivity. }
    assert (Hv2 : forall i, 0 <= i < wcountOf ni nh no L ->
              exists w, rd t2 (slot nn L j (FWeight i)) = Some w /\ drawn_weight i w).
    { intros i Hi. unfold t2. rewrite rd_poke_other.
      - now apply Hv1.
      - unfold slot, field_at, weight_at, off_weights, off_bias, sizeof_double. lia. }
    assert (Hb2 : rd t2 (slot nn L j FBias) = Some b).
    { unfold t2. apply rd_poke_same. }
    assert (Hsh2 : same_shape t t2).
    { apply (frame_fields_shape ni nh no t t2 _ Hwt Hfr2).
      - intros a Ha.
        destruct (node_params_field ni nh no nn L j a Hj Ha) as (f & Hv & -> & _).
        exists L, j, f. split; [assumption |].
        symmetry. apply (same_header_slot _ _ _ _ _ Hh).
      - intros a [-> | (i & Hi & ->)]; [eauto |].
        destruct (Hv2 i Hi) as (w & Hw & _). eauto. }
    unfold P. cbn [fst snd]. split; [| split; [| split]].
    + unfold node_at. lia.
    + eapply same_shape_trans; eassumption.
    + eapply frame_trans.
      * eapply frame_weaken; [| exact Hfr].
        intros a (i & Hi & Hn & Hp). exists i. split; [lia | split; assumption].
      * eapply frame_weaken; [| exact Hfr2].
        intros a Hp. exists j. split; [lia | split; [lia | assumption]].
    + intros o Ho. destruct (Z.eq_dec o j) as [-> | Hne].
      * split; [exact Hv2 |]. exists b. split; [exact Hb2 |]. exists k1. reflexivity.
      * assert (Hkeep : forall f, valid_slot ni nh no L o f ->
                  rd t2 (slot nn L o f) = rd t (slot nn L o f)).
        { intros f Hv. apply (frame_rd _ _ _ _ Hfr2). intros Hp.
          destruct (node_params_field ni nh no nn L j _ Hj Hp) as (f' & Hv' & Ef & _).
          apply (slot_inj nn ni nh no Hwf) in Ef; [| assumption | assumption].
          lia. }
        destruct (Hval o ltac:(lia)) as [Hwo Hbo]. split.
        -- intros i Hi. rewrite Hkeep by (split; [lia | assumption]). now apply Hwo.
        -- rewrite Hkeep by (split; [lia | exact I]). assumption.
  - rewrite Hloop. cbn [obind fst snd] in *.
    exists k1, nn1. split; [reflexivity |]. split; [assumption |].
    split; [assumption |]. assumption.
Qed.

Lemma zero_layer_rd (nn : Network) (L : LayerType) (i : Z) (f : field) :
  sizes_of nn ni nh no ->
  zero_layer (layers nn) (getLayer nn L) (ncountOf ni nh no L)
             (sizeof_Node + wcountOf ni nh no L * sizeof_double)
             (wcountOf ni nh no L) ->
  valid_slot ni nh no L i f ->
  rd nn (slot nn L i f) = Some 0%float.
Proof.
  intros HS [_ Hnodes] [Hi Hf]. destruct (Hnodes i Hi) as (Hb & Ho & _ & Hws).
  unfold rd, load_dbl, slot, node_at.
  rewrite (sizes_of_nodeSizeOf nn ni nh no L HS).
  destruct f; cbn [field_at].
  - now rewrite Hb.
  - now rewrite Ho.
  - now rewrite (Hws k Hf).
Qed.

(** Where the sizes fit, [createNetwork] is the construction on the sizes
    themselves. *)
Lemma createNetwork_fits :
  0 < ni -> 0 < nh -> 0 < no -> sizes_fit ni nh no ->
  createNetwork RAND_MAX rand ni nh no =
  (let nn := mkNetwork sizeof_Node (sizeof_Layer + ni * sizeof_Node)
                       (sizeof_Node + ni * sizeof_double)
                       (sizeof_Layer + nh * (sizeof_Node + ni * sizeof_double))
                       (sizeof_Node + nh * sizeof_double)
                       (sizeof_Layer + no * (sizeof_Node + nh * sizeof_double))
                       0%float SIGMOID SIGMOID malloc in
   let nn := initNetwork nn ni nh no in
   let nn := setNetworkDefaults nn in
   st <- initWeights RAND_MAX rand (O, nn) HIDDEN ;;
   '(_, nn) <- initWeights RAND_MAX rand st OUTPUT ;;
   Some nn).
Proof.
  intros Hni Hnh Hno HF.
  destruct (sizes_fit_ints ni nh no Hni Hnh Hno HF)
    as (E1 & E2 & E3 & E4 & E5 & E6 & E7 & E8).
  unfold createNetwork. cbv zeta.
  rewrite E1. cbn [obind]. rewrite E2. cbn [obind].
  rewrite E3. cbn [obind]. rewrite E4. cbn [obind]. rewrite E5. cbn [obind].
  rewrite E6. cbn [obind]. rewrite E7. cbn [obind]. rewrite E8. cbn [obind].
  reflexivity.
Qed.

Lemma createNetwork_spec :
  0 < ni -> 0 < nh -> 0 < no -> sizes_fit ni nh no ->
  exists nn,
    createNetwork RAND_MAX rand ni nh no = Some nn /\
    wf nn ni nh no /\
    learningRate nn = 0.2%float /\
    hidLayerActType nn = SIGMOID /\ outLayerActType nn = SIGMOID /\
    (forall i, 0 <= i < ni ->
       rd nn (slot nn INPUT i FBias) = Some 0%float /\
       rd nn (slot nn INPUT i FOutput) = Some 0%float) /\
    (forall L o, L <> INPUT -> 0 <= o < ncountOf ni nh no L ->
       rd nn (slot nn L o FOutput) = Some 0%float /\
       (forall i, 0 <= i < wcountOf ni nh no L ->
          exists w, rd nn (slot nn L o (FWeight i)) = Some w /\ drawn_weight i w) /\
       exists b, rd nn (slot nn L o FBias) = Some b /\ drawn_bias o b).
Proof.
  intros Hni Hnh Hno HF. rewrite (createNetwork_fits Hni Hnh Hno HF). cbv zeta.
  set (nn0 := mkNetwork _ _ _ _ _ _ _ _ _ _).
  assert (HS0 : sizes_of nn0 ni nh no) by (unfold sizes_of, nn0; cbn; tauto).
  destruct (initNetwork_zero nn0 ni nh no ltac:(lia) ltac:(lia) ltac:(lia) HS0)
    as [Hh1 HZ1].
  set (nn1 := initNetwork nn0 ni nh no) in *.
  set (nn2 := setNetworkDefaults nn1).
  assert (HS2 : sizes_of nn2 ni nh no) by (unfold sizes_of, nn2, nn1, nn0; cbn; tauto).
  assert (HZ2 : forall L,
    zero_layer (layers nn2) (getLayer nn2 L) (ncountOf ni nh no L)
               (sizeof_Node + wcountOf ni nh no L * sizeof_double)
               (wcountOf ni nh no L)).
  { intros L. specialize (HZ1 L). destruct L; exact HZ1. }
  pose proof (zero_layers_wf nn2 ni nh no Hni Hnh Hno HF HS2 HZ2) as Hwf2.
  destruct (initWeights_spec nn2 O HIDDEN Hwf2 ltac:(discriminate))
    as (k3 & nn3 & Hrun3 & Hsh3 & Hfr3 & Hv3).
  rewrite Hrun3. cbn [obind].
  pose proof (same_shape_wf _ _ _ _ _ Hsh3 Hwf2) as Hwf3.
  pose proof (frame_header _ _ _ Hfr3) as Hh3.
  destruct (initWeights_spec nn3 k3 OUTPUT Hwf3 ltac:(discriminate))
    as (k4 & nn4 & Hrun4 & Hsh4 & Hfr4 & Hv4).
  rewrite Hrun4. cbn [obind].
  pose proof (same_shape_wf _ _ _ _ _ Hsh4 Hwf3) as Hwf4.
  pose proof (frame_header _ _ _ Hfr4) as Hh4.
  pose proof (same_header_trans _ _ _ Hh3 Hh4) as Hh24.
  assert (Hfr4' : frame nn3 nn4 (layer_params ni nh no nn2 OUTPUT)).
  { eapply frame_weaken; [| exact Hfr4].
    intros a (i & Hi & Hn & Hp). exists i. split; [assumption | split; [assumption |]].
    now apply (node_params_header ni nh no nn2 nn3). }
  assert (Hkeep3 : forall L i f, valid_slot ni nh no L i f ->
            L <> HIDDEN \/ f = FOutput ->
            rd nn3 (slot nn2 L i f) = rd nn2 (slot nn2 L i f)).
  { intros L i f Hv Hor. apply (frame_rd _ _ _ _ Hfr3).
    now apply (params_below_not_slot ni nh no nn2 HIDDEN L _ i f Hwf2 Hv). }
  assert (Hkeep4 : forall L i f, valid_slot ni nh no L i f ->
            L <> OUTPUT \/ f = FOutput ->
            rd nn4 (slot nn2 L i f) = rd nn3 (slot nn2 L i f)).
  { intros L i f Hv Hor. apply (frame_rd _ _ _ _ Hfr4').
    now apply (params_below_not_slot ni nh no nn2 OUTPUT L _ i f Hwf2 Hv). }
  exists nn4. split; [reflexivity |]. split; [assumption |].
  destruct Hh24 as (_ & _ & _ & _ & _ & _ & Hlr & Ha1 & Ha2).
  split; [rewrite Hlr; reflexivity |].
  split; [rewrite Ha1; reflexivity |]. split; [rewrite Ha2; reflexivity |].
  pose proof (same_header_trans _ _ _ Hh3 Hh4) as Hh24.
  split.
  - intros i Hi. rewrite !(same_header_slot _ _ _ _ _ Hh24).
    assert (Hvb : valid_slot ni nh no INPUT i FBias) by (split; [assumption | exact I]).
    assert (Hvo : valid_slot ni nh no INPUT i FOutput) by (split; [assumption | exact I]).
    split.
    + rewrite Hkeep4, Hkeep3 by (assumption || (left; discriminate)).
      now apply (zero_layer_rd nn2 INPUT i FBias HS2 (HZ2 INPUT)).
    + rewrite Hkeep4, Hkeep3 by (assumption || (left; discriminate)).
      now apply (zero_layer_rd nn2 INPUT i FOutput HS2 (HZ2 INPUT)).
  - intros L o HL Ho. rewrite !(same_header_slot _ _ _ _ _ Hh24).
    assert (Hvo : valid_slot ni nh no L o FOutput) by (split; [assumption | exact I]).
    split; [| split].
    + rewrite Hkeep4, Hkeep3 by (assumption || (right; reflexivity)).
      now apply (zero_layer_rd nn2 L o FOutput HS2 (HZ2 L)).
    + intros i Hi. rewrite (same_header_slot _ _ _ _ _ Hh24).
      destruct L; [congruence | |].
      * rewrite Hkeep4 by ((split; [assumption | assumption]) || (left; discriminate)).
        destruct (Hv3 o Ho) as [Hw _]. now apply Hw.
      * destruct (Hv4 o Ho) as [Hw _]. specialize (Hw i Hi).
        now rewrite (same_header_slot _ _ _ _ _ Hh3) in Hw.
    + destruct L; [congruence | |].
      * rewrite Hkeep4 by ((split; [assumption | exact I]) || (left; discriminate)).
        destruct (Hv3 o Ho) as [_ Hb]. exact Hb.
      * destruct (Hv4 o Ho) as [_ Hb].
        now rewrite (same_header_slot _ _ _ _ _ Hh3) in Hb.
Qed.


Lemma rem2_even (i : Z) : 0 <= i -> (Z.rem i 2 =? 0) = Z.even i.
Proof.
  intros Hi. rewrite Z.rem_mod_nonneg by lia. rewrite Zmod_even.
  destruct (Z.even i); reflexivity.
Qed.

Lemma drawn_weight_bounds (i : Z) (w : float) :
  0 < RAND_MAX < 2 ^ 53 -> (forall k, 0 <= rand k <= RAND_MAX) ->
  0 <= i -> drawn_weight i w ->
  (abs w <=? 0.7)%float = true /\
  (Z.even i = true -> (0 <=? w)%float = true) /\
  (Z.odd i = true -> (w <=? 0)%float = true).
Proof.
  intros HRM Hrand Hi [k ->]. rewrite (rem2_even i Hi).
  pose proof (unit_ratio (rand k) RAND_MAX (Hrand k) HRM) as Hu.
  fold (unit_draw RAND_MAX rand k) in Hu.
  destruct (scale_unit_interval _ Hu) as [Hs Hle].
  destruct (signed_nonneg _ Hs) as (H0 & Hopp & Habs & Habso).
  rewrite <- Z.negb_even.
  destruct (Z.even i); cbn [negb].
  - rewrite Habs. repeat split; auto; discriminate.
  - rewrite Habso. repeat split; auto; discriminate.
Qed.

Lemma drawn_bias_bounds (o : Z) (b : float) :
  0 < RAND_MAX < 2 ^ 53 -> (forall k, 0 <= rand k <= RAND_MAX) ->
  0 <= o -> drawn_bias o b ->
  (abs b <=? 1)%float = true /\
  (Z.even o = true -> (0 <=? b)%float = true) /\
  (Z.odd o = true -> (b <=? 0)%float = true).
Proof.
  intros HRM Hrand Ho [k ->]. rewrite (rem2_even o Ho).
  pose proof (unit_ratio (rand k) RAND_MAX (Hrand k) HRM) as Hu.
  fold (unit_draw RAND_MAX rand k) in Hu.
  destruct (unit_interval_signed _ Hu) as [Hs Hle].
  destruct (signed_nonneg _ Hs) as (H0 & Hopp & Habs & Habso).
  rewrite <- Z.negb_even.
  destruct (Z.even o); cbn [negb].
  - rewrite Habs. repeat split; auto; discriminate.
  - rewrite Habso. repeat split; auto; discriminate.
Qed.


End Randomization.

(** * Loops that fail *)

Lemma fold_obind_none {St : Type} (body : Z -> St -> option St) (l : list Z) :
  fold_left (fun acc j => obind acc (body j)) l None = None.
Proof. induction l as [| j l IH]; [reflexivity | exact IH]. Qed.

(** A loop with a round that has no result has no result. *)
Lemma for_lt_fails {St : Type} (body : Z -> St -> option St) (n j : Z) (s : St) :
  0 <= j < n -> (forall t, body j t = None) -> for_lt n body s = None.
Proof.
  intros Hj Hnone. rewrite for_lt_monadic.
  assert (Hin : In j (Zrange n)) by now apply in_Zrange.
  generalize (Some s). induction (Zrange n) as [| i l IH]; intros acc;
    [contradiction |].
  cbn [fold_left]. destruct Hin as [-> | Hin].
  - replace (obind acc (body j)) with (@None St);
      [apply fold_obind_none |].
    destruct acc as [t |]; cbn [obind]; [now rewrite Hnone | reflexivity].
  - now apply IH.
Qed.

(** * Further properties of the operations *)

Section Passes.

Variable c_tanh : float -> float.
Variable c_exp : float -> float.
Variable c_pow : float -> float -> float.

Variables (ni nh no : Z).

#[local] Abbreviation node_params := (node_params ni nh no).
#[local] Abbreviation weighted_sum := (weighted_sum ni nh no).
#[local] Abbreviation outputs_below := (outputs_below ni nh no).
#[local] Abbreviation layer_outputs := (layer_outputs ni nh no).
#[local] Abbreviation params_below := (params_below ni nh no).
#[local] Abbreviation layer_params := (layer_params ni nh no).

(** ** What each pass leaves alone *)

Lemma layer_outputs_slot (nn : Network) (L : LayerType) (a : Z) :
  layer_outputs nn L a ->
  exists i, 0 <= i < ncountOf ni nh no L /\ a = slot nn L i FOutput.
Proof.
  intros (i & Hi & _ & Ha). exists i. split; assumption.
Qed.

Lemma layer_params_slot (nn : Network) (L : LayerType) (a : Z) :
  layer_params nn L a ->
  exists i f, valid_slot ni nh no L i f /\ f <> FOutput /\ a = slot nn L i f.
Proof.
  intros (i & Hi & _ & Hp).
  destruct (node_params_field ni nh no nn L i a Hi Hp) as (f & Hv & Ha & Hf).
  exists i, f. repeat split; try assumption; apply Hv.
Qed.

Lemma feedForwardNetwork_frame (nn : Network) :
  wf nn ni nh no ->
  exists nn',
    feedForwardNetwork c_tanh c_exp nn = Some nn' /\
    wf nn' ni nh no /\
    same_header nn nn' /\
    forall a,
      (forall L i, L <> INPUT -> 0 <= i < ncountOf ni nh no L ->
                   a <> slot nn L i FOutput) ->
      layers nn' a = layers nn a.
Proof.
  intros Hwf.
  destruct (feedForwardNetwork_spec c_tanh c_exp ni nh no nn Hwf)
    as (nn1 & nn2 & _ & _ & Hrun & Hs1 & Hs2 & Hf1 & Hf2 & _).
  exists nn2. split; [exact Hrun |]. split.
  { apply (same_shape_wf nn1); [exact Hs2 |]. now apply (same_shape_wf nn). }
  split.
  { apply (same_header_trans nn nn1 nn2); [apply Hs1 | apply Hs2]. }
  intros a Ha.
  destruct Hf1 as [_ Hf1], Hf2 as [_ Hf2].
  rewrite Hf2, Hf1; [reflexivity | |].
  - intros H. apply layer_outputs_slot in H. destruct H as (i & Hi & E).
    apply (Ha HIDDEN i); [discriminate | exact Hi | exact E].
  - intros H. apply layer_outputs_slot in H. destruct H as (i & Hi & E).
    apply (Ha OUTPUT i); [discriminate | exact Hi | exact E].
Qed.

Lemma backPropagateNetwork_frame (nn : Network) (t : Z) :
  wf nn ni nh no ->
  exists nn',
    backPropagateNetwork c_tanh c_pow nn t = Some nn' /\
    wf nn' ni nh no /\
    same_header nn nn' /\
    forall a,
      (forall L i f, L <> INPUT -> valid_slot ni nh no L i f -> f <> FOutput ->
                     a <> slot nn L i f) ->
      layers nn' a = layers nn a.
Proof.
  intros Hwf.
  destruct (backPropagateNetwork_spec c_tanh c_pow ni nh no nn t Hwf)
    as (nn1 & nn2 & _ & _ & Hrun & Hs1 & Hs2 & Hf1 & Hf2).
  exists nn2. split; [exact Hrun |]. split.
  { apply (same_shape_wf nn1); [exact Hs2 |]. now apply (same_shape_wf nn). }
  split.
  { apply (same_header_trans nn nn1 nn2); [apply Hs1 | apply Hs2]. }
  intros a Ha.
  destruct Hf1 as [_ Hf1], Hf2 as [_ Hf2].
  rewrite Hf2, Hf1; [reflexivity | |].
  - intros H. apply layer_params_slot in H. destruct H as (i & f & Hv & Hf & E).
    apply (Ha OUTPUT i f); [discriminate | exact Hv | exact Hf | exact E].
  - intros H. apply layer_params_slot in H. destruct H as (i & f & Hv & Hf & E).
    apply (Ha HIDDEN i f); [discriminate | exact Hv | exact Hf | exact E].
Qed.

(** A cell that keeps its content keeps it for every reader. *)
Lemma kept_slot (nn nn' : Network) (L : LayerType) (i : Z) (f : field) :
  same_header nn nn' ->
  layers nn' (slot nn L i f) = layers nn (slot nn L i f) ->
  rd nn' (slot nn' L i f) = rd nn (slot nn L i f).
Proof.
  intros Hh E. rewrite (same_header_slot nn nn' L i f Hh).
  unfold rd, load_dbl. now rewrite E.
Qed.

(** X1.  A forward pass on a well-formed network has a result, and only the
    output fields of the hidden and of the output nodes can differ in it:
    every bias, every weight and every output of an input node reads as
    before, and so does every other cell of the arena. *)
Theorem feedForwardNetwork_keeps_parameters (nn : Network) :
  wf nn ni nh no ->
  exists nn',
    feedForwardNetwork c_tanh c_exp nn = Some nn' /\
    wf nn' ni nh no /\
    same_header nn nn' /\
    (forall L i f, valid_slot ni nh no L i f -> L = INPUT \/ f <> FOutput ->
       rd nn' (slot nn' L i f) = rd nn (slot nn L i f)) /\
    (forall a,
       (forall L i, L <> INPUT -> 0 <= i < ncountOf ni nh no L ->
                    a <> slot nn L i FOutput) ->
       layers nn' a = layers nn a).
Proof.
  intros Hwf.
  destruct (feedForwardNetwork_frame nn Hwf) as (nn' & Hrun & Hwf' & Hh & Hfr).
  exists nn'. repeat (split; [assumption |]). split; [| exact Hfr].
  intros L i f Hv Hk. apply kept_slot; [exact Hh |]. apply Hfr.
  intros L' i' HL' Hi' E.
  destruct (slot_inj nn ni nh no Hwf L L' i i' f FOutput Hv (conj Hi' I) E)
    as (-> & _ & ->).
  destruct Hk as [Hk | Hk]; [now apply HL' | now apply Hk].
Qed.

(** X2.  A backward pass on a well-formed network has a result for every
    target, in range or not, and only biases and weights of hidden and output
    nodes can differ in it: the output of every node of the three layers, and
    the whole input layer, read as before. *)
Theorem backPropagateNetwork_keeps_outputs (nn : Network) (t : Z) :
  wf nn ni nh no ->
  exists nn',
    backPropagateNetwork c_tanh c_pow nn t = Some nn' /\
    wf nn' ni nh no /\
    same_header nn nn' /\
    (forall L i f, valid_slot ni nh no L i f -> L = INPUT \/ f = FOutput ->
       rd nn' (slot nn' L i f) = rd nn (slot nn L i f)) /\
    (forall a,
       (forall L i f, L <> INPUT -> valid_slot ni nh no L i f -> f <> FOutput ->
                      a <> slot nn L i f) ->
       layers nn' a = layers nn a).
Proof.
  intros Hwf.
  destruct (backPropagateNetwork_frame nn t Hwf) as (nn' & Hrun & Hwf' & Hh & Hfr).
  exists nn'. repeat (split; [assumption |]). split; [| exact Hfr].
  intros L i f Hv Hk. apply kept_slot; [exact Hh |]. apply Hfr.
  intros L' i' f' HL' Hv' Hf' E.
  destruct (slot_inj nn ni nh no Hwf L L' i i' f f' Hv Hv' E) as (-> & _ & ->).
  destruct Hk as [Hk | Hk]; [now apply HL' | now apply Hf'].
Qed.

(** ** The classification *)

(** What the scan of [getNetworkClassification] holds after the output nodes
    below [j]: nothing positive seen and index 0, or the first node whose
    output is the largest seen. *)
Lemma scan_first_maximum (nn : Network) (j : Z) :
  0 <= j ->
  let acc := fold_left (scan_step nn) (Zrange j) (0%float, 0) in
  0 <= snd acc /\ (snd acc < j \/ snd acc = 0) /\
  ((snd acc = 0 /\ fst acc = 0%float /\
    forall k, 0 <= k < j -> (0 <? outputOf nn k)%float = false) \/
   (fst acc = outputOf nn (snd acc) /\
    (0 <? fst acc)%float = true /\
    (forall k, 0 <= k < j -> (fst acc <? outputOf nn k)%float = false) /\
    (forall k, 0 <= k < snd acc -> (fst acc <=? outputOf nn k)%float = false))).
Proof.
  intros Hj.
  apply (fold_Zrange_inv
           (fun j acc =>
              0 <= snd acc /\ (snd acc < j \/ snd acc = 0) /\
              ((snd acc = 0 /\ fst acc = 0%float /\
                forall k, 0 <= k < j -> (0 <? outputOf nn k)%float = false) \/
               (fst acc = outputOf nn (snd acc) /\
                (0 <? fst acc)%float = true /\
                (forall k, 0 <= k < j -> (fst acc <? outputOf nn k)%float = false) /\
                (forall k, 0 <= k < snd acc ->
                           (fst acc <=? outputOf nn k)%float = false))))
           (scan_step nn) j (0%float, 0) Hj).
  - cbn [fst snd]. split; [lia |]. split; [now right |]. left.
    split; [reflexivity |]. split; [reflexivity |]. intros k Hk. lia.
  - intros i [mo mi] Hi (Hmi & Hlt & Hinv). cbn [fst snd] in *.
    unfold scan_step. cbn [fst]. fold (outputOf nn i).
    destruct (mo <? outputOf nn i)%float eqn:Hcmp; cbn [fst snd].
    + (* node [i] takes over *)
      split; [lia |]. split; [left; lia |]. right.
      assert (Hpos : (0 <? outputOf nn i)%float = true).
      { destruct Hinv as [(_ & -> & _) | (_ & Hp & _)]; [exact Hcmp |].
        exact (float_ltb_trans _ _ _ Hp Hcmp). }
      split; [reflexivity |]. split; [exact Hpos |].
      assert (Hbelow : forall k, 0 <= k < i ->
                (mo <? outputOf nn k)%float = false).
      { destruct Hinv as [(_ & -> & Hz) | (_ & _ & Hm & _)]; assumption. }
      split.
      * intros k Hk. destruct (Z.eq_dec k i) as [-> | Hne];
          [apply float_ltb_irrefl |].
        destruct (outputOf nn i <? outputOf nn k)%float eqn:E; [| reflexivity].
        rewrite <- (Hbelow k ltac:(lia)). symmetry.
        exact (float_ltb_trans _ _ _ Hcmp E).
      * intros k Hk.
        destruct (outputOf nn i <=? outputOf nn k)%float eqn:E; [| reflexivity].
        rewrite <- (Hbelow k ltac:(lia)). symmetry.
        exact (float_ltb_leb_trans _ _ _ Hcmp E).
    + (* the running maximum stays *)
      split; [lia |]. split; [lia |].
      destruct Hinv as [(H0 & Hmo & Hz) | (Hmo & Hp & Hm & Hf)].
      * left. split; [assumption |]. split; [assumption |].
        intros k Hk. destruct (Z.eq_dec k i) as [-> | Hne].
        -- now rewrite <- Hmo.
        -- apply Hz. lia.
      * right. split; [assumption |]. split; [assumption |]. split; [| assumption].
        intros k Hk. destruct (Z.eq_dec k i) as [-> | Hne]; [assumption |].
        apply Hm. lia.
Qed.

(** X3.  [getNetworkClassification] on a well-formed network returns an index
    of the output layer.  If no output is greater than zero it is index 0;
    otherwise it is the first node among those with the largest output: its
    output is positive, no output is greater, and every output before it is
    smaller (or not a number). *)
Theorem getNetworkClassification_first_maximum (nn : Network) :
  wf nn ni nh no ->
  exists r,
    getNetworkClassification nn = Some r /\
    0 <= r < no /\
    ((r = 0 /\ forall k, 0 <= k < no -> (0 <? outputOf nn k)%float = false) \/
     ((0 <? outputOf nn r)%float = true /\
      (forall k, 0 <= k < no -> (outputOf nn r <? outputOf nn k)%float = false) /\
      (forall k, 0 <= k < r -> (outputOf nn r <=? outputOf nn k)%float = false))).
Proof.
  intros Hwf. pose proof (wf_no _ _ _ _ Hwf) as Hno.
  rewrite (getNetworkClassification_scan ni nh no nn Hwf).
  pose proof (scan_first_maximum nn no ltac:(lia)) as H. cbv zeta in H.
  destruct (fold_left (scan_step nn) (Zrange no) (0%float, 0)) as [mo mi].
  cbn [fst snd] in *. destruct H as (Hmi & Hlt & Hinv).
  exists mi. split; [reflexivity |]. split; [lia |].
  destruct Hinv as [(H0 & _ & Hz) | (Hmo & Hp & Hm & Hf)].
  - left. split; assumption.
  - right. rewrite <- Hmo. repeat split; assumption.
Qed.

(** The classification is read off the outputs of the output layer. *)
Lemma getNetworkClassification_ext (nn nn' : Network) :
  wf nn ni nh no -> wf nn' ni nh no ->
  (forall o, 0 <= o < no -> outputOf nn' o = outputOf nn o) ->
  getNetworkClassification nn' = getNetworkClassification nn.
Proof.
  intros Hwf Hwf' Hout.
  rewrite (getNetworkClassification_scan ni nh no nn Hwf).
  rewrite (getNetworkClassification_scan ni nh no nn' Hwf').
  do 2 f_equal. apply fold_left_ext_in.
  intros acc o Ho. apply in_Zrange in Ho.
  unfold scan_step. fold (outputOf nn' o) (outputOf nn o).
  now rewrite (Hout o Ho).
Qed.

Lemma kept_output (nn nn' : Network) (o : Z) :
  rd nn' (slot nn' OUTPUT o FOutput) = rd nn (slot nn OUTPUT o FOutput) ->
  outputOf nn' o = outputOf nn o.
Proof. intros H. unfold outputOf, rdd. now rewrite H. Qed.

(** X4.  The classification read after a backward pass is the one the
    forward pass left: [backPropagateNetwork] changes no output, so
    [getNetworkClassification] returns the same index before and after it. *)
Theorem backPropagateNetwork_keeps_classification (nn : Network) (t : Z) :
  wf nn ni nh no ->
  exists nn' r,
    backPropagateNetwork c_tanh c_pow nn t = Some nn' /\
    getNetworkClassification nn = Some r /\
    getNetworkClassification nn' = Some r.
Proof.
  intros Hwf.
  destruct (backPropagateNetwork_frame nn t Hwf) as (nn' & Hrun & Hwf' & Hh & Hfr).
  exists nn', (snd (fold_left (scan_step nn) (Zrange no) (0%float, 0))).
  split; [exact Hrun |].
  rewrite <- (getNetworkClassification_scan ni nh no nn Hwf).
  split; [reflexivity |].
  apply getNetworkClassification_ext; try assumption.
  intros o Ho. apply kept_output, kept_slot; [exact Hh |]. apply Hfr.
  intros L i f HL Hv Hf E.
  destruct (slot_inj nn ni nh no Hwf OUTPUT L o i FOutput f (conj Ho I) Hv E)
    as (_ & _ & <-).
  now apply Hf.
Qed.

(** ** Running a pass again *)

Lemma bounded_exists_dec (P : Z -> Prop) :
  (forall i, P i \/ ~ P i) ->
  forall n, (exists i, 0 <= i < n /\ P i) \/ ~ (exists i, 0 <= i < n /\ P i).
Proof.
  intros Hdec n. destruct (Z.le_gt_cases n 0) as [Hn | Hn].
  { right. intros (i & Hi & _). lia. }
  assert (H0 : 0 <= n) by lia. clear Hn. revert n H0.
  apply natlike_ind.
  - right. intros (i & Hi & _). lia.
  - intros n Hn [(i & Hi & HP) | Hnone].
    + left. exists i. split; [lia | exact HP].
    + destruct (Hdec n) as [HP | HnP].
      * left. exists n. split; [lia | exact HP].
      * right. intros (i & Hi & HP).
        destruct (Z.eq_dec i n) as [-> | Hne]; [now apply HnP |].
        apply Hnone. exists i. split; [lia | exact HP].
Qed.

Lemma outputs_below_dec (nn : Network) (L : LayerType) (j a : Z) :
  outputs_below nn L j a \/ ~ outputs_below nn L j a.
Proof.
  unfold outputs_below.
  apply (bounded_exists_dec
           (fun i => i < ncountOf ni nh no L /\ a = slot nn L i FOutput)).
  intros i. destruct (Z.lt_ge_cases i (ncountOf ni nh no L)) as [Hi | Hi];
    [| right; lia].
  destruct (Z.eq_dec a (slot nn L i FOutput)) as [E | E]; [left | right]; tauto.
Qed.

Lemma rd_cell (nn : Network) (a : Z) (d : float) :
  rd nn a = Some d -> layers nn a = CDbl d.
Proof.
  unfold rd, load_dbl. destruct (layers nn a); try discriminate.
  now intros [= ->].
Qed.

(** The weighted sum of a node reads its bias, its weights and the outputs of
    the previous layer, and nothing else. *)
Lemma weighted_sum_ext (nn t : Network) (L : LayerType) (id : Z) :
  same_header nn t ->
  (forall i, 0 <= i < ncountOf ni nh no (prevOf L) ->
     rdd t (slot nn (prevOf L) i FOutput) = rdd nn (slot nn (prevOf L) i FOutput)) ->
  (forall i, 0 <= i < ncountOf ni nh no (prevOf L) ->
     rdd t (slot nn L id (FWeight i)) = rdd nn (slot nn L id (FWeight i))) ->
  rdd t (slot nn L id FBias) = rdd nn (slot nn L id FBias) ->
  weighted_sum t L id = weighted_sum nn L id.
Proof.
  intros Hh Hout Hw Hb. unfold weighted_sum.
  rewrite (same_header_slot nn t L id FBias Hh), Hb.
  apply fold_left_ext_in. intros acc i Hi. apply in_Zrange in Hi.
  rewrite (same_header_slot nn t (prevOf L) i FOutput Hh).
  rewrite (same_header_slot nn t L id (FWeight i) Hh).
  now rewrite (Hout i Hi), (Hw i Hi).
Qed.

Lemma layer_outputs_header (nn t : Network) (L : LayerType) (a : Z) :
  same_header nn t -> layer_outputs t L a -> layer_outputs nn L a.
Proof.
  intros Hh (i & Hi & Hn & ->). exists i.
  split; [exact Hi |]. split; [exact Hn |]. apply same_header_slot, Hh.
Qed.

Lemma not_layer_outputs (nn : Network) (L L' : LayerType) (i : Z) (f : field) :
  wf nn ni nh no -> valid_slot ni nh no L i f ->
  L <> L' \/ f <> FOutput ->
  ~ layer_outputs nn L' (slot nn L i f).
Proof.
  intros Hwf Hv Hk H. apply layer_outputs_slot in H. destruct H as (i' & Hi' & E).
  destruct (slot_inj nn ni nh no Hwf L L' i i' f FOutput Hv (conj Hi' I) E)
    as (HL & _ & Hf).
  destruct Hk as [Hk | Hk]; [now apply Hk | now apply Hk].
Qed.

(** X5.  The forward pass starts every sum from the bias, not from the old
    output: run a second time on its own result it writes the same outputs
    again, and the arena is cell for cell the one the first run left. *)
Theorem feedForwardNetwork_idempotent (nn : Network) :
  wf nn ni nh no ->
  exists nn1 nn2,
    feedForwardNetwork c_tanh c_exp nn = Some nn1 /\
    feedForwardNetwork c_tanh c_exp nn1 = Some nn2 /\
    same_header nn1 nn2 /\
    forall a, layers nn2 a = layers nn1 a.
Proof.
  intros Hwf.
  destruct (feedForwardNetwork_spec c_tanh c_exp ni nh no nn Hwf)
    as (m1 & n1 & _ & _ & Hrun1 & S1 & S2 & F1 & F2 & H1 & O1).
  assert (Hwm1 : wf m1 ni nh no) by now apply (same_shape_wf nn).
  assert (Hwn1 : wf n1 ni nh no) by now apply (same_shape_wf m1).
  destruct (feedForwardNetwork_spec c_tanh c_exp ni nh no n1 Hwn1)
    as (m2 & n2 & _ & _ & Hrun2 & S3 & S4 & F3 & F4 & H2 & O2).
  assert (Hh1 : same_header nn m1) by apply S1.
  assert (Hh2 : same_header m1 n1) by apply S2.
  assert (Hh : same_header nn n1) by now apply (same_header_trans nn m1 n1).
  assert (Hh3 : same_header n1 m2) by apply S3.
  assert (Hh4 : same_header m2 n2) by apply S4.
  (* the second run in the addresses of the first *)
  assert (F3' : frame n1 m2 (layer_outputs nn HIDDEN)).
  { apply (frame_weaken n1 m2 (layer_outputs n1 HIDDEN)); [| exact F3].
    intros a. now apply layer_outputs_header. }
  assert (F4' : frame m2 n2 (layer_outputs nn OUTPUT)).
  { apply (frame_weaken m2 n2 (layer_outputs n1 OUTPUT)); [| exact F4].
    intros a. now apply layer_outputs_header. }
  assert (Hslot : forall L i f, slot n1 L i f = slot nn L i f)
    by (intros; now apply same_header_slot).
  (* the hidden sums read nothing the first run wrote *)
  assert (E1 : forall h, 0 <= h < nh ->
            weighted_sum n1 HIDDEN h = weighted_sum nn HIDDEN h).
  { intros h Hhr.
    assert (K : forall L i f, valid_slot ni nh no L i f ->
              L = INPUT \/ f <> FOutput ->
              rdd n1 (slot nn L i f) = rdd nn (slot nn L i f)).
    { intros L i f Hv Hk.
      rewrite (frame_rdd m1 n1 (layer_outputs nn OUTPUT) _ F2),
              (frame_rdd nn m1 (layer_outputs nn HIDDEN) _ F1).
      - reflexivity.
      - apply (not_layer_outputs nn L _ i f Hwf Hv).
        destruct Hk as [-> | Hk]; [left; discriminate | right; exact Hk].
      - apply (not_layer_outputs nn L _ i f Hwf Hv).
        destruct Hk as [-> | Hk]; [left; discriminate | right; exact Hk]. }
    apply weighted_sum_ext; [exact Hh | | |].
    - intros i Hi. apply (K INPUT i FOutput); [split; [exact Hi | exact I] | now left].
    - intros i Hi. apply (K HIDDEN h (FWeight i)); [split; assumption | right; discriminate].
    - apply (K HIDDEN h FBias); [split; [exact Hhr | exact I] | right; discriminate]. }
  (* the hidden outputs of the second run *)
  assert (Hhid : forall h, 0 <= h < nh ->
            rd m2 (slot nn HIDDEN h FOutput) = rd m1 (slot nn HIDDEN h FOutput)).
  { intros h Hhr. rewrite <- (Hslot HIDDEN h FOutput) at 1.
    rewrite (H2 h Hhr), (H1 h Hhr), (E1 h Hhr).
    now rewrite (activation_header c_tanh c_exp nn n1 HIDDEN _ Hh). }
  (* the sums of the output layer *)
  assert (E2 : forall o, 0 <= o < no ->
            weighted_sum m2 OUTPUT o = weighted_sum m1 OUTPUT o).
  { intros o Hor.
    assert (K : forall i f, valid_slot ni nh no OUTPUT i f -> f <> FOutput ->
              rdd m2 (slot nn OUTPUT i f) = rdd m1 (slot nn OUTPUT i f)).
    { intros i f Hv Hk.
      rewrite (frame_rdd n1 m2 (layer_outputs nn HIDDEN) _ F3'),
              (frame_rdd m1 n1 (layer_outputs nn OUTPUT) _ F2).
      - reflexivity.
      - apply (not_layer_outputs nn OUTPUT _ i f Hwf Hv). now right.
      - apply (not_layer_outputs nn OUTPUT _ i f Hwf Hv). now right. }
    assert (Hs : forall L i f, slot m1 L i f = slot nn L i f)
      by (intros; now apply same_header_slot).
    apply weighted_sum_ext;
      [now apply (same_header_trans m1 n1 m2) | | |]; cbn [prevOf ncountOf].
    - intros h Hhr. rewrite Hs. unfold rdd. now rewrite (Hhid h Hhr).
    - intros h Hhr. rewrite Hs. apply K; [split; assumption | discriminate].
    - rewrite Hs. apply K; [split; [exact Hor | exact I] | discriminate]. }
  exists n1, n2. split; [exact Hrun1 |]. split; [exact Hrun2 |].
  split; [now apply (same_header_trans n1 m2 n2) |].
  intros a.
  destruct (outputs_below_dec nn OUTPUT no a) as [Ho | Hno].
  { apply layer_outputs_slot in Ho. destruct Ho as (o & Hor & ->).
    cbn [ncountOf] in Hor.
    rewrite (rd_cell n1 _ _ (O1 o Hor)).
    rewrite <- (Hslot OUTPUT o FOutput).
    rewrite (rd_cell n2 _ _ (O2 o Hor)).
    rewrite (E2 o Hor).
    now rewrite (activation_header c_tanh c_exp nn n1 OUTPUT _ Hh). }
  destruct F4' as [_ F4'], F2 as [_ F2].
  rewrite (F4' a Hno), (F2 a Hno).
  destruct (outputs_below_dec nn HIDDEN nh a) as [Hhd | Hnh].
  { apply layer_outputs_slot in Hhd. destruct Hhd as (h & Hhr & ->).
    cbn [ncountOf] in Hhr. pose proof (Hhid h Hhr) as E.
    rewrite (H1 h Hhr) in E.
    now rewrite (rd_cell m1 _ _ (H1 h Hhr)), (rd_cell m2 _ _ E). }
  destruct F3' as [_ F3'].
  rewrite (F3' a Hnh). now rewrite (F2 a Hno).
Qed.

Lemma outputs_below_header (nn t : Network) (L : LayerType) (j a : Z) :
  same_header nn t -> outputs_below t L j a -> outputs_below nn L j a.
Proof.
  intros Hh (i & Hi & Hn & ->). exists i.
  split; [exact Hi |]. split; [exact Hn |]. apply same_header_slot, Hh.
Qed.

(** X6.  A vector fed to the input layer wipes what a vector no longer than
    it had left there: feeding [v] and then [w] gives, cell for cell, the
    arena that feeding [w] alone gives. *)
Theorem feedInput_overwrites (nn : Network) (v w : Vector) :
  wf nn ni nh no ->
  size v <= size w -> size w <= ni ->
  size v <= Z.of_nat (length (vals v)) ->
  size w <= Z.of_nat (length (vals w)) ->
  exists n1 n2 n3,
    feedInput nn v = Some n1 /\
    feedInput n1 w = Some n2 /\
    feedInput nn w = Some n3 /\
    same_header n3 n2 /\
    forall a, layers n2 a = layers n3 a.
Proof.
  intros Hwf Hvw Hw Hlv Hlw.
  destruct (feedInput_spec ni nh no nn v Hwf ltac:(lia) Hlv) as (n1 & R1 & F1 & _).
  destruct (feedInput_evolves ni nh no nn v Hwf ltac:(lia) Hlv) as (n1' & R1' & Ev).
  assert (n1' = n1) by congruence. subst n1'.
  pose proof (evolves_wf ni nh no nn n1 Ev Hwf) as Hwf1.
  destruct (feedInput_spec ni nh no n1 w Hwf1 Hw Hlw) as (n2 & R2 & F2 & V2).
  destruct (feedInput_spec ni nh no nn w Hwf Hw Hlw) as (n3 & R3 & F3 & V3).
  assert (Hh1 : same_header nn n1) by apply F1.
  exists n1, n2, n3. repeat (split; [assumption |]). split.
  { apply (same_header_trans n3 n1 n2); [| apply F2].
    destruct F3 as [F3 _]. unfold same_header in *. intuition congruence. }
  intros a.
  destruct (outputs_below_dec nn INPUT (size w) a) as [(i & Hi & Hn & ->) | Hout].
  - assert (Hx : exists x, nth_error (vals w) (Z.to_nat i) = Some x).
    { destruct (nth_error (vals w) (Z.to_nat i)) as [x |] eqn:E; [now exists x |].
      apply nth_error_None in E. lia. }
    destruct Hx as [x Hx].
    pose proof (V2 i Hi) as E2. pose proof (V3 i Hi) as E3.
    rewrite (same_header_slot nn n1 INPUT i FOutput Hh1) in E2.
    rewrite Hx in E2, E3.
    now rewrite (rd_cell n2 _ _ E2), (rd_cell n3 _ _ E3).
  - destruct F1 as [_ F1], F2 as [_ F2], F3 as [_ F3].
    rewrite F2, F1, F3; [reflexivity | exact Hout | |].
    + intros (i & Hi & Hn & E). apply Hout. exists i.
      split; [lia |]. split; assumption.
    + intros H. apply Hout. now apply (outputs_below_header nn n1).
Qed.

(** ** The arena *)

Lemma slot_aligned (nn : Network) (L : LayerType) (i : Z) (f : field) :
  wf nn ni nh no -> (sizeof_double | slot nn L i f).
Proof.
  intros Hwf. destruct Hwf as [_ _ _ Hins Hils Hhns Hhls Hons Hols _].
  assert (Hn : forall L', (8 | nodeSizeOf nn L')).
  { intros [| |]; cbn [nodeSizeOf]; rewrite ?Hins, ?Hhns, ?Hons;
      unfold sizeof_Node, sizeof_double.
    - now exists 3.
    - exists (3 + ni). lia.
    - exists (3 + nh). lia. }
  assert (Hil : (8 | inpLayerSize nn)).
  { rewrite Hils, Hins. unfold sizeof_Layer, sizeof_Node. exists (1 + ni * 3). lia. }
  assert (Hhl : (8 | hidLayerSize nn)).
  { rewrite Hhls. unfold sizeof_Layer. apply Z.divide_add_r; [now exists 1 |].
    apply Z.divide_mul_r, (Hn HIDDEN). }
  assert (Hl : (8 | getLayer nn L)).
  { destruct L; cbn [getLayer]; repeat apply Z.divide_add_r;
      try assumption; now exists 0. }
  unfold slot, node_at, off_nodes, sizeof_double.
  assert (Hnode : (8 | getLayer nn L + 8 + i * nodeSizeOf nn L)).
  { repeat apply Z.divide_add_r; [exact Hl | now exists 1 |].
    apply Z.divide_mul_r, Hn. }
  destruct f as [| | k]; cbn [field_at];
    unfold weight_at, off_bias, off_output, off_weights, sizeof_double.
  - apply Z.divide_add_r; [exact Hnode | now exists 0].
  - apply Z.divide_add_r; [exact Hnode | now exists 1].
  - apply Z.divide_add_r; [apply Z.divide_add_r; [exact Hnode | now exists 3] |].
    apply Z.divide_mul_r. now exists 1.
Qed.

(** X7.  Every bias, output and weight that [getLayer] and [getNode] reach in
    a well-formed network lies, with its eight bytes, inside the block of
    [inpLayerSize + hidLayerSize + outLayerSize] bytes behind the header, and
    two such fields are the same field or occupy disjoint bytes. *)
Theorem node_fields_inside_arena_and_apart (nn : Network)
  (L L' : LayerType) (i i' : Z) (f f' : field) :
  wf nn ni nh no ->
  valid_slot ni nh no L i f -> valid_slot ni nh no L' i' f' ->
  0 <= slot nn L i f /\
  slot nn L i f + sizeof_double <=
    inpLayerSize nn + hidLayerSize nn + outLayerSize nn /\
  ((L = L' /\ i = i' /\ f = f') \/
   slot nn L i f + sizeof_double <= slot nn L' i' f' \/
   slot nn L' i' f' + sizeof_double <= slot nn L i f).
Proof.
  intros Hwf Hv Hv'.
  pose proof (slot_bounds nn ni nh no Hwf L i f Hv) as [Blo Bhi].
  pose proof (getLayer_nonneg nn ni nh no Hwf L) as Hl.
  destruct (layer_end_next nn ni nh no Hwf) as [E1 E2].
  pose proof (layer_end_ge nn ni nh no Hwf HIDDEN) as G1.
  pose proof (layer_end_ge nn ni nh no Hwf OUTPUT) as G2.
  assert (Eo : layer_end ni nh no nn OUTPUT =
               inpLayerSize nn + hidLayerSize nn + outLayerSize nn).
  { unfold layer_end. cbn [getLayer ncountOf nodeSizeOf].
    rewrite (wf_ols _ _ _ _ Hwf). lia. }
  split; [unfold sizeof_Layer in *; lia |]. split.
  { destruct L; unfold sizeof_Layer in *; lia. }
  destruct (Z.eq_dec (slot nn L i f) (slot nn L' i' f')) as [E | Hne].
  { left. now apply (slot_inj nn ni nh no Hwf). }
  right.
  destruct (slot_aligned nn L i f Hwf) as [q Hq].
  destruct (slot_aligned nn L' i' f' Hwf) as [q' Hq'].
  unfold sizeof_double in *. lia.
Qed.

(** ** The bounds of [feedInput] *)

(** X20.  [feedInput] reads [v->size] values and tests nothing: on a vector
    that announces no value it returns the network as it is, and on a vector
    that holds fewer values than it announces it reads behind the last one
    and has no defined result, whatever the network. *)
Theorem feedInput_reads_size_values (nn : Network) (v : Vector) :
  (size v <= 0 -> feedInput nn v = Some nn) /\
  (Z.of_nat (length (vals v)) < size v -> feedInput nn v = None).
Proof.
  split; intros H; unfold feedInput; cbv zeta.
  - unfold for_lt. now replace (Z.to_nat (size v)) with O by lia.
  - rewrite (for_lt_fails _ (size v) (Z.of_nat (length (vals v)))).
    + reflexivity.
    + lia.
    + intros [iln t]. rewrite Nat2Z.id.
      now rewrite (proj2 (nth_error_None (vals v) (length (vals v))) (Nat.le_refl _)).
Qed.

(** ** A label that names no output node *)

(** X21.  [backPropagateNetwork] does not test the label.  With a label
    outside [[0, no)] the target of every output node is 0: the pass has a
    result, and the bias of every output node moves by the learning rate
    times the error signal of the target 0, [(0 - output) * derivative]. *)
Theorem backPropagateNetwork_label_out_of_range (nn : Network) (t : Z) :
  wf nn ni nh no -> t < 0 \/ no <= t ->
  exists nn',
    backPropagateNetwork c_tanh c_pow nn t = Some nn' /\
    forall o, 0 <= o < no ->
      rd nn' (slot nn' OUTPUT o FBias) =
      Some (rdd nn (slot nn OUTPUT o FBias) +
            learningRate nn * 1 *
            ((0 - outputOf nn o) *
             getActFctDerivative c_tanh c_pow nn OUTPUT (outputOf nn o)))%float.
Proof.
  intros Hwf Ht.
  destruct (backPropagateOutputLayer_spec c_tanh c_pow ni nh no nn t Hwf)
    as (nn1 & R1 & S1 & F1 & V1).
  pose proof (same_shape_wf _ _ _ _ _ S1 Hwf) as Hwf1.
  destruct (backPropagateHiddenLayer_spec c_tanh c_pow ni nh no nn1 t Hwf1)
    as (nn2 & R2 & S2 & F2 & _).
  exists nn2. split.
  { unfold backPropagateNetwork. rewrite R1. exact R2. }
  intros o Ho.
  assert (Hh1 : same_header nn nn1) by apply S1.
  assert (Hh2 : same_header nn1 nn2) by apply S2.
  rewrite (same_header_slot nn1 nn2 OUTPUT o FBias Hh2).
  rewrite (frame_rd _ _ _ _ F2).
  - rewrite (same_header_slot nn nn1 OUTPUT o FBias Hh1).
    destruct (V1 o Ho) as [_ Hb]. rewrite Hb.
    unfold errorSignalOf, outputErrorSignal, outputOf.
    destruct (Z.eqb_spec o t) as [E | _]; [lia | reflexivity].
  - apply (params_below_not_slot ni nh no nn1 HIDDEN OUTPUT _ o FBias Hwf1).
    + split; [exact Ho | exact I].
    + left. discriminate.
Qed.

End Passes.

(** * Further properties of the construction *)

Section Fresh.

Variable RAND_MAX : Z.
Variable rand : nat -> Z.
Variables (ni nh no : Z).


End Fresh.

(** * The order of the random draws *)

Section DrawOrderFacts.

Variable RAND_MAX : Z.
Variable rand : nat -> Z.
Variables (ni nh no : Z).

#[local] Abbreviation weight_of_draw := (weight_of_draw RAND_MAX rand).
#[local] Abbreviation bias_of_draw := (bias_of_draw RAND_MAX rand).

Lemma initWeights_node_order (t : Network) (n wc : Z) (k : nat) :
  0 <= wc ->
  exists t1,
    for_lt wc
      (fun i '(k, nn) =>
         let w := (0.7 * unit_draw RAND_MAX rand k)%float in
         let w := if Z.rem i 2 =? 0 then w else (- w)%float in
         Some (S k, poke nn (weight_at n i) w))
      (k, t) = Some ((k + Z.to_nat wc)%nat, t1) /\
    frame t t1 (fun a => exists i, 0 <= i < wc /\ a = weight_at n i) /\
    forall i, 0 <= i < wc ->
      rd t1 (weight_at n i) = Some (weight_of_draw (k + Z.to_nat i)%nat i).
Proof.
  intros Hwc.
  set (P := fun (j : Z) (st : nat * Network) =>
    fst st = (k + Z.to_nat j)%nat /\
    frame t (snd st) (fun a => exists i, 0 <= i < j /\ a = weight_at n i) /\
    forall i, 0 <= i < j ->
      rd (snd st) (weight_at n i) = Some (weight_of_draw (k + Z.to_nat i)%nat i)).
  match goal with
  | |- context [for_lt ?n ?b ?s] =>
      destruct (for_lt_inv P b n s Hwc) as [[k1 t1] [Hloop (Hk & Hfr & Hval)]]
  end.
  - split; [cbn; lia |]. split; [apply frame_refl | intros i Hi; lia].
  - intros j [k' t'] Hj (Hk & Hfr & Hval). cbn [fst snd] in *.
    eexists. split; [reflexivity |]. unfold P. cbn [fst snd].
    split; [lia |]. split.
    + eapply frame_trans.
      * eapply frame_weaken; [| exact Hfr].
        intros a (i & Hi & E). exists i. split; [lia | assumption].
      * apply frame_poke. exists j. split; [lia | reflexivity].
    + intros i Hi. destruct (Z.eq_dec i j) as [-> | Hne].
      * rewrite rd_poke_same. subst k'. reflexivity.
      * rewrite rd_poke_other.
        -- apply Hval. lia.
        -- unfold weight_at, sizeof_double. lia.
  - cbn [fst snd] in *. subst k1. exists t1. split; [assumption |]. split.
    + eapply frame_weaken; [| exact Hfr]. intros a H. exact H.
    + assumption.
Qed.

Lemma draw_of_next (k : nat) (wc j : Z) :
  0 <= wc -> 0 <= j ->
  S (draw_of k wc j 0 + Z.to_nat wc) = (k + Z.to_nat ((j + 1) * (wc + 1)))%nat.
Proof. intros Hwc Hj. unfold draw_of. nia. Qed.

Lemma draw_of_weight (k : nat) (wc j i : Z) :
  0 <= wc -> 0 <= j -> 0 <= i ->
  (draw_of k wc j 0 + Z.to_nat i)%nat = draw_of k wc j i.
Proof. intros Hwc Hj Hi. unfold draw_of. nia. Qed.

Lemma initWeights_order (nn : Network) (k : nat) (L : LayerType) :
  wf nn ni nh no -> L <> INPUT ->
  exists nn',
    initWeights RAND_MAX rand (k, nn) L =
    Some ((k + Z.to_nat (ncountOf ni nh no L * (wcountOf ni nh no L + 1)))%nat, nn') /\
    same_shape nn nn' /\
    frame nn nn' (layer_params ni nh no nn L) /\
    forall o, 0 <= o < ncountOf ni nh no L ->
      (forall i, 0 <= i < wcountOf ni nh no L ->
         rd nn' (slot nn L o (FWeight i)) =
         Some (weight_of_draw (draw_of k (wcountOf ni nh no L) o i) i)) /\
      rd nn' (slot nn L o FBias) =
      Some (bias_of_draw (draw_of k (wcountOf ni nh no L) o (wcountOf ni nh no L)) o).
Proof.
  intros Hwf HL. unfold initWeights.
  rewrite (wf_ncount nn ni nh no Hwf L). cbn [obind].
  assert (Hsz : (if LayerType_eqb L HIDDEN then hidNodeSize nn else outNodeSize nn)
                = nodeSizeOf nn L).
  { destruct L; [congruence | reflexivity | reflexivity]. }
  rewrite Hsz.
  pose proof (wcountOf_nonneg nn ni nh no Hwf L) as Hwc0.
  set (wc := wcountOf ni nh no L) in *.
  set (P := fun (j : Z) (st : Z * nat * Network) =>
    fst (fst st) = node_at nn L j /\
    snd (fst st) = (k + Z.to_nat (j * (wc + 1)))%nat /\
    same_shape nn (snd st) /\
    frame nn (snd st) (params_below ni nh no nn L j) /\
    forall o, 0 <= o < j ->
      (forall i, 0 <= i < wc ->
         rd (snd st) (slot nn L o (FWeight i)) =
         Some (weight_of_draw (draw_of k wc o i) i)) /\
      rd (snd st) (slot nn L o FBias) = Some (bias_of_draw (draw_of k wc o wc) o)).
  match goal with
  | |- context [for_lt ?n ?b ?s] =>
      destruct (for_lt_inv P b n s)
        as [[[sb k1] nn1] [Hloop (Hsb & Hk1 & Hsh & Hfr & Hval)]]
  end.
  - pose proof (ncountOf_pos nn ni nh no Hwf L). lia.
  - unfold P. cbn [fst snd]. split; [unfold node_at; lia |].
    split; [cbn; lia |].
    split; [apply same_shape_refl |]. split; [apply frame_refl |].
    intros o Ho. lia.
  - intros j [[sb k0] t] Hj (Hsb & Hk0 & Hsh & Hfr & Hval). cbn [fst snd] in *.
    subst sb.
    pose proof (same_shape_wf _ _ _ _ _ Hsh Hwf) as Hwt.
    pose proof (frame_header _ _ _ Hfr) as Hh.
    pose proof (wf_wcount t ni nh no Hwt L j Hj) as Hwc.
    rewrite (same_header_node_at _ _ _ _ Hh) in Hwc. rewrite Hwc. cbn [obind].
    fold wc.
    destruct (initWeights_node_order t (node_at nn L j) wc k0 Hwc0)
      as (t1 & Hin & Hfr1 & Hv1).
    cbv zeta in Hin. rewrite Hin. cbn [obind].
    eexists. split; [reflexivity |].
    assert (Ek0 : k0 = draw_of k wc j 0).
    { unfold draw_of. rewrite Hk0. f_equal. f_equal. lia. }
    set (b := if Z.rem j 2 =? 0
              then unit_draw RAND_MAX rand (k0 + Z.to_nat wc)
              else (- unit_draw RAND_MAX rand (k0 + Z.to_nat wc))%float).
    set (t2 := poke t1 (node_at nn L j + off_bias) b).
    assert (Hfr2 : frame t t2 (node_params ni nh no nn L j)).
    { eapply frame_trans.
      - eapply frame_weaken; [| exact Hfr1].
        intros a (i & Hi & ->). right. exists i. split; [assumption | reflexivity].
      - apply frame_poke. left. reflexivity. }
    assert (Hv2 : forall i, 0 <= i < wc ->
              rd t2 (slot nn L j (FWeight i)) =
              Some (weight_of_draw (draw_of k wc j i) i)).
    { intros i Hi. unfold t2. rewrite rd_poke_other.
      - rewrite <- (draw_of_weight k wc j i) by lia. rewrite <- Ek0.
        now apply Hv1.
      - unfold slot, field_at, weight_at, off_weights, off_bias, sizeof_double. lia. }
    assert (Hb2 : rd t2 (slot nn L j FBias) = Some (bias_of_draw (draw_of k wc j wc) j)).
    { unfold t2. rewrite <- (draw_of_weight k wc j wc) by lia. rewrite <- Ek0.
      apply rd_poke_same. }
    assert (Hsh2 : same_shape t t2).
    { apply (frame_fields_shape ni nh no t t2 _ Hwt Hfr2).
      - intros a Ha.
        destruct (node_params_field ni nh no nn L j a Hj Ha) as (f & Hv & -> & _).
        exists L, j, f. split; [assumption |].
        symmetry. apply (same_header_slot _ _ _ _ _ Hh).
      - intros a [-> | (i & Hi & ->)]; [eauto |].
        rewrite (Hv2 i Hi). eauto. }
    unfold P. cbn [fst snd]. split; [| split; [| split; [| split]]].
    + unfold node_at. lia.
    + rewrite Ek0. apply draw_of_next; lia.
    + eapply same_shape_trans; eassumption.
    + eapply frame_trans.
      * eapply frame_weaken; [| exact Hfr].
        intros a (i & Hi & Hn & Hp). exists i. split; [lia | split; assumption].
      * eapply frame_weaken; [| exact Hfr2].
        intros a Hp. exists j. split; [lia | split; [lia | assumption]].
    + intros o Ho. destruct (Z.eq_dec o j) as [-> | Hne].
      * split; [exact Hv2 | exact Hb2].
      * assert (Hkeep : forall f, valid_slot ni nh no L o f ->
                  rd t2 (slot nn L o f) = rd t (slot nn L o f)).
        { intros f Hv. apply (frame_rd _ _ _ _ Hfr2). intros Hp.
          destruct (node_params_field ni nh no nn L j _ Hj Hp) as (f' & Hv' & Ef & _).
          apply (slot_inj nn ni nh no Hwf) in Ef; [| assumption | assumption].
          lia. }
        destruct (Hval o ltac:(lia)) as [Hwo Hbo]. split.
        -- intros i Hi. rewrite Hkeep by (split; [lia | assumption]). now apply Hwo.
        -- rewrite Hkeep by (split; [lia | exact I]). assumption.
  - rewrite Hloop. cbn [obind fst snd] in *. subst k1.
    exists nn1. split; [reflexivity |]. split; [assumption |].
    split; [assumption |]. assumption.
Qed.


End DrawOrderFacts.

(** * The program around the network *)

Lemma nth_error_Zrange (n i : Z) :
  0 <= i < n -> nth_error (Zrange n) (Z.to_nat i) = Some i.
Proof.
  intros Hi. unfold Zrange.
  rewrite nth_error_map, nth_error_seq.
  destruct (Nat.ltb_spec (Z.to_nat i) (Z.to_nat n)) as [_ | H]; [| lia].
  cbn. f_equal. lia.
Qed.

Lemma length_Zrange (n : Z) : Z.of_nat (length (Zrange n)) = Z.max 0 n.
Proof. unfold Zrange. rewrite length_map, length_seq. lia. Qed.

(** A loop that appends one value per round builds the list of the values. *)
Lemma repeat_lt_append {A : Type} (f : Z -> A) (n : Z) :
  repeat_lt n (fun i l => l ++ [f i]) [] = map f (Zrange n).
Proof.
  destruct (Z.le_gt_cases 0 n) as [Hn | Hn].
  - apply (repeat_lt_inv (fun j l => l = map f (Zrange j))
             (fun i l => l ++ [f i]) n [] Hn).
    + reflexivity.
    + intros j l Hj ->. rewrite Zrange_succ by lia.
      now rewrite map_app.
  - unfold repeat_lt, Zrange. now replace (Z.to_nat n) with O by lia.
Qed.

(** ** Strings in arrays *)

Lemma string_length_append (s t : string) :
  String.length (s ++ t)%string = (String.length s + String.length t)%nat.
Proof. induction s as [| c s IH]; cbn; [reflexivity | now rewrite IH]. Qed.

Lemma string_append_assoc (s t u : string) :
  ((s ++ t) ++ u)%string = (s ++ (t ++ u))%string.
Proof. induction s as [| c s IH]; cbn; [reflexivity | now rewrite IH]. Qed.

Lemma string_append_nil_r (s : string) : (s ++ EmptyString)%string = s.
Proof. induction s as [| c s IH]; cbn; [reflexivity | now rewrite IH]. Qed.

Lemma strcat_fits (cap : Z) (s t : string) :
  Z.of_nat (String.length (s ++ t)%string) + 1 <= cap ->
  strcat cap s t = Some (s ++ t)%string.
Proof.
  intros H. unfold strcat. cbv zeta.
  destruct (Z.leb_spec (Z.of_nat (String.length (s ++ t)%string) + 1) cap);
    [reflexivity | lia].
Qed.

Lemma strcat_some (cap : Z) (s t r : string) :
  strcat cap s t = Some r ->
  r = (s ++ t)%string /\ Z.of_nat (String.length r) + 1 <= cap.
Proof.
  unfold strcat. cbv zeta.
  destruct (Z.leb_spec (Z.of_nat (String.length (s ++ t)%string) + 1) cap);
    [| discriminate].
  intros [= <-]. split; [reflexivity | assumption].
Qed.

(** A loop whose rounds append to a string in an array, when the whole text
    fits. *)
Lemma append_loop_fits (cap : Z) (body : Z -> string -> option string)
  (g : Z -> string) (l : list Z) :
  (forall j s, In j l ->
     Z.of_nat (String.length (s ++ g j)%string) + 1 <= cap ->
     body j s = Some (s ++ g j)%string) ->
  forall s0,
    Z.of_nat (String.length (s0 ++ join (map g l))%string) + 1 <= cap ->
    fold_left (fun acc j => obind acc (body j)) l (Some s0) =
    Some (s0 ++ join (map g l))%string.
Proof.
  induction l as [| j l IH]; intros Hbody s0 Hfit; cbn [fold_left map join fold_right].
  - now rewrite string_append_nil_r.
  - cbn [map join fold_right] in Hfit. fold (join (map g l)) in *.
    rewrite <- string_append_assoc in *.
    cbn [obind]. rewrite Hbody.
    + apply IH; [| exact Hfit]. intros j' s Hj'. apply Hbody. now right.
    + now left.
    + rewrite string_length_append in Hfit. lia.
Qed.

(** The same loop, from a run that had a result. *)
Lemma append_loop_some (cap : Z) (body : Z -> string -> option string)
  (g : Z -> string) (l : list Z) :
  (forall j s s', In j l ->
     Z.of_nat (String.length s) + 1 <= cap -> body j s = Some s' ->
     s' = (s ++ g j)%string /\ Z.of_nat (String.length s') + 1 <= cap) ->
  forall s0 r,
    Z.of_nat (String.length s0) + 1 <= cap ->
    fold_left (fun acc j => obind acc (body j)) l (Some s0) = Some r ->
    r = (s0 ++ join (map g l))%string /\ Z.of_nat (String.length r) + 1 <= cap.
Proof.
  induction l as [| j l IH]; intros Hbody s0 r Hs0; cbn [fold_left map join fold_right].
  - intros [= <-]. now rewrite string_append_nil_r.
  - fold (join (map g l)). cbn [obind].
    destruct (body j s0) as [s1 |] eqn:E.
    + destruct (Hbody j s0 s1 (or_introl eq_refl) Hs0 E) as [-> Hfit].
      intros Hr. rewrite <- string_append_assoc.
      apply IH; [| exact Hfit | exact Hr].
      intros j' s s' Hj'. apply Hbody. now right.
    + intros Hr. exfalso. clear - Hr.
      induction l as [| j' l IHl]; cbn in Hr; [discriminate | auto].
Qed.

Section MnistFacts.

Variable c_tanh : float -> float.
Variable c_exp : float -> float.
Variable c_pow : float -> float -> float.
Variable RAND_MAX : Z.
Variable rand : nat -> Z.
Variables MNIST_IMG_WIDTH MNIST_IMG_HEIGHT : Z.
Variables MNIST_MAX_TRAINING_IMAGES MNIST_MAX_TESTING_IMAGES : Z.
Variables MNIST_TRAINING_SET_IMAGE_FILE_NAME MNIST_TRAINING_SET_LABEL_FILE_NAME : string.
Variables MNIST_TESTING_SET_IMAGE_FILE_NAME MNIST_TESTING_SET_LABEL_FILE_NAME : string.
Variable MNIST_Image : Type.
Variable pixel : MNIST_Image -> Z -> Z.
Variable FILE : Type.
Variables openMNISTImageFile openMNISTLabelFile : string -> FILE.
Variable getImage : FILE -> MNIST_Image * FILE.
Variable getLabel : FILE -> Z * FILE.
Variable time : nat -> Z.
Variable difftime : Z -> Z -> float.

Variables (nh no : Z).

#[local] Abbreviation getVectorFromImage :=
  (getVectorFromImage MNIST_IMG_WIDTH MNIST_IMG_HEIGHT MNIST_Image pixel).

(** ** From the image to the input layer *)

Lemma getVectorFromImage_vals (img : MNIST_Image) :
  vals (getVectorFromImage img) =
  map (fun i => if pixel img i =? 0 then 0%float else 1%float)
      (Zrange (MNIST_IMG_WIDTH * MNIST_IMG_HEIGHT)).
Proof. unfold getVectorFromImage. cbn [vals]. apply repeat_lt_append. Qed.


(** X11.  Fed to a well-formed network with one input node per pixel, as
    [main] creates it, the vector of an image fits the input layer:
    [feedInput] has a result, the output of input node [i] is [1] or [0] as
    pixel [i] is zero or not, and the result is well-formed again. *)
Theorem feedInput_getVectorFromImage (nn : Network) (img : MNIST_Image) :
  wf nn (MNIST_IMG_WIDTH * MNIST_IMG_HEIGHT) nh no ->
  exists nn',
    feedInput nn (getVectorFromImage img) = Some nn' /\
    wf nn' (MNIST_IMG_WIDTH * MNIST_IMG_HEIGHT) nh no /\
    forall i, 0 <= i < MNIST_IMG_WIDTH * MNIST_IMG_HEIGHT ->
      rd nn' (slot nn' INPUT i FOutput) =
      Some (if pixel img i =? 0 then 0%float else 1%float).
Proof.
  intros Hwf.
  set (ni := MNIST_IMG_WIDTH * MNIST_IMG_HEIGHT) in *.
  assert (Hsz : size (getVectorFromImage img) = ni) by reflexivity.
  assert (Hlen : size (getVectorFromImage img) <=
                 Z.of_nat (length (vals (getVectorFromImage img)))).
  { rewrite getVectorFromImage_vals, length_map, length_Zrange. fold ni.
    rewrite Hsz. lia. }
  destruct (feedInput_spec ni nh no nn _ Hwf ltac:(rewrite Hsz; lia) Hlen)
    as (nn' & Hrun & Hfr & Hv).
  destruct (feedInput_evolves ni nh no nn _ Hwf ltac:(rewrite Hsz; lia) Hlen)
    as (nn'' & Hrun' & Hev).
  assert (nn'' = nn') by congruence. subst nn''.
  exists nn'. split; [exact Hrun |].
  split; [exact (evolves_wf ni nh no nn nn' Hev Hwf) |].
  intros i Hi. rewrite (same_header_slot nn nn' INPUT i FOutput (frame_header _ _ _ Hfr)).
  rewrite (Hv i ltac:(rewrite Hsz; exact Hi)).
  rewrite getVectorFromImage_vals. fold ni.
  now rewrite nth_error_map, (nth_error_Zrange _ i Hi).
Qed.

(** ** [displayImage] and its array *)

#[local] Abbreviation displayImage :=
  (displayImage MNIST_IMG_WIDTH MNIST_IMG_HEIGHT MNIST_Image pixel).
#[local] Abbreviation image_line :=
  (image_line MNIST_IMG_WIDTH MNIST_IMG_HEIGHT MNIST_Image pixel).
#[local] Abbreviation image_text :=
  (image_text MNIST_IMG_WIDTH MNIST_IMG_HEIGHT MNIST_Image pixel).

Lemma join_length (g : Z -> string) (k : nat) (l : list Z) :
  (forall x, In x l -> String.length (g x) = k) ->
  String.length (join (map g l)) = (k * length l)%nat.
Proof.
  induction l as [| x l IH]; intros Hg; cbn [map join fold_right length].
  - cbn. lia.
  - fold (join (map g l)). rewrite string_length_append, Hg by now left.
    rewrite IH by (intros y Hy; apply Hg; now right). lia.
Qed.

Lemma image_line_length (img : MNIST_Image) (col y : Z) :
  Z.of_nat (String.length (image_line img col y)) =
  Z.max 0 (col - 2) + Z.max 0 MNIST_IMG_WIDTH + 1.
Proof.
  unfold image_line. rewrite !string_length_append.
  rewrite (join_length _ 1) by reflexivity.
  rewrite (join_length _ 1) by (intros x _; destruct (_ =? 0); reflexivity).
  pose proof (length_Zrange (col - 2)). pose proof (length_Zrange MNIST_IMG_WIDTH).
  cbn [String.length LF]. lia.
Qed.

Lemma image_text_length (img : MNIST_Image) (col : Z) :
  Z.of_nat (String.length (image_text img col)) =
  Z.max 0 MNIST_IMG_HEIGHT * (Z.max 0 (col - 2) + Z.max 0 MNIST_IMG_WIDTH + 1).
Proof.
  unfold image_text.
  rewrite (join_length _ (Z.to_nat (Z.max 0 (col - 2) + Z.max 0 MNIST_IMG_WIDTH + 1))).
  - pose proof (length_Zrange MNIST_IMG_HEIGHT). nia.
  - intros y _. pose proof (image_line_length img col y). lia.
Qed.

Lemma displayImage_line_fits (cap : Z) (img : MNIST_Image) (col y : Z) (s : string) :
  Z.of_nat (String.length (s ++ image_line img col y)%string) + 1 <= cap ->
  (imgStr <- for_lt (col - 2) (fun o imgStr => strcat cap imgStr " ") s ;;
   imgStr <- for_lt MNIST_IMG_WIDTH
       (fun x imgStr =>
          strcat cap imgStr
            (if pixel img (y * MNIST_IMG_HEIGHT + x) =? 0 then "." else "X"))
       imgStr ;;
   strcat cap imgStr LF) = Some (s ++ image_line img col y)%string.
Proof.
  unfold image_line. intros Hfit.
  rewrite <- !string_append_assoc in *.
  rewrite !string_length_append in Hfit.
  rewrite for_lt_monadic.
  rewrite (append_loop_fits cap _ (fun _ => " "%string)).
  - cbn [obind]. rewrite for_lt_monadic.
    rewrite (append_loop_fits cap _
               (fun x => if pixel img (y * MNIST_IMG_HEIGHT + x) =? 0
                         then "."%string else "X"%string)).
    + cbn [obind]. apply strcat_fits. rewrite !string_length_append. lia.
    + intros j t _. apply strcat_fits.
    + rewrite !string_length_append. lia.
  - intros j t _. apply strcat_fits.
  - rewrite !string_length_append. lia.
Qed.

Lemma displayImage_line_some (cap : Z) (img : MNIST_Image) (col y : Z) (s s' : string) :
  Z.of_nat (String.length s) + 1 <= cap ->
  (imgStr <- for_lt (col - 2) (fun o imgStr => strcat cap imgStr " ") s ;;
   imgStr <- for_lt MNIST_IMG_WIDTH
       (fun x imgStr =>
          strcat cap imgStr
            (if pixel img (y * MNIST_IMG_HEIGHT + x) =? 0 then "." else "X"))
       imgStr ;;
   strcat cap imgStr LF) = Some s' ->
  s' = (s ++ image_line img col y)%string /\
  Z.of_nat (String.length s') + 1 <= cap.
Proof.
  intros Hs. rewrite for_lt_monadic.
  destruct (fold_left _ (Zrange (col - 2)) (Some s)) as [s1 |] eqn:E1;
    [| discriminate].
  apply (append_loop_some cap _ (fun _ => " "%string)) in E1;
    [| intros j t t' _ _; apply strcat_some | exact Hs].
  destruct E1 as [-> Hs1]. cbn [obind]. rewrite for_lt_monadic.
  destruct (fold_left _ (Zrange MNIST_IMG_WIDTH) (Some _)) as [s2 |] eqn:E2;
    [| discriminate].
  apply (append_loop_some cap _
           (fun x => if pixel img (y * MNIST_IMG_HEIGHT + x) =? 0
                     then "."%string else "X"%string)) in E2;
    [| intros j t t' _ _; apply strcat_some | exact Hs1].
  destruct E2 as [-> Hs2]. cbn [obind].
  intros H. apply strcat_some in H. destruct H as [-> Hfit].
  split; [| exact Hfit]. unfold image_line.
  now rewrite !string_append_assoc.
Qed.

Lemma displayImage_loop_fits (cap : Z) (img : MNIST_Image) (col : Z) :
  Z.of_nat (String.length (image_text img col)) + 1 <= cap ->
  strcpy cap EmptyString = Some EmptyString /\
  for_lt MNIST_IMG_HEIGHT
    (fun y imgStr =>
       imgStr <- for_lt (col - 2) (fun o imgStr => strcat cap imgStr " ") imgStr ;;
       imgStr <- for_lt MNIST_IMG_WIDTH
           (fun x imgStr =>
              strcat cap imgStr
                (if pixel img (y * MNIST_IMG_HEIGHT + x) =? 0 then "." else "X"))
           imgStr ;;
       strcat cap imgStr LF)
    EmptyString = Some (image_text img col).
Proof.
  intros Hcap. split.
  - unfold strcpy. cbn [String.length].
    destruct (Z.leb_spec (Z.of_nat 0 + 1) cap); [reflexivity | lia].
  - rewrite for_lt_monadic.
    rewrite (append_loop_fits cap _ (image_line img col)).
    + reflexivity.
    + intros y s _. apply displayImage_line_fits.
    + exact Hcap.
Qed.

(** The array of [displayImage] holds the text of the image when the column
    is not negative. *)
Lemma image_text_fits (img : MNIST_Image) (col : Z) :
  0 <= MNIST_IMG_HEIGHT -> 0 <= MNIST_IMG_WIDTH -> 0 <= col ->
  Z.of_nat (String.length (image_text img col)) + 1 <=
  MNIST_IMG_HEIGHT * MNIST_IMG_WIDTH + (col + 1) * MNIST_IMG_HEIGHT + 1.
Proof.
  intros HH HW Hcol. rewrite image_text_length. nia.
Qed.

Lemma displayImage_some (img : MNIST_Image) (lbl cls row col : Z) :
  0 <= MNIST_IMG_HEIGHT -> 0 <= MNIST_IMG_WIDTH -> 0 <= col ->
  exists out, displayImage img lbl cls row col = Some out.
Proof.
  intros HH HW Hcol. unfold displayImage.
  destruct (displayImage_loop_fits _ img col (image_text_fits img col HH HW Hcol))
    as [Hcpy Hloop].
  rewrite Hcpy. cbn [obind]. rewrite Hloop. cbn [obind]. eauto.
Qed.


(** X13.  For a negative column the array [displayImage] declares is too
    small for the text of an image of at least one line: the text needs
    [MNIST_IMG_HEIGHT * (MNIST_IMG_WIDTH + 1) + 1] chars and the array has
    [MNIST_IMG_HEIGHT * MNIST_IMG_WIDTH + (col + 1) * MNIST_IMG_HEIGHT + 1],
    so a [strcat] writes past its end and the call has no defined result. *)
Theorem displayImage_overruns_for_negative_col (img : MNIST_Image)
  (lbl cls row col : Z) :
  0 < MNIST_IMG_HEIGHT -> 0 <= MNIST_IMG_WIDTH -> col < 0 ->
  displayImage img lbl cls row col = None.
Proof.
  intros HH HW Hcol. unfold displayImage.
  set (cap := MNIST_IMG_HEIGHT * MNIST_IMG_WIDTH + (col + 1) * MNIST_IMG_HEIGHT + 1).
  unfold strcpy. cbn [String.length].
  destruct (Z.leb_spec (Z.of_nat 0 + 1) cap) as [Hc | Hc]; [| reflexivity].
  cbn [obind]. rewrite for_lt_monadic.
  destruct (fold_left _ (Zrange MNIST_IMG_HEIGHT) (Some EmptyString)) as [r |] eqn:E;
    [| reflexivity].
  exfalso.
  apply (append_loop_some cap _ (image_line img col)) in E.
  - destruct E as [-> Hfit]. cbn [String.append] in Hfit.
    fold (image_text img col) in Hfit.
    rewrite image_text_length in Hfit. unfold cap in *. nia.
  - intros y s s' _. apply displayImage_line_some.
  - cbn [String.length]. lia.
Qed.

(** ** The progress lines *)

Lemma unit_ratio_self (RM : Z) :
  0 < RM < 2 ^ 53 -> (double_of_int RM / double_of_int RM)%float = 1%float.
Proof.
  intros HRM.
  destruct (double_of_int_exact RM HRM) as (my & ey & Hy & Hdy & _).
  apply Prim2SF_inj. rewrite div_spec, Hy.
  unfold SF64div. rewrite (SFdiv_self my ey Hdy). reflexivity.
Qed.

Lemma displayProgress_percent (format : string) (maxImages : Z)
  (imgCount errCount y x : Z) :
  0 <= imgCount < maxImages -> maxImages <= INT_MAX ->
  exists percent,
    displayProgress format maxImages imgCount errCount y x =
    Some (locateCursor_unless_origin x y y x ++
          [Printf format [AInt (imgCount + 1); AInt maxImages; AInt percent];
           Printf ("Result: Correct=%5d  Incorrect=%5d  Accuracy=%5.4f%% " ++ LF)
                  [AInt (imgCount + 1 - errCount); AInt errCount;
                   ADbl ((1 - double_of_int errCount / double_of_int (imgCount + 1))
                         * 100)%float]]) /\
    0 <= percent <= 100 /\
    (imgCount + 1 = maxImages -> percent = 100).
Proof.
  intros Hi Hmax.
  assert (H53 : 0 < maxImages < 2 ^ 53).
  { unfold INT_MAX in Hmax. change (2 ^ 53) with 9007199254740992. lia. }
  pose proof (unit_ratio (imgCount + 1) maxImages ltac:(lia) H53) as Hu.
  pose proof (unit_interval_scaled 100 _ _ _ Prim2SF_100 eq_refl ltac:(lia) Hu) as Hs.
  destruct (int_of_double_percent _ Hs) as (p & Hp & Hr).
  exists p. unfold displayProgress. cbv zeta. rewrite Hp. cbn [obind].
  split; [reflexivity |]. split; [exact Hr |].
  intros E. rewrite E, (unit_ratio_self maxImages H53) in Hp.
  vm_compute in Hp. congruence.
Qed.

(** X14.  While image number [imgCount] of the [MNIST_MAX_TRAINING_IMAGES]
    (an [int]) is being read, [displayTrainingProgress] has a defined
    result: the percentage it prints, the integer part of
    [(imgCount + 1) / MNIST_MAX_TRAINING_IMAGES * 100] computed in doubles,
    lies between 0 and 100 and is 100 at the last image.  The same holds of
    [displayTestingProgress] and [MNIST_MAX_TESTING_IMAGES]. *)
Theorem displayProgress_percent_in_range (imgCount errCount y x : Z) :
  (0 <= imgCount < MNIST_MAX_TRAINING_IMAGES ->
   MNIST_MAX_TRAINING_IMAGES <= INT_MAX ->
   exists percent,
     displayTrainingProgress MNIST_MAX_TRAINING_IMAGES imgCount errCount y x =
     Some (locateCursor_unless_origin x y y x ++
           [Printf "1: TRAINING: Reading image No. %5d of %5d images [%3d%%]  "
                   [AInt (imgCount + 1); AInt MNIST_MAX_TRAINING_IMAGES;
                    AInt percent];
            Printf ("Result: Correct=%5d  Incorrect=%5d  Accuracy=%5.4f%% " ++ LF)
                   [AInt (imgCount + 1 - errCount); AInt errCount;
                    ADbl ((1 - double_of_int errCount / double_of_int (imgCount + 1))
                          * 100)%float]]) /\
     0 <= percent <= 100 /\
     (imgCount + 1 = MNIST_MAX_TRAINING_IMAGES -> percent = 100)) /\
  (0 <= imgCount < MNIST_MAX_TESTING_IMAGES ->
   MNIST_MAX_TESTING_IMAGES <= INT_MAX ->
   exists percent,
     displayTestingProgress MNIST_MAX_TESTING_IMAGES imgCount errCount y x =
     Some (locateCursor_unless_origin x y y x ++
           [Printf "2: TESTING:  Reading image No. %5d of %5d images [%3d%%]  "
                   [AInt (imgCount + 1); AInt MNIST_MAX_TESTING_IMAGES;
                    AInt percent];
            Printf ("Result: Correct=%5d  Incorrect=%5d  Accuracy=%5.4f%% " ++ LF)
                   [AInt (imgCount + 1 - errCount); AInt errCount;
                    ADbl ((1 - double_of_int errCount / double_of_int (imgCount + 1))
                          * 100)%float]]) /\
     0 <= percent <= 100 /\
     (imgCount + 1 = MNIST_MAX_TESTING_IMAGES -> percent = 100)).
Proof.
  split; intros Hi Hmax; now apply displayProgress_percent.
Qed.

(** ** The loops over the images *)

#[local] Abbreviation ni := (MNIST_IMG_WIDTH * MNIST_IMG_HEIGHT).
#[local] Abbreviation infers := (infers ni nh no).
#[local] Abbreviation evolves := (evolves ni nh no).
#[local] Abbreviation node_output := (node_output ni nh no).

Lemma infers_refl (nn : Network) : infers nn nn.
Proof. split; [apply same_shape_refl | apply frame_refl]. Qed.

Lemma node_output_header (nn nn' : Network) (a : Z) :
  same_header nn nn' -> node_output nn' a -> node_output nn a.
Proof.
  intros Hh (L & i & Hi & ->). exists L, i.
  split; [assumption |]. apply (same_header_slot _ _ _ _ _ Hh).
Qed.

Lemma infers_trans (a b c : Network) : infers a b -> infers b c -> infers a c.
Proof.
  intros [S1 F1] [S2 F2]. split.
  - eapply same_shape_trans; eassumption.
  - eapply frame_trans; [exact F1 |].
    eapply frame_weaken; [| exact F2].
    intros x. apply node_output_header. apply F1.
Qed.

Lemma infers_wf (nn nn' : Network) :
  infers nn nn' -> wf nn ni nh no -> wf nn' ni nh no.
Proof. intros [S _]. now apply same_shape_wf. Qed.

Lemma outputs_below_output (nn : Network) (L : LayerType) (j a : Z) :
  outputs_below ni nh no nn L j a -> node_output nn a.
Proof.
  intros (i & Hi & Hn & ->). exists L, i. split; [lia | reflexivity].
Qed.

Lemma feedInput_infers (nn : Network) (v : Vector) :
  wf nn ni nh no ->
  size v <= ni -> size v <= Z.of_nat (length (vals v)) ->
  exists nn', feedInput nn v = Some nn' /\ infers nn nn'.
Proof.
  intros Hwf Hsz Hlen.
  destruct (feedInput_spec ni nh no nn v Hwf Hsz Hlen) as (nn' & Hrun & Hfr & _).
  destruct (feedInput_evolves ni nh no nn v Hwf Hsz Hlen) as (nn'' & Hrun' & [Hs _]).
  assert (nn'' = nn') by congruence. subst nn''.
  exists nn'. split; [assumption |]. split; [exact Hs |].
  eapply frame_weaken; [| exact Hfr]. intros a. apply outputs_below_output.
Qed.

Lemma feedForwardNetwork_infers (nn : Network) :
  wf nn ni nh no ->
  exists nn', feedForwardNetwork c_tanh c_exp nn = Some nn' /\ infers nn nn'.
Proof.
  intros Hwf.
  destruct (feedForwardNetwork_spec c_tanh c_exp ni nh no nn Hwf)
    as (nn1 & nn2 & _ & _ & Hff & Hsh1 & Hsh2 & Hfr1 & Hfr2 & _).
  exists nn2. split; [assumption |]. split.
  - eapply same_shape_trans; eassumption.
  - eapply frame_trans.
    + eapply frame_weaken; [| exact Hfr1]. intros a. apply outputs_below_output.
    + eapply frame_weaken; [| exact Hfr2]. intros a. apply outputs_below_output.
Qed.

Lemma infers_evolves (nn nn' : Network) : infers nn nn' -> evolves nn nn'.
Proof.
  intros [S F]. split; [exact S |].
  eapply frame_weaken; [| exact F].
  intros a (L & i & Hi & ->). exists L, i, FOutput.
  split; [split; [exact Hi | exact I] | reflexivity].
Qed.

Lemma getVectorFromImage_fits (img : MNIST_Image) :
  size (getVectorFromImage img) <= ni /\
  size (getVectorFromImage img) <= Z.of_nat (length (vals (getVectorFromImage img))).
Proof.
  split; [apply Z.le_refl |].
  rewrite getVectorFromImage_vals, length_map, length_Zrange.
  unfold getVectorFromImage. cbn [size]. lia.
Qed.

Lemma getNetworkClassification_some (nn : Network) :
  wf nn ni nh no -> exists r, getNetworkClassification nn = Some r.
Proof.
  intros Hwf. rewrite (getNetworkClassification_scan ni nh no nn Hwf). eauto.
Qed.

#[local] Abbreviation testNetwork_round :=
  (testNetwork_round c_tanh c_exp MNIST_IMG_WIDTH MNIST_IMG_HEIGHT
     MNIST_MAX_TESTING_IMAGES MNIST_Image pixel FILE getImage getLabel).
#[local] Abbreviation testNetwork :=
  (testNetwork c_tanh c_exp MNIST_IMG_WIDTH MNIST_IMG_HEIGHT
     MNIST_MAX_TESTING_IMAGES MNIST_TESTING_SET_IMAGE_FILE_NAME
     MNIST_TESTING_SET_LABEL_FILE_NAME MNIST_Image pixel FILE
     openMNISTImageFile openMNISTLabelFile getImage getLabel).
#[local] Abbreviation trainNetwork_round :=
  (trainNetwork_round c_tanh c_exp c_pow MNIST_IMG_WIDTH MNIST_IMG_HEIGHT
     MNIST_MAX_TRAINING_IMAGES MNIST_Image pixel FILE getImage getLabel).
#[local] Abbreviation trainNetwork :=
  (trainNetwork c_tanh c_exp c_pow MNIST_IMG_WIDTH MNIST_IMG_HEIGHT
     MNIST_MAX_TRAINING_IMAGES MNIST_TRAINING_SET_IMAGE_FILE_NAME
     MNIST_TRAINING_SET_LABEL_FILE_NAME MNIST_Image pixel FILE
     openMNISTImageFile openMNISTLabelFile getImage getLabel).

Hypothesis width_pos : 0 < MNIST_IMG_WIDTH.
Hypothesis height_pos : 0 < MNIST_IMG_HEIGHT.

Lemma testNetwork_round_infers (imgCount : Z) (imf lbf : FILE) (nn : Network)
  (err : Z) (out : list event) :
  0 <= imgCount < MNIST_MAX_TESTING_IMAGES ->
  MNIST_MAX_TESTING_IMAGES <= INT_MAX ->
  wf nn ni nh no ->
  exists imf' lbf' nn' err' out',
    testNetwork_round imgCount (imf, lbf, nn, err, out) =
    Some (imf', lbf', nn', err', out') /\
    infers nn nn' /\ err <= err' <= err + 1.
Proof.
  intros Hi Hmax Hwf. unfold testNetwork_round.
  destruct (getImage imf) as [img imf'], (getLabel lbf) as [lbl lbf'].
  cbv zeta.
  destruct (getVectorFromImage_fits img) as [Hsz Hlen].
  destruct (feedInput_infers nn _ Hwf Hsz Hlen) as (n1 & R1 & I1).
  rewrite R1. cbn [obind].
  pose proof (infers_wf _ _ I1 Hwf) as Hwf1.
  destruct (feedForwardNetwork_infers n1 Hwf1) as (n2 & R2 & I2).
  rewrite R2. cbn [obind].
  pose proof (infers_wf _ _ I2 Hwf1) as Hwf2.
  destruct (getNetworkClassification_some n2 Hwf2) as (r & R3).
  rewrite R3. cbn [obind].
  set (err' := if r =? lbl then err else err + 1).
  destruct (displayProgress_percent
              "2: TESTING:  Reading image No. %5d of %5d images [%3d%%]  "
              MNIST_MAX_TESTING_IMAGES imgCount err' 5 5 Hi Hmax) as (p & R4 & _).
  unfold displayTestingProgress. rewrite R4. cbn [obind].
  destruct (displayImage_some img lbl r 7 6 ltac:(lia) ltac:(lia) ltac:(lia))
    as (o2 & R5).
  rewrite R5. cbn [obind].
  do 5 eexists. split; [reflexivity |].
  split; [exact (infers_trans _ _ _ I1 I2) |].
  unfold err'. destruct (r =? lbl); lia.
Qed.

Lemma trainNetwork_round_evolves (imgCount : Z) (imf lbf : FILE) (nn : Network)
  (err : Z) (out : list event) :
  0 <= imgCount < MNIST_MAX_TRAINING_IMAGES ->
  MNIST_MAX_TRAINING_IMAGES <= INT_MAX ->
  wf nn ni nh no ->
  exists imf' lbf' nn' err' out',
    trainNetwork_round imgCount (imf, lbf, nn, err, out) =
    Some (imf', lbf', nn', err', out') /\
    evolves nn nn' /\ err <= err' <= err + 1.
Proof.
  intros Hi Hmax Hwf. unfold trainNetwork_round.
  destruct (getImage imf) as [img imf'], (getLabel lbf) as [lbl lbf'].
  cbv zeta.
  destruct (getVectorFromImage_fits img) as [Hsz Hlen].
  destruct (feedInput_evolves ni nh no nn _ Hwf Hsz Hlen) as (n1 & R1 & I1).
  rewrite R1. cbn [obind].
  pose proof (evolves_wf ni nh no _ _ I1 Hwf) as Hwf1.
  destruct (feedForwardNetwork_evolves c_tanh c_exp ni nh no n1 Hwf1) as (n2 & R2 & I2).
  rewrite R2. cbn [obind].
  pose proof (evolves_wf ni nh no _ _ I2 Hwf1) as Hwf2.
  destruct (backPropagateNetwork_evolves c_tanh c_pow ni nh no n2 lbl Hwf2)
    as (n3 & R3 & I3).
  rewrite R3. cbn [obind].
  pose proof (evolves_wf ni nh no _ _ I3 Hwf2) as Hwf3.
  destruct (getNetworkClassification_some n3 Hwf3) as (r & R4).
  rewrite R4. cbn [obind].
  set (err' := if r =? lbl then err else err + 1).
  destruct (displayProgress_percent
              "1: TRAINING: Reading image No. %5d of %5d images [%3d%%]  "
              MNIST_MAX_TRAINING_IMAGES imgCount err' 3 5 Hi Hmax) as (p & R5 & _).
  unfold displayTrainingProgress. rewrite R5. cbn [obind].
  destruct (displayImage_some img lbl r 7 6 ltac:(lia) ltac:(lia) ltac:(lia))
    as (o2 & R6).
  rewrite R6. cbn [obind].
  do 5 eexists. split; [reflexivity |].
  split.
  - exact (evolves_trans ni nh no _ _ _ (evolves_trans ni nh no _ _ _ I1 I2) I3).
  - unfold err'. destruct (r =? lbl); lia.
Qed.

(** A counted loop whose rounds keep an invariant, the bound being of either
    sign. *)
Lemma for_lt_inv_any {St : Type} (P : Z -> St -> Prop)
  (body : Z -> St -> option St) (n : Z) (s : St) :
  P 0 s ->
  (forall j t, 0 <= j < n -> P j t ->
               exists t', body j t = Some t' /\ P (j + 1) t') ->
  exists s', for_lt n body s = Some s' /\ P (Z.max 0 n) s'.
Proof.
  intros H0 Hstep. destruct (Z.le_gt_cases 0 n) as [Hn | Hn].
  - rewrite Z.max_r by lia. now apply for_lt_inv.
  - exists s. rewrite Z.max_l by lia. split; [| exact H0].
    unfold for_lt. now replace (Z.to_nat n) with O by lia.
Qed.

Lemma testNetwork_loop (nn : Network) :
  MNIST_MAX_TESTING_IMAGES <= INT_MAX ->
  wf nn ni nh no ->
  exists imageFile labelFile nn' errCount out,
    for_lt MNIST_MAX_TESTING_IMAGES testNetwork_round
      (openMNISTImageFile MNIST_TESTING_SET_IMAGE_FILE_NAME,
       openMNISTLabelFile MNIST_TESTING_SET_LABEL_FILE_NAME, nn, 0, []) =
    Some (imageFile, labelFile, nn', errCount, out) /\
    infers nn nn' /\
    0 <= errCount <= Z.max 0 MNIST_MAX_TESTING_IMAGES.
Proof.
  intros Hmax Hwf.
  set (P := fun (j : Z) (st : FILE * FILE * Network * Z * list event) =>
    let '(_, _, n, e, _) := st in infers nn n /\ 0 <= e <= j).
  match goal with
  | |- context [for_lt ?n ?b ?s] =>
      destruct (for_lt_inv_any P b n s) as [[[[[imf lbf] nn'] err] out] [Hloop HP]]
  end.
  - split; [apply infers_refl | lia].
  - intros j [[[[imf lbf] n] err] out] Hj [HP He].
    destruct (testNetwork_round_infers j imf lbf n err out Hj Hmax
                (infers_wf _ _ HP Hwf))
      as (imf' & lbf' & n' & err' & out' & Hr & Hinf & He').
    eexists. split; [exact Hr |]. cbn.
    split; [exact (infers_trans _ _ _ HP Hinf) | lia].
  - exists imf, lbf, nn', err, out. split; [exact Hloop | exact HP].
Qed.

Lemma trainNetwork_loop (nn : Network) :
  MNIST_MAX_TRAINING_IMAGES <= INT_MAX ->
  wf nn ni nh no ->
  exists imageFile labelFile nn' errCount out,
    for_lt MNIST_MAX_TRAINING_IMAGES trainNetwork_round
      (openMNISTImageFile MNIST_TRAINING_SET_IMAGE_FILE_NAME,
       openMNISTLabelFile MNIST_TRAINING_SET_LABEL_FILE_NAME, nn, 0, []) =
    Some (imageFile, labelFile, nn', errCount, out) /\
    evolves nn nn' /\
    0 <= errCount <= Z.max 0 MNIST_MAX_TRAINING_IMAGES.
Proof.
  intros Hmax Hwf.
  set (P := fun (j : Z) (st : FILE * FILE * Network * Z * list event) =>
    let '(_, _, n, e, _) := st in evolves nn n /\ 0 <= e <= j).
  match goal with
  | |- context [for_lt ?n ?b ?s] =>
      destruct (for_lt_inv_any P b n s) as [[[[[imf lbf] nn'] err] out] [Hloop HP]]
  end.
  - split; [apply evolves_refl | lia].
  - intros j [[[[imf lbf] n] err] out] Hj [HP He].
    destruct (trainNetwork_round_evolves j imf lbf n err out Hj Hmax
                (evolves_wf ni nh no _ _ HP Hwf))
      as (imf' & lbf' & n' & err' & out' & Hr & Hev & He').
    eexists. split; [exact Hr |]. cbn.
    split; [exact (evolves_trans ni nh no _ _ _ HP Hev) | lia].
  - exists imf, lbf, nn', err, out. split; [exact Hloop | exact HP].
Qed.



End MnistFacts.

Section MainFacts.

Variable c_tanh : float -> float.
Variable c_exp : float -> float.
Variable c_pow : float -> float -> float.
Variable RAND_MAX : Z.
Variable rand : nat -> Z.
Variables MNIST_IMG_WIDTH MNIST_IMG_HEIGHT : Z.
Variables MNIST_MAX_TRAINING_IMAGES MNIST_MAX_TESTING_IMAGES : Z.
Variables MNIST_TRAINING_SET_IMAGE_FILE_NAME MNIST_TRAINING_SET_LABEL_FILE_NAME : string.
Variables MNIST_TESTING_SET_IMAGE_FILE_NAME MNIST_TESTING_SET_LABEL_FILE_NAME : string.
Variable MNIST_Image : Type.
Variable pixel : MNIST_Image -> Z -> Z.
Variable FILE : Type.
Variables openMNISTImageFile openMNISTLabelFile : string -> FILE.
Variable getImage : FILE -> MNIST_Image * FILE.
Variable getLabel : FILE -> Z * FILE.
Variable time : nat -> Z.
Variable difftime : Z -> Z -> float.


End MainFacts.

(** * [displayNetworkWeightsForDebugging] *)

Lemma fold_left_filter_append {A B : Type} (p : B -> bool) (f : B -> A) (l : list B) :
  forall out,
    fold_left (fun out c => if p c then out ++ [f c] else out) l out =
    out ++ map f (filter p l).
Proof.
  induction l as [| c l IH]; intros out; cbn [fold_left filter map].
  - now rewrite app_nil_r.
  - rewrite IH. destruct (p c); [| reflexivity].
    cbn [map]. now rewrite <- app_assoc.
Qed.

Lemma fold_left_concat_append {A B : Type} (g : B -> list A) (l : list B) :
  forall out,
    fold_left (fun out n => out ++ g n) l out = out ++ concat (map g l).
Proof.
  induction l as [| n l IH]; intros out; cbn [fold_left map concat].
  - now rewrite app_nil_r.
  - rewrite IH. now rewrite <- app_assoc.
Qed.

Section Debugging.

Variables (ni nh no : Z).

Lemma weights_line_loop (nn : Network) (n : Z) (out : list event) :
  wf nn ni nh no -> 0 <= n < no ->
  (let out := out ++ [Printf "%4d | " [AInt n]] in
   node <- getNode (layers nn) (getLayer nn OUTPUT) n ;;
   connCount <- load_int (layers nn) (node + off_wcount) ;;
   out <- for_lt connCount
       (fun c out =>
          w <- load_dbl (layers nn) (weight_at node c) ;;
          Some (printf_top_last 6 connCount c
                  (Printf "%5d:%9f" [AInt c; ADbl w]) out))
       out ;;
   Some (out ++ [Printf LF []])) =
  Some (out ++ weights_line nh nn n).
Proof.
  intros Hwf Hn. cbv zeta.
  rewrite (wf_getNode nn ni nh no Hwf OUTPUT n) by (cbn [ncountOf] in *; lia). cbn [obind].
  rewrite (wf_wcount nn ni nh no Hwf OUTPUT n Hn). cbn [obind wcountOf].
  rewrite (for_lt_fold
             (fun out c =>
                if (c <? 6) || (nh - 6 <=? c)
                then out ++ [Printf "%5d:%9f"
                               [AInt c; ADbl (rdd nn (slot nn OUTPUT n (FWeight c)))]]
                else out)).
  - cbn [obind]. rewrite fold_left_filter_append.
    unfold weights_line, shown_connections. now rewrite <- !app_assoc.
  - intros c t Hc.
    pose proof (wf_rd nn ni nh no Hwf OUTPUT n (FWeight c) (conj Hn Hc)) as Hrd.
    unfold rd, slot in Hrd. cbn [field_at] in Hrd. rewrite Hrd. cbn [obind].
    reflexivity.
Qed.

(** X18.  On a well-formed network with at least ten output nodes
    [displayNetworkWeightsForDebugging] has a defined result.  It writes the
    two titles and the head of the table, then one line for each of the
    output nodes 0 to 9 and no other node: the number of the node and, of
    its weights, those of the first six and of the last six connections,
    each once. *)
Theorem displayNetworkWeightsForDebugging_shows_ten_nodes (nn : Network) :
  wf nn ni nh no -> 10 <= no ->
  displayNetworkWeightsForDebugging nn =
  Some (weights_head ++
        concat (map (weights_line nh nn) (Zrange 10)) ++
        [Printf (LF ++ LF) []]).
Proof.
  intros Hwf Hno. unfold displayNetworkWeightsForDebugging.
  change (Z.to_nat (2 - 1)) with 1%nat. cbn [iter_from]. cbv zeta.
  rewrite (wf_ncount nn ni nh no Hwf OUTPUT). cbn [obind ncountOf].
  destruct (Z.ltb_spec 0 no) as [_ | H]; [| lia].
  rewrite (for_lt_fold (fun out n => out ++ weights_line nh nn n)).
  - cbn [obind]. rewrite fold_left_concat_append, <- app_assoc.
    do 2 f_equal.
  - intros n t Hn. apply (weights_line_loop nn n t Hwf). lia.
Qed.

End Debugging.

Section FreshArena.

Variable RAND_MAX : Z.
Variable rand : nat -> Z.
Variables (ni nh no : Z).

(** Every field of a node lies before the end of the output layer. *)
Lemma slot_before_end (nn : Network) (L : LayerType) (i : Z) (f : field) :
  wf nn ni nh no -> valid_slot ni nh no L i f ->
  slot nn L i f < inpLayerSize nn + hidLayerSize nn + outLayerSize nn.
Proof.
  intros Hwf Hv.
  pose proof (slot_bounds nn ni nh no Hwf L i f Hv) as [_ Bhi].
  destruct (layer_end_next nn ni nh no Hwf) as [E1 E2].
  pose proof (layer_end_ge nn ni nh no Hwf HIDDEN) as G1.
  pose proof (layer_end_ge nn ni nh no Hwf OUTPUT) as G2.
  assert (Eo : layer_end ni nh no nn OUTPUT =
               inpLayerSize nn + hidLayerSize nn + outLayerSize nn).
  { unfold layer_end. cbn [getLayer ncountOf nodeSizeOf].
    rewrite (wf_ols _ _ _ _ Hwf). lia. }
  destruct L; unfold sizeof_Layer, sizeof_double in *; lia.
Qed.

(** [createNetwork] writes nothing behind the output layer: what [malloc]
    returned is still there. *)
Lemma createNetwork_arena :
  0 < ni -> 0 < nh -> 0 < no -> sizes_fit ni nh no ->
  exists nn,
    createNetwork RAND_MAX rand ni nh no = Some nn /\
    wf nn ni nh no /\
    forall a, inpLayerSize nn + hidLayerSize nn + outLayerSize nn <= a ->
              layers nn a = CUndef.
Proof.
  intros Hni Hnh Hno HF. rewrite (createNetwork_fits RAND_MAX rand ni nh no Hni Hnh Hno HF). cbv zeta.
  set (nn0 := mkNetwork _ _ _ _ _ _ _ _ _ _).
  assert (HS0 : sizes_of nn0 ni nh no) by (unfold sizes_of, nn0; cbn; tauto).
  destruct (initNetwork_zero nn0 ni nh no ltac:(lia) ltac:(lia) ltac:(lia) HS0)
    as [Hh1 HZ1].
  set (nn1 := initNetwork nn0 ni nh no) in *.
  set (nn2 := setNetworkDefaults nn1).
  assert (HS2 : sizes_of nn2 ni nh no) by (unfold sizes_of, nn2, nn1, nn0; cbn; tauto).
  assert (HZ2 : forall L,
    zero_layer (layers nn2) (getLayer nn2 L) (ncountOf ni nh no L)
               (sizeof_Node + wcountOf ni nh no L * sizeof_double)
               (wcountOf ni nh no L)).
  { intros L. specialize (HZ1 L). destruct L; exact HZ1. }
  pose proof (zero_layers_wf nn2 ni nh no Hni Hnh Hno HF HS2 HZ2) as Hwf2.
  destruct (initWeights_spec RAND_MAX rand ni nh no nn2 O HIDDEN Hwf2 ltac:(discriminate))
    as (k3 & nn3 & Hrun3 & Hsh3 & Hfr3 & _).
  rewrite Hrun3. cbn [obind].
  pose proof (same_shape_wf _ _ _ _ _ Hsh3 Hwf2) as Hwf3.
  destruct (initWeights_spec RAND_MAX rand ni nh no nn3 k3 OUTPUT Hwf3 ltac:(discriminate))
    as (k4 & nn4 & Hrun4 & Hsh4 & Hfr4 & _).
  rewrite Hrun4. cbn [obind].
  pose proof (same_shape_wf _ _ _ _ _ Hsh4 Hwf3) as Hwf4.
  exists nn4. split; [reflexivity |]. split; [exact Hwf4 |].
  assert (Hh3 : same_header nn2 nn3) by apply Hsh3.
  assert (Hh4 : same_header nn3 nn4) by apply Hsh4.
  assert (Hsz : forall t, same_header nn2 t ->
            inpLayerSize t + hidLayerSize t + outLayerSize t =
            inpLayerSize nn2 + hidLayerSize nn2 + outLayerSize nn2).
  { intros t (_ & E1 & _ & E2 & _ & E3 & _). now rewrite E1, E2, E3. }
  intros a Ha.
  rewrite (Hsz nn4 (same_header_trans _ _ _ Hh3 Hh4)) in Ha.
  assert (Hnot : forall t L, wf t ni nh no -> same_header nn2 t ->
            ~ layer_params ni nh no t L a).
  { intros t L Hwt Hht (i & Hi & _ & Hp).
    destruct (node_params_field ni nh no t L i a Hi Hp) as (f & Hv & E & _).
    pose proof (slot_before_end t L i f Hwt Hv) as B.
    rewrite (Hsz t Hht) in B. lia. }
  destruct Hfr4 as [_ Hfr4], Hfr3 as [_ Hfr3].
  rewrite (Hfr4 a (Hnot nn3 OUTPUT Hwf3 Hh3)).
  rewrite (Hfr3 a (Hnot nn2 HIDDEN Hwf2 (same_header_refl nn2))).
  (* the three layers copied into the block *)
  unfold nn2, nn1, nn0, setNetworkDefaults, initNetwork, set_layers in Ha |- *.
  cbn [layers inpLayerSize hidLayerSize outLayerSize] in Ha |- *.
  assert (0 <= ni * sizeof_Node) by (unfold sizeof_Node; lia).
  assert (0 <= nh * (sizeof_Node + ni * sizeof_double))
    by (unfold sizeof_Node, sizeof_double; nia).
  assert (0 <= no * (sizeof_Node + nh * sizeof_double))
    by (unfold sizeof_Node, sizeof_double; nia).
  unfold sizeof_Layer, sizeof_Node, sizeof_double in *.
  rewrite !memcpy_outside; [reflexivity | right; lia ..].
Qed.


End FreshArena.

(** * Examples

    Concrete networks on which the statements above are instantiated, and
    the inputs on which the code departs from two sentences of the
    specification. *)

(** C1, the sentence as the specification has it, fails on [one_net] with
    target 0: over the forward-pass weight the error sum of the hidden node is
    [0.125 * 0.5 = 0.0625]; the code, which has updated the weight to
    [0.5125] by then, sums [0.125 * 0.5125 = 0.0640625], and leaves another
    bias in the hidden node than the forward-pass weights give. *)
Lemma backPropagateNetwork_sums_updated_weights :
  outputcellerrorsum tanh_approx pow_approx one_net 0 0 = Some 0.0625%float /\
  (nn1 <- backPropagateOutputLayer tanh_approx pow_approx one_net 0 ;;
   rd nn1 (slot one_net OUTPUT 0 (FWeight 0))) = Some 0.5125%float /\
  (nn1 <- backPropagateOutputLayer tanh_approx pow_approx one_net 0 ;;
   outputcellerrorsum tanh_approx pow_approx nn1 0 0) = Some 0.0640625%float /\
  (nn2 <- backPropagateNetwork tanh_approx pow_approx one_net 0 ;;
   b <- rd nn2 (slot one_net HIDDEN 0 FBias) ;;
   Some (b =? bias_from_forward_weights tanh_approx pow_approx 1 one_net 0 0)%float)
  = Some false.
Proof. vm_compute. repeat split. Qed.

(** C2, the sentence as the specification has it, fails on
    [negative_outputs_net]: output node 1 strictly exceeds every other output
    node, and [getNetworkClassification] returns 0. *)
Lemma getNetworkClassification_negative_maximum :
  (rdd negative_outputs_net (slot negative_outputs_net OUTPUT 0 FOutput) <?
   rdd negative_outputs_net (slot negative_outputs_net OUTPUT 1 FOutput))%float = true /\
  getNetworkClassification negative_outputs_net = Some 0 /\
  getNetworkClassification negative_outputs_net <> Some 1.
Proof.
  vm_compute. split; [reflexivity |]. split; [reflexivity | discriminate].
Qed.



(** C9, the sentence as the specification has it, fails when [feedInput] is
    given a vector longer than the input layer: of a vector of seven elements
    fed to the two input nodes of [sample_net], the seventh lands on the
    weight count of hidden node 2; the cell held the [int] 2 and holds the
    [double] afterwards, and the weight count can no longer be read. *)
Lemma feedInput_overwrites_weight_count :
  load_int (layers sample_net) (node_at sample_net HIDDEN 2 + off_wcount) = Some 2 /\
  (nn <- feedInput sample_net (mkVector 7 [1; 1; 1; 1; 1; 1; 1]%float) ;;
   Some (layers nn (node_at sample_net HIDDEN 2 + off_wcount))) = Some (CDbl 1) /\
  (nn <- feedInput sample_net (mkVector 7 [1; 1; 1; 1; 1; 1; 1]%float) ;;
   Some (load_int (layers nn) (node_at nn HIDDEN 2 + off_wcount))) = Some None.
Proof. vm_compute. repeat split. Qed.

(** C10, the sentence as the specification has it, fails when the vector is
    longer than the input layer: [feedInput] does not stop at the last input
    node, and a vector of three elements fed to the two input nodes of
    [sample_net] lands its third element on the bias of hidden node 0, which
    held another value. *)
Lemma feedInput_overruns_input_layer :
  (b <- rd sample_net (slot sample_net HIDDEN 0 FBias) ;;
   Some (b =? 0.125)%float) = Some false /\
  (nn <- feedInput sample_net (mkVector 3 [1; 0; 0.125]%float) ;;
   rd nn (slot sample_net HIDDEN 0 FBias)) = Some 0.125%float.
Proof. vm_compute. split; reflexivity. Qed.

(** ** The theorems at concrete networks *)

Lemma sample_sizes_fit : sizes_fit 2 3 2.
Proof. unfold sizes_fit, INT_MAX, sizeof_Layer, sizeof_Node, sizeof_double. lia. Qed.

Lemma sample_image_sizes_fit : sizes_fit (1 * 2) 20 10.
Proof. unfold sizes_fit, INT_MAX, sizeof_Layer, sizeof_Node, sizeof_double. lia. Qed.

Lemma backPropagateNetwork_error_sum_after_output_update_witness :
  wf one_net 1 1 1 /\
  exists nn1 nn2,
    backPropagateOutputLayer tanh_approx pow_approx one_net 0 = Some nn1 /\
    backPropagateHiddenLayer tanh_approx pow_approx nn1 0 = Some nn2 /\
    backPropagateNetwork tanh_approx pow_approx one_net 0 = Some nn2.
Proof.
  assert (Hwf : wf one_net 1 1 1) by (apply wfb_sound; vm_compute; reflexivity).
  split; [exact Hwf |].
  destruct (backPropagateNetwork_error_sum_after_output_update
              tanh_approx pow_approx 1 1 1 one_net 0 Hwf)
    as (nn1 & nn2 & H1 & H2 & H3 & _).
  exists nn1, nn2. split; [exact H1 |]. split; [exact H2 | exact H3].
Defined.

Lemma getNetworkClassification_running_max_witness :
  wf negative_outputs_net 1 1 2 /\
  getNetworkClassification negative_outputs_net = Some 0.
Proof.
  assert (Hwf : wf negative_outputs_net 1 1 2)
    by (apply wfb_sound; vm_compute; reflexivity).
  split; [exact Hwf |].
  destruct (getNetworkClassification_running_max 1 1 2 negative_outputs_net Hwf)
    as (_ & _ & Hneg).
  apply Hneg. intros j Hj.
  assert (Hc : j = 0 \/ j = 1) by lia.
  destruct Hc as [-> | ->]; vm_compute; reflexivity.
Defined.

Lemma calcNodeOutput_feedForwardNetwork_order_witness :
  wf sample_net 2 3 2 /\
  exists nn2, feedForwardNetwork tanh_approx exp_approx sample_net = Some nn2.
Proof.
  assert (Hwf : wf sample_net 2 3 2) by (apply wfb_sound; vm_compute; reflexivity).
  split; [exact Hwf |].
  destruct (calcNodeOutput_feedForwardNetwork_order
              tanh_approx exp_approx 2 3 2 sample_net Hwf)
    as (_ & _ & _ & nn1 & nn2 & _ & _ & _ & Hff & _).
  exists nn2. exact Hff.
Defined.

Lemma updateNodeWeights_delta_rule_witness :
  wf sample_net 2 3 2 /\ 0 <= 1 < 2 /\
  exists nn', updateNodeWeights sample_net OUTPUT 1 0.125%float = Some nn'.
Proof.
  assert (Hwf : wf sample_net 2 3 2) by (apply wfb_sound; vm_compute; reflexivity).
  split; [exact Hwf |]. split; [lia |].
  destruct (updateNodeWeights_delta_rule 2 3 2 sample_net OUTPUT 1 0.125%float Hwf
              ltac:(cbn [ncountOf]; lia))
    as (nn' & Hrun & _).
  exists nn'. exact Hrun.
Defined.

Lemma feedInput_copies_vector_witness :
  wf sample_net 2 3 2 /\ size sample_vector = 2 /\
  Z.of_nat (length (vals sample_vector)) = size sample_vector /\
  exists nn',
    feedInput sample_net sample_vector = Some nn' /\
    rd nn' (slot sample_net INPUT 0 FOutput) = Some 1%float.
Proof.
  assert (Hwf : wf sample_net 2 3 2) by (apply wfb_sound; vm_compute; reflexivity).
  split; [exact Hwf |]. split; [reflexivity |]. split; [reflexivity |].
  destruct (feedInput_copies_vector 2 3 2 sample_net sample_vector Hwf eq_refl eq_refl)
    as (nn' & Hrun & Hval).
  exists nn'. split; [exact Hrun |].
  destruct (Hval 0 ltac:(lia)) as (x & Hx & Hr).
  injection Hx as <-. exact Hr.
Defined.




Lemma operations_mutate_only_node_values_witness :
  wf sample_net 2 3 2 /\
  exists nn',
    run_operations tanh_approx exp_approx pow_approx
      [OpFeedInput sample_vector; OpFeedForward; OpBackPropagate 1; OpClassify]
      sample_net = Some nn' /\
    hidNodeSize nn' = hidNodeSize sample_net.
Proof.
  assert (Hwf : wf sample_net 2 3 2) by (apply wfb_sound; vm_compute; reflexivity).
  split; [exact Hwf |].
  destruct (operations_mutate_only_node_values tanh_approx exp_approx pow_approx 2 3 2
              sample_net
              [OpFeedInput sample_vector; OpFeedForward; OpBackPropagate 1; OpClassify]
              Hwf)
    as (nn' & Hrun & Hsizes & _).
  - repeat constructor; cbn; lia.
  - exists nn'. split; [exact Hrun |]. tauto.
Defined.

Lemma feedInput_writes_only_first_outputs_witness :
  wf sample_net 2 3 2 /\ 1 <= 2 /\
  exists nn',
    feedInput sample_net (mkVector 1 [0.5%float]) = Some nn' /\
    rd nn' (slot sample_net INPUT 1 FOutput) = rd sample_net (slot sample_net INPUT 1 FOutput).
Proof.
  assert (Hwf : wf sample_net 2 3 2) by (apply wfb_sound; vm_compute; reflexivity).
  split; [exact Hwf |]. split; [lia |].
  destruct (feedInput_writes_only_first_outputs 2 3 2 sample_net (mkVector 1 [0.5%float])
              Hwf ltac:(cbn; lia) ltac:(cbn; lia))
    as (nn' & Hrun & _ & _ & _ & Hkeep & _).
  exists nn'. split; [exact Hrun |].
  apply Hkeep.
  - split; [cbn [ncountOf]; lia | exact I].
  - right. right. cbn. lia.
Defined.

(** ** The further properties at concrete networks *)

Lemma feedForwardNetwork_keeps_parameters_witness :
  wf sample_net 2 3 2 /\
  exists nn',
    feedForwardNetwork tanh_approx exp_approx sample_net = Some nn' /\
    rd nn' (slot nn' HIDDEN 1 (FWeight 0)) =
    rd sample_net (slot sample_net HIDDEN 1 (FWeight 0)).
Proof.
  assert (Hwf : wf sample_net 2 3 2) by (apply wfb_sound; vm_compute; reflexivity).
  split; [exact Hwf |].
  destruct (feedForwardNetwork_keeps_parameters tanh_approx exp_approx 2 3 2
              sample_net Hwf)
    as (nn' & Hrun & _ & _ & Hk & _).
  exists nn'. split; [exact Hrun |].
  apply Hk; [unfold valid_slot; cbn [ncountOf wcountOf]; lia | right; discriminate].
Defined.

Lemma backPropagateNetwork_keeps_outputs_witness :
  wf sample_net 2 3 2 /\
  exists nn',
    backPropagateNetwork tanh_approx pow_approx sample_net 1 = Some nn' /\
    rd nn' (slot nn' HIDDEN 0 FOutput) = rd sample_net (slot sample_net HIDDEN 0 FOutput).
Proof.
  assert (Hwf : wf sample_net 2 3 2) by (apply wfb_sound; vm_compute; reflexivity).
  split; [exact Hwf |].
  destruct (backPropagateNetwork_keeps_outputs tanh_approx pow_approx 2 3 2
              sample_net 1 Hwf)
    as (nn' & Hrun & _ & _ & Hk & _).
  exists nn'. split; [exact Hrun |].
  apply Hk; [unfold valid_slot; cbn [ncountOf]; lia | right; reflexivity].
Defined.

Lemma getNetworkClassification_first_maximum_witness :
  wf sample_net 2 3 2 /\
  exists r, getNetworkClassification sample_net = Some r /\ 0 <= r < 2.
Proof.
  assert (Hwf : wf sample_net 2 3 2) by (apply wfb_sound; vm_compute; reflexivity).
  split; [exact Hwf |].
  destruct (getNetworkClassification_first_maximum 2 3 2 sample_net Hwf)
    as (r & Hrun & Hr & _).
  exists r. split; [exact Hrun | exact Hr].
Defined.

Lemma backPropagateNetwork_keeps_classification_witness :
  wf sample_net 2 3 2 /\
  exists nn' r,
    backPropagateNetwork tanh_approx pow_approx sample_net 1 = Some nn' /\
    getNetworkClassification sample_net = Some r /\
    getNetworkClassification nn' = Some r.
Proof.
  assert (Hwf : wf sample_net 2 3 2) by (apply wfb_sound; vm_compute; reflexivity).
  split; [exact Hwf |].
  exact (backPropagateNetwork_keeps_classification tanh_approx pow_approx 2 3 2
           sample_net 1 Hwf).
Defined.

Lemma feedForwardNetwork_idempotent_witness :
  wf sample_net 2 3 2 /\
  exists nn1 nn2,
    feedForwardNetwork tanh_approx exp_approx sample_net = Some nn1 /\
    feedForwardNetwork tanh_approx exp_approx nn1 = Some nn2 /\
    layers nn2 (slot sample_net OUTPUT 1 FOutput) =
    layers nn1 (slot sample_net OUTPUT 1 FOutput).
Proof.
  assert (Hwf : wf sample_net 2 3 2) by (apply wfb_sound; vm_compute; reflexivity).
  split; [exact Hwf |].
  destruct (feedForwardNetwork_idempotent tanh_approx exp_approx 2 3 2 sample_net Hwf)
    as (nn1 & nn2 & R1 & R2 & _ & Hsame).
  exists nn1, nn2. split; [exact R1 |]. split; [exact R2 | apply Hsame].
Defined.

Lemma feedInput_overwrites_witness :
  wf sample_net 2 3 2 /\
  size (mkVector 1 [0.5%float]) <= size sample_vector /\
  size sample_vector <= 2 /\
  size (mkVector 1 [0.5%float]) <= Z.of_nat (length (vals (mkVector 1 [0.5%float]))) /\
  size sample_vector <= Z.of_nat (length (vals sample_vector)) /\
  exists n1 n2 n3,
    feedInput sample_net (mkVector 1 [0.5%float]) = Some n1 /\
    feedInput n1 sample_vector = Some n2 /\
    feedInput sample_net sample_vector = Some n3 /\
    layers n2 (slot sample_net INPUT 0 FOutput) =
    layers n3 (slot sample_net INPUT 0 FOutput).
Proof.
  assert (Hwf : wf sample_net 2 3 2) by (apply wfb_sound; vm_compute; reflexivity).
  split; [exact Hwf |].
  assert (H1 : size (mkVector 1 [0.5%float]) <= size sample_vector) by (cbn; lia).
  assert (H2 : size sample_vector <= 2) by (cbn; lia).
  assert (H3 : size (mkVector 1 [0.5%float]) <=
               Z.of_nat (length (vals (mkVector 1 [0.5%float])))) by (cbn; lia).
  assert (H4 : size sample_vector <= Z.of_nat (length (vals sample_vector)))
    by (cbn; lia).
  repeat (split; [assumption |]).
  destruct (feedInput_overwrites 2 3 2 sample_net _ _ Hwf H1 H2 H3 H4)
    as (n1 & n2 & n3 & R1 & R2 & R3 & _ & Hsame).
  exists n1, n2, n3. repeat (split; [assumption |]). apply Hsame.
Defined.

Lemma node_fields_inside_arena_and_apart_witness :
  wf sample_net 2 3 2 /\
  valid_slot 2 3 2 HIDDEN 0 FBias /\
  valid_slot 2 3 2 HIDDEN 0 FOutput /\
  slot sample_net HIDDEN 0 FBias + sizeof_double <=
  inpLayerSize sample_net + hidLayerSize sample_net + outLayerSize sample_net.
Proof.
  assert (Hwf : wf sample_net 2 3 2) by (apply wfb_sound; vm_compute; reflexivity).
  assert (Hv : valid_slot 2 3 2 HIDDEN 0 FBias)
    by (unfold valid_slot; cbn [ncountOf]; split; [lia | exact I]).
  assert (Hv' : valid_slot 2 3 2 HIDDEN 0 FOutput)
    by (unfold valid_slot; cbn [ncountOf]; split; [lia | exact I]).
  repeat (split; [assumption |]).
  exact (proj1 (proj2 (node_fields_inside_arena_and_apart 2 3 2 sample_net
                         HIDDEN HIDDEN 0 0 FBias FOutput Hwf Hv Hv'))).
Defined.




Lemma feedInput_getVectorFromImage_witness :
  wf sample_net (2 * 1) 3 2 /\
  exists nn',
    feedInput sample_net
      (getVectorFromImage 2 1 (Z -> Z) sample_pixel (sample_image 1)) = Some nn' /\
    rd nn' (slot nn' INPUT 1 FOutput) = Some 0%float.
Proof.
  assert (Hwf : wf sample_net (2 * 1) 3 2) by (apply wfb_sound; vm_compute; reflexivity).
  split; [exact Hwf |].
  destruct (feedInput_getVectorFromImage 2 1 (Z -> Z) sample_pixel 3 2 sample_net
              (sample_image 1) Hwf)
    as (nn' & Hrun & _ & Hv).
  exists nn'. split; [exact Hrun |]. exact (Hv 1 ltac:(lia)).
Defined.


Lemma displayImage_overruns_for_negative_col_witness :
  0 < 1 /\ 0 <= 2 /\ -1 < 0 /\
  displayImage 2 1 (Z -> Z) sample_pixel (sample_image 1) 1 0 7 (-1) = None.
Proof.
  split; [lia |]. split; [lia |]. split; [lia |].
  exact (displayImage_overruns_for_negative_col 2 1 (Z -> Z) sample_pixel
           (sample_image 1) 1 0 7 (-1) ltac:(lia) ltac:(lia) ltac:(lia)).
Defined.

Lemma displayProgress_percent_in_range_witness :
  0 <= 2 < 3 /\ 3 <= INT_MAX /\
  exists percent out,
    displayTrainingProgress 3 2 1 3 5 =
    Some (out ++ [Printf ("Result: Correct=%5d  Incorrect=%5d  Accuracy=%5.4f%% " ++ LF)
                         [AInt (2 + 1 - 1); AInt 1;
                          ADbl ((1 - double_of_int 1 / double_of_int (2 + 1)) * 100)%float]]) /\
    percent = 100.
Proof.
  assert (H1 : 0 <= 2 < 3) by lia.
  assert (H2 : 3 <= INT_MAX) by (unfold INT_MAX; lia).
  split; [exact H1 |]. split; [exact H2 |].
  destruct (proj1 (displayProgress_percent_in_range 3 2 2 1 3 5) H1 H2)
    as (p & Hrun & _ & Hlast).
  exists p. eexists. split; [| exact (Hlast eq_refl)].
  rewrite Hrun. f_equal.
  exact (app_assoc _ [_] [_]).
Defined.




Lemma displayNetworkWeightsForDebugging_shows_ten_nodes_witness :
  wf ten_net 1 1 10 /\ 10 <= 10 /\
  exists out, displayNetworkWeightsForDebugging ten_net = Some out.
Proof.
  assert (Hwf : wf ten_net 1 1 10) by (apply wfb_sound; vm_compute; reflexivity).
  split; [exact Hwf |]. split; [lia |].
  eexists.
  exact (displayNetworkWeightsForDebugging_shows_ten_nodes 1 1 10 ten_net Hwf
           ltac:(lia)).
Defined.


Lemma feedInput_reads_size_values_witness :
  Z.of_nat (length (vals (mkVector 3 [1%float; 0%float]))) <
  size (mkVector 3 [1%float; 0%float]) /\
  feedInput sample_net (mkVector 3 [1%float; 0%float]) = None.
Proof.
  assert (H : Z.of_nat (length (vals (mkVector 3 [1%float; 0%float]))) <
              size (mkVector 3 [1%float; 0%float])) by (cbn; lia).
  split; [exact H |].
  exact (proj2 (feedInput_reads_size_values sample_net _) H).
Defined.

Lemma backPropagateNetwork_label_out_of_range_witness :
  wf sample_net 2 3 2 /\ (5 < 0 \/ 2 <= 5) /\
  exists nn', backPropagateNetwork tanh_approx pow_approx sample_net 5 = Some nn'.
Proof.
  assert (Hwf : wf sample_net 2 3 2) by (apply wfb_sound; vm_compute; reflexivity).
  assert (Ht : 5 < 0 \/ 2 <= 5) by (right; lia).
  split; [exact Hwf |]. split; [exact Ht |].
  destruct (backPropagateNetwork_label_out_of_range tanh_approx pow_approx 2 3 2
              sample_net 5 Hwf Ht)
    as (nn' & Hrun & _).
  exists nn'. exact Hrun.
Defined.
